(** * Resilience layer of the demo service: health checker, shutdown manager,
      circuit-breaker settings and the HTTP handlers' feature flags.

    Shallow embedding of
      - resilient-app/internal/database/connection.go
        (packages database, shutdown and health), and
      - resilient-app/internal/handlers/handlers.go.
    The circuit breaker itself is the gobreaker library's; the repository
    only configures and calls it, and its [Execute] is modelled from the
    design document.

    Conventions.
      - A Go [string] is a sequence of bytes: Rocq's [string] (8-bit [ascii]).
      - [time.Time] and [time.Duration] are integers counting nanoseconds.
      - A Go [error] is its message; [nil] is [None].
      - Maps ([map[string]*Check], the process environment) are [gmap]s.
      - Logger calls have no effect on any decision and are left out. *)

From Stdlib Require Import ZArith QArith String Ascii List Bool Lia.
From stdpp Require Import base option gmap strings list fin_maps pretty.

Local Open Scope Z_scope.

(** ** Go's standard library, as far as the program uses it *)

Module gostrings.

Local Open Scope string_scope.

(** Code of a byte. *)
Definition code (c : ascii) : N := N_of_ascii c.

(** Byte length of the white-space rune (unicode.IsSpace) that starts the
    byte sequence [s] in UTF-8, [0%nat] when [s] does not start with one.
    The white-space runes are U+0009..U+000D, U+0020, U+0085, U+00A0,
    U+1680, U+2000..U+200A, U+2028, U+2029, U+202F, U+205F and U+3000; each
    has exactly one valid encoding, and any other first rune (RuneError
    included) is not white space. *)
Definition spaceRuneLen (s : list N) : nat :=
  match s with
  | (9 | 10 | 11 | 12 | 13 | 32)%N :: _ => 1
  | 194%N :: (133 | 160)%N :: _ => 2
  | 225%N :: 154%N :: 128%N :: _ => 3
  | 226%N :: 128%N :: b :: _ =>
      if ((128 <=? b) && (b <=? 138) || (b =? 168) || (b =? 169) || (b =? 175))%N
      then 3 else 0
  | 226%N :: 129%N :: 159%N :: _ => 3
  | 227%N :: 128%N :: 128%N :: _ => 3
  | _ => 0
  end%nat.

(** The same, for the rune that ends the byte sequence, given the sequence
    reversed (utf8.DecodeLastRuneInString walks back over continuation
    bytes to the rune's first byte). *)
Definition spaceRuneLenRev (r : list N) : nat :=
  match r with
  | (9 | 10 | 11 | 12 | 13 | 32)%N :: _ => 1
  | (133 | 160)%N :: 194%N :: _ => 2
  | 128%N :: 154%N :: 225%N :: _ => 3
  | b :: 128%N :: 226%N :: _ =>
      if ((128 <=? b) && (b <=? 138) || (b =? 168) || (b =? 169) || (b =? 175))%N
      then 3 else 0
  | 159%N :: 129%N :: 226%N :: _ => 3
  | 128%N :: 128%N :: 227%N :: _ => 3
  | _ => 0
  end%nat.

(** Drop runes from the front while [len] recognises one; [fuel] bounds the
    number of runes dropped. *)
Fixpoint dropRunes (len : list N -> nat) (fuel : nat) (s : list N) : list N :=
  match fuel with
  | O => s
  | S fuel' =>
      match len s with
      | O => s
      | n => dropRunes len fuel' (drop n s)
      end
  end.

Definition bytes (s : string) : list N := map code (list_ascii_of_string s).
Definition ofBytes (l : list N) : string :=
  string_of_list_ascii (map ascii_of_N l).

(** strings.TrimSpace: TrimRightFunc (TrimLeftFunc s IsSpace) IsSpace. *)
Definition TrimSpace (s : string) : string :=
  let l := bytes s in
  let l1 := dropRunes spaceRuneLen (List.length l) l in
  let l2 := rev (dropRunes spaceRuneLenRev (List.length l1) (rev l1)) in
  ofBytes l2.

(** strings.Split(s, sep) for a separator of one byte: the pieces between
    the separators, [Count(s, sep) + 1] of them. *)
Fixpoint Split (s : string) (sep : ascii) : list string :=
  match s with
  | EmptyString => [EmptyString]
  | String c s' =>
      if Ascii.eqb c sep then EmptyString :: Split s' sep
      else match Split s' sep with
           | [] => [String c EmptyString]
           | p :: ps => String c p :: ps
           end
  end.

(** strings.Join *)
Fixpoint Join (elems : list string) (sep : string) : string :=
  match elems with
  | [] => ""
  | [e] => e
  | e :: es => e ++ sep ++ Join es sep
  end.

End gostrings.

(** strconv, for an [int] of 64 bits. *)
Module gostrconv.

Local Open Scope string_scope.
Local Open Scope Z_scope.

Definition minInt : Z := - 2 ^ 63.
Definition maxInt : Z := 2 ^ 63 - 1.

(** The value of a decimal digit. *)
Definition digitValue (c : ascii) : option Z :=
  let n := N_of_ascii c in
  if ((48 <=? n) && (n <=? 57))%N then Some (Z.of_N n - 48) else None.

(** The number a string of decimal digits denotes, after [acc]; no other
    byte is allowed (in base 10 not even an underscore). *)
Fixpoint parseDigits (acc : Z) (s : string) : option Z :=
  match s with
  | EmptyString => Some acc
  | String c rest =>
      match digitValue c with
      | Some d => parseDigits (acc * 10 + d) rest
      | None => None
      end
  end.

(** The value when it is in the range of [int], an error otherwise. *)
Definition inRange (v : Z) : option Z :=
  if (minInt <=? v) && (v <=? maxInt) then Some v else None.

(** strconv.Atoi: an optional sign, then at least one decimal digit and
    nothing else, the value within the range of [int]; [None] is a non-nil
    error, whose accompanying value no caller in the program reads. *)
Definition Atoi (s : string) : option Z :=
  match s with
  | EmptyString => None
  | String c rest =>
      let neg := Ascii.eqb c "-"%char in
      let digits := if neg || Ascii.eqb c "+"%char then rest else s in
      match digits with
      | EmptyString => None
      | _ =>
          match parseDigits 0 digits with
          | None => None
          | Some n => inRange (if neg then - n else n)
          end
      end
  end.

Definition digitChar (d : Z) : ascii := ascii_of_N (Z.to_N (48 + d)).

(** The decimal digits of [n >= 0] in front of [acc], most significant
    first; [fuel] bounds their number. *)
Fixpoint formatDigits (fuel : nat) (n : Z) (acc : string) : string :=
  match fuel with
  | O => acc
  | S fuel' =>
      let acc' := String (digitChar (n mod 10)) acc in
      if n / 10 =? 0 then acc' else formatDigits fuel' (n / 10) acc'
  end.

(** strconv.Itoa of an [int]: at most nineteen digits, a minus sign in front
    of a negative number. *)
Definition Itoa (n : Z) : string :=
  if n <? 0 then String "-"%char (formatDigits 20 (- n) "")
  else formatDigits 20 n "".

End gostrconv.

(** [time.Second], in nanoseconds. *)
Definition second : Z := 1000000000.

(** The process environment: os.Getenv returns the empty string for a
    variable that is not set. *)
Definition Environ := gmap string string.

Definition Getenv (env : Environ) (key : string) : string :=
  default EmptyString (env !! key).

(** getEnvOrDefault, the same in packages database and health. *)
Definition getEnvOrDefault (env : Environ) (key defaultValue : string) : string :=
  let value := Getenv env key in
  if String.eqb value EmptyString then defaultValue else value.

(** ** package health *)

Module health.

Local Open Scope string_scope.
Local Open Scope Z_scope.

(** [type Status string]. The field [Status] of [Check] is [CStatus] here
    and that of [HealthResponse] is [RStatus], [Timestamp] likewise. *)
Definition Status := string.
Definition StatusHealthy : Status := "healthy".
Definition StatusUnhealthy : Status := "unhealthy".
Definition StatusDegraded : Status := "degraded".

(** A [*Check] of the program is never nil: every one comes from one of the
    three check functions. *)
Record Check := mkCheck {
  Name : string;
  CStatus : Status;
  Message : string;
  Duration : Z;
  Timestamp : Z
}.

Record HealthResponse := mkHealthResponse {
  RStatus : Status;
  RTimestamp : Z;
  Uptime : Z;
  Version : string;
  Checks : gmap string Check
}.

(** The fields of [Checker] that carry state; [db] lives in the world the
    operations run in, [mu] is a lock and [logger] only logs. *)
Record Checker := mkChecker {
  startTime : Z;
  ready : bool;
  startup : bool
}.

Definition startupDelay : Z := 5 * second.

Definition getEnabledFeatures (env : Environ) : list string :=
  let featureFlags :=
    getEnvOrDefault env "FEATURE_FLAGS" "graceful_degradation,circuit_breaker" in
  if String.eqb featureFlags "" then []
  else map gostrings.TrimSpace (gostrings.Split featureFlags ","%char).

Definition isGracefulDegradationEnabled (env : Environ) : bool :=
  existsb (fun feature => String.eqb feature "graceful_degradation")
          (getEnabledFeatures env).

(** The loop of determineOverallStatus over the map; both flags are only
    ever raised, so the order of iteration does not matter. *)
Definition scanCheck (_ : string) (check : Check) (acc : bool * bool) : bool * bool :=
  let '(hasUnhealthy, hasDegraded) := acc in
  if String.eqb (CStatus check) StatusUnhealthy then (true, hasDegraded)
  else if String.eqb (CStatus check) StatusDegraded then (hasUnhealthy, true)
  else (hasUnhealthy, hasDegraded).

Definition determineOverallStatus (env : Environ) (checks : gmap string Check) : Status :=
  let '(hasUnhealthy, hasDegraded) := map_fold scanCheck (false, false) checks in
  if hasUnhealthy && negb (isGracefulDegradationEnabled env) then StatusUnhealthy
  else if hasUnhealthy || hasDegraded then StatusDegraded
  else StatusHealthy.

(** Some check of the map has the status [st]. *)
Definition someCheck (st : Status) (checks : gmap string Check) : Prop :=
  ∃ name check, checks !! name = Some check ∧ CStatus check = st.

Definition countFailedChecks (checks : gmap string Check) : Z :=
  map_fold (fun _ check count =>
              if String.eqb (CStatus check) StatusHealthy then count else count + 1)
           0 checks.

Definition checkMemory (now : Z) : Check :=
  {| Name := "memory"; CStatus := StatusHealthy;
     Message := "Memory usage within normal limits";
     Duration := 0; Timestamp := now |}.

Definition checkFeatures (env : Environ) (now : Z) : Check :=
  let features := getEnabledFeatures env in
  match features with
  | [] => {| Name := "features"; CStatus := StatusDegraded;
             Message := "No features enabled - running in minimal mode";
             Duration := 0; Timestamp := now |}
  | _ => {| Name := "features"; CStatus := StatusHealthy;
            Message := "Features enabled: " ++ gostrings.Join features ", ";
            Duration := 0; Timestamp := now |}
  end.

(** The world the checker runs in: a clock that [time.Now] reads and the
    database behind [db.Ping] (the circuit breaker and the connection).
    [Ping w] is [c.db.Ping(dbCtx)] in the world [w]: its error and the
    world it leaves. *)
Section World.

Context {W : Type}.
Variable Now : W -> Z.
Variable Ping : W -> option string * W.

Definition checkDatabase (w : W) : Check * W :=
  let start := Now w in
  let '(err, w') := Ping w in
  let duration := Now w' - start in
  match err with
  | Some e =>
      ({| Name := "database"; CStatus := StatusUnhealthy;
          Message := "Database connection failed: " ++ e;
          Duration := duration; Timestamp := start |}, w')
  | None =>
      ({| Name := "database"; CStatus := StatusHealthy;
          Message := "Database connection successful";
          Duration := duration; Timestamp := start |}, w')
  end.

Definition HealthCheck (c : Checker) (env : Environ) (w : W) : HealthResponse * W :=
  let timestamp := Now w in
  let uptime := Now w - startTime c in
  let version := getEnvOrDefault env "APP_VERSION" "1.0.0" in
  let checks : gmap string Check := ∅ in
  let '(dbCheck, w') := checkDatabase w in
  let checks := <["database" := dbCheck]> checks in
  let memCheck := checkMemory (Now w') in
  let checks := <["memory" := memCheck]> checks in
  let featuresCheck := checkFeatures env (Now w') in
  let checks := <["features" := featuresCheck]> checks in
  ({| RStatus := determineOverallStatus env checks;
      RTimestamp := timestamp; Uptime := uptime; Version := version;
      Checks := checks |}, w').

(** ReadinessCheck returns its verdict, the checker (whose [ready] it may
    set) and the world. *)
Definition ReadinessCheck (c : Checker) (env : Environ) (w : W)
  : bool * Checker * W :=
  if negb (startup c) then (false, c, w)
  else
    let '(dbCheck, w') := checkDatabase w in
    if String.eqb (CStatus dbCheck) StatusUnhealthy then
      if isGracefulDegradationEnabled env then (true, c, w')
      else (false, c, w')
    else
      (true, {| startTime := startTime c; ready := true; startup := startup c |}, w').

Definition StartupCheck (c : Checker) : bool := startup c.

Definition IsReady (c : Checker) : bool := ready c.

(** NewChecker: the checker it returns. The two goroutines it starts are
    events of the system below. *)
Definition NewChecker (w : W) : Checker :=
  {| startTime := Now w; ready := false; startup := false |}.

(** *** The checker over time

    A checker, the world it runs in, and whether the goroutine that
    NewChecker starts to set [startup] is still asleep. *)
Record System := mkSystem {
  chk : Checker;
  world : W;
  timerPending : bool
}.

Inductive Event :=
| EvWorld (w' : W)              (* time passes, the database changes *)
| EvStartupTimer                (* the goroutine wakes from time.Sleep(5s) *)
| EvHealthCheck (env : Environ) (* a caller's or the background loop's *)
| EvReadinessCheck (env : Environ)
| EvStartupCheck
| EvIsReady.

Inductive Output :=
| OutNone
| OutBool (b : bool)
| OutHealth (r : HealthResponse).

Definition newSystem (w : W) : System :=
  {| chk := NewChecker w; world := w; timerPending := true |}.

(** One event; [None] when the event cannot happen in this state: the
    clock does not run backwards, and time.Sleep(d) returns after at
    least [d]. *)
Definition exec (s : System) (e : Event) : option (Output * System) :=
  match e with
  | EvWorld w' =>
      if Now (world s) <=? Now w'
      then Some (OutNone, {| chk := chk s; world := w'; timerPending := timerPending s |})
      else None
  | EvStartupTimer =>
      if timerPending s && (startTime (chk s) + startupDelay <=? Now (world s))
      then Some (OutNone,
                 {| chk := {| startTime := startTime (chk s);
                              ready := ready (chk s);
                              startup := true |};
                    world := world s; timerPending := false |})
      else None
  | EvHealthCheck env =>
      let '(r, w') := HealthCheck (chk s) env (world s) in
      Some (OutHealth r, {| chk := chk s; world := w'; timerPending := timerPending s |})
  | EvReadinessCheck env =>
      let '(b, c', w') := ReadinessCheck (chk s) env (world s) in
      Some (OutBool b, {| chk := c'; world := w'; timerPending := timerPending s |})
  | EvStartupCheck =>
      Some (OutBool (StartupCheck (chk s)), s)
  | EvIsReady =>
      Some (OutBool (IsReady (chk s)), s)
  end.

(** A run: the outputs of the events, in order, and the last state. *)
Fixpoint run (s : System) (es : list Event) : option (list Output * System) :=
  match es with
  | [] => Some ([], s)
  | e :: es' =>
      match exec s e with
      | None => None
      | Some (o, s') =>
          match run s' es' with
          | None => None
          | Some (os, s'') => Some (o :: os, s'')
          end
      end
  end.

(** The startup flag is up only once the delay has passed. *)
Definition startupAfterDelay (s : System) : Prop :=
  startup (chk s) = true -> startTime (chk s) + startupDelay <= Now (world s).

(** One round of backgroundHealthCheck, when the ticker fires: the warning
    it logs, if any (the status and the number of failed checks), and the
    world. *)
Definition backgroundHealthCheck (c : Checker) (env : Environ) (w : W)
  : option (Status * Z) * W :=
  let '(response, w') := HealthCheck c env w in
  if negb (String.eqb (RStatus response) StatusHealthy)
  then (Some (RStatus response, countFailedChecks (Checks response)), w')
  else (None, w').


End World.

(** What one check adds to the count of countFailedChecks. *)
Definition failedCheck (c : Check) : Z :=
  if String.eqb (CStatus c) StatusHealthy then 0 else 1.

End health.

(** ** package handlers *)

Module handlers.

Local Open Scope string_scope.

Definition getEnabledFeatures : list string :=
  ["graceful_degradation"; "circuit_breaker"; "metrics"].

(** The method reads nothing; the environment is an argument so that this
    can be said. *)
Definition isGracefulDegradationEnabled (env : Environ) : bool :=
  existsb (fun feature => String.eqb feature "graceful_degradation")
          getEnabledFeatures.

End handlers.

(** ** The circuit breaker (github.com/sony/gobreaker)

    The types are those the program uses ([State], [Counts], [Settings]);
    the breaker's state and its [Execute] follow the design document's
    FailureGate. *)

Module gobreaker.

Local Open Scope Z_scope.

Inductive State := StateClosed | StateHalfOpen | StateOpen.

(** [gobreaker.Counts], the fields the program reads or the breaker needs;
    uint32 in the library, and far from wrapping here. *)
Record Counts := mkCounts {
  Requests : Z;
  TotalSuccesses : Z;
  TotalFailures : Z;
  ConsecutiveFailures : Z
}.

(** [gobreaker.Settings] as NewConnection fills it. In the words of the
    design: [MaxRequests] is halfOpenMaxProbes, [Interval] the rolling
    interval, [Timeout] the open timeout, [ReadyToTrip] the trip predicate;
    OnStateChange only logs, the transitions it is told are part of what
    [Execute] returns. *)
Record Settings := mkSettings {
  Name : string;
  MaxRequests : Z;
  Interval : Z;
  Timeout : Z;
  ReadyToTrip : Counts -> bool
}.

Inductive GateError := ErrCircuitOpen | ErrTooManyRequests.

(** An error that [Execute] returns: the breaker's own, or the operation's. *)
Inductive ExecError :=
| GateErr (e : GateError)
| OpErr (msg : string).

Definition errorText (e : ExecError) : string :=
  match e with
  | GateErr ErrCircuitOpen => "circuit breaker is open"
  | GateErr ErrTooManyRequests => "too many requests"
  | OpErr msg => msg
  end.

(** Modelled from the spec: the state of the breaker, which the library
    keeps and the repository does not contain: [state], [counts] since the
    last reset, the time of that reset, and the time the breaker last
    opened. *)
Record CircuitBreaker := mkCircuitBreaker {
  settings : Settings;
  state : State;
  counts : Counts;
  countsSince : Z;
  openedAt : Z
}.

Definition noCounts : Counts :=
  {| Requests := 0; TotalSuccesses := 0; TotalFailures := 0;
     ConsecutiveFailures := 0 |}.

Definition onSuccess (c : Counts) : Counts :=
  {| Requests := Requests c + 1; TotalSuccesses := TotalSuccesses c + 1;
     TotalFailures := TotalFailures c; ConsecutiveFailures := 0 |}.

Definition onFailure (c : Counts) : Counts :=
  {| Requests := Requests c + 1; TotalSuccesses := TotalSuccesses c;
     TotalFailures := TotalFailures c + 1;
     ConsecutiveFailures := ConsecutiveFailures c + 1 |}.

(** Modelled from the spec: a transition, which the library makes. Every
    transition resets the counts; entering Open records [openedAt]. *)
Definition setState (cb : CircuitBreaker) (st : State) (now : Z) : CircuitBreaker :=
  {| settings := settings cb; state := st; counts := noCounts;
     countsSince := now;
     openedAt := match st with StateOpen => now | _ => openedAt cb end |}.

Definition withCounts (cb : CircuitBreaker) (c : Counts) : CircuitBreaker :=
  {| settings := settings cb; state := state cb; counts := c;
     countsSince := countsSince cb; openedAt := openedAt cb |}.

(** Modelled from the spec: the library's constructor; a breaker starts
    Closed with empty counts. *)
Definition NewCircuitBreaker (st : Settings) (now : Z) : CircuitBreaker :=
  {| settings := st; state := StateClosed; counts := noCounts;
     countsSince := now; openedAt := 0 |}.

(** What one call of [Execute] gives back besides the new breaker and world:
    the value and error returned, whether the wrapped operation was invoked,
    and the transitions told to the observer. *)
Record Outcome (V : Type) := mkOutcome {
  value : option V;
  error : option ExecError;
  invoked : bool;
  notified : list (State * State)
}.
Arguments mkOutcome {V}.
Arguments value {V}.
Arguments error {V}.
Arguments invoked {V}.
Arguments notified {V}.

Section Execute.

Context {W V : Type}.

(** The wrapped operation: a value and an error, and the world it leaves. *)
Definition Operation := W -> (V * option string) * W.

Definition reject (e : GateError) (notes : list (State * State)) : Outcome V :=
  {| value := None; error := Some (GateErr e); invoked := false;
     notified := notes |}.

Definition passed (r : V * option string) (notes : list (State * State)) : Outcome V :=
  {| value := Some (fst r); error := OpErr <$> snd r; invoked := true;
     notified := notes |}.

(** Modelled from the spec: the library's handling of a call in the Closed
    state, the rolling interval already looked after. The design puts the
    test of the trip predicate after either outcome of the operation. *)
Definition executeClosed (cb : CircuitBreaker) (now : Z) (op : Operation) (w : W)
  : Outcome V * CircuitBreaker * W :=
  let '(r, w') := op w in
  let c := match snd r with
           | Some _ => onFailure (counts cb)
           | None => onSuccess (counts cb)
           end in
  if ReadyToTrip (settings cb) c
  then (passed r [(StateClosed, StateOpen)], setState cb StateOpen now, w')
  else (passed r [], withCounts cb c, w').

(** Modelled from the spec: the library's handling of a call in the
    HalfOpen state; [notes] are the transitions already told during this
    call. The counts were reset on entering HalfOpen, so its requests and
    successes are those of this HalfOpen period. *)
Definition executeHalfOpen (cb : CircuitBreaker) (now : Z) (op : Operation) (w : W)
    (notes : list (State * State))
  : Outcome V * CircuitBreaker * W :=
  if MaxRequests (settings cb) <=? Requests (counts cb)
  then (reject ErrTooManyRequests notes, cb, w)
  else
    let '(r, w') := op w in
    match snd r with
    | Some _ =>
        (passed r (notes ++ [(StateHalfOpen, StateOpen)]),
         setState cb StateOpen now, w')
    | None =>
        let c := onSuccess (counts cb) in
        if MaxRequests (settings cb) <=? TotalSuccesses c
        then (passed r (notes ++ [(StateHalfOpen, StateClosed)]),
              setState cb StateClosed now, w')
        else (passed r notes, withCounts cb c, w')
    end.

(** Modelled from the spec: [CircuitBreaker.Execute] of the gobreaker
    library, which the repository imports and does not contain. The call is
    made at time [now].
    - Closed: the counts are reset when the rolling interval has expired;
      the operation is invoked; an error increments the failures and the
      consecutive failures, a success resets the consecutive failures; if the
      trip predicate holds of the counts the breaker opens, records
      [openedAt = now] and resets the counts.
    - Open: while [now - openedAt < Timeout] the call fails with
      ErrCircuitOpen and the operation is not invoked; once the timeout has
      elapsed the breaker becomes HalfOpen, resets the counts, and the call
      goes on as in HalfOpen.
    - HalfOpen: at most [MaxRequests] calls are let through, a further one
      fails with ErrTooManyRequests; one failure reopens the breaker;
      [MaxRequests] successes in a row close it and reset the counts. *)
Definition Execute (cb : CircuitBreaker) (now : Z) (op : Operation) (w : W)
  : Outcome V * CircuitBreaker * W :=
  match state cb with
  | StateClosed =>
      let cb1 :=
        if Interval (settings cb) <=? now - countsSince cb
        then {| settings := settings cb; state := StateClosed; counts := noCounts;
                countsSince := now; openedAt := openedAt cb |}
        else cb in
      executeClosed cb1 now op w
  | StateOpen =>
      if now - openedAt cb <? Timeout (settings cb)
      then (reject ErrCircuitOpen [], cb, w)
      else executeHalfOpen (setState cb StateHalfOpen now) now op w
                           [(StateOpen, StateHalfOpen)]
  | StateHalfOpen => executeHalfOpen cb now op w []
  end.

(** A sequence of calls, each with its time and operation; for every call,
    the breaker before it, its time and its outcome. *)
Record CallRecord := mkCallRecord {
  before : CircuitBreaker;
  at_time : Z;
  world_before : W;
  outcome : Outcome V;
  after : CircuitBreaker;
  world_after : W
}.

Fixpoint executeAll (cb : CircuitBreaker) (w : W) (calls : list (Z * Operation))
  : list CallRecord :=
  match calls with
  | [] => []
  | (now, op) :: rest =>
      let '(o, cb', w') := Execute cb now op w in
      {| before := cb; at_time := now; world_before := w; outcome := o;
         after := cb'; world_after := w' |}
      :: executeAll cb' w' rest
  end.

(** A call on an open breaker before its timeout fails fast: the operation
    is not invoked, the error is ErrCircuitOpen, breaker and world stay. *)
Definition failsFast (r : CallRecord) : Prop :=
  state (before r) = StateOpen ->
  at_time r - openedAt (before r) < Timeout (settings (before r)) ->
  invoked (outcome r) = false
  /\ error (outcome r) = Some (GateErr ErrCircuitOpen)
  /\ value (outcome r) = None
  /\ after r = before r
  /\ world_after r = world_before r.

End Execute.

Arguments Operation : clear implicits.
Arguments CallRecord : clear implicits.

End gobreaker.

(** ** package database *)

Module database.

Import gobreaker.
Local Open Scope string_scope.
Local Open Scope Z_scope.

(** The ReadyToTrip closure of NewConnection. [failureRatio] is the exact
    quotient: both counters are uint32, so their conversions to float64 are
    exact, the float64 quotient is the rounding of the exact one, and since
    1/2 is a float64 and the exact quotient of two uint32 is either at least
    1/2 or below it by more than 2^-33, the rounded quotient compares with 0.5
    as the exact one does. With [Requests = 0] the float64 quotient is NaN or
    an infinity and the conjunction is false by its first half. *)
Definition ReadyToTrip (counts : Counts) : bool :=
  let failureRatio : Q :=
    (inject_Z (TotalFailures counts) / inject_Z (Requests counts))%Q in
  (2 <=? Requests counts) && Qle_bool (1 # 2) failureRatio.

Definition cbSettings : Settings :=
  {| gobreaker.Name := "database";
     gobreaker.MaxRequests := 3;
     gobreaker.Interval := 30 * second;
     gobreaker.Timeout := 10 * second;
     gobreaker.ReadyToTrip := ReadyToTrip |}.

(** [conn] lives in the world the operations run in; [logger] only logs. *)
Record DB := mkDB {
  circuitBreaker : CircuitBreaker
}.

Section Conn.

(** The world holds the connection; [PingContext] is [db.conn.PingContext]. *)
Context {W : Type}.
Variable PingContext : W -> option string * W.

Definition Ping (db : DB) (now : Z) (w : W) : option ExecError * DB * W :=
  let '(o, cb', w') :=
    Execute (circuitBreaker db) now
            (fun w => let '(err, w') := PingContext w in ((tt, err), w')) w in
  (error o, {| circuitBreaker := cb' |}, w').

(** SimulateFailure: five operations that fail. *)
Definition SimulateFailure (db : DB) (now : Z) (w : W) : DB * W :=
  let fail : Operation W unit :=
    fun w => ((tt, Some "simulated database failure"), w) in
  let step (acc : DB * W) (_ : nat) :=
    let '(o, cb', w') := Execute (circuitBreaker (fst acc)) now fail (snd acc) in
    ({| circuitBreaker := cb' |}, w') in
  foldl step (db, w) (seq 0 5).

Definition GetStats (db : DB) : Counts := counts (circuitBreaker db).
Definition GetState (db : DB) : State := state (circuitBreaker db).

End Conn.

(** getEnvOrDefaultInt: the default unless the variable is set, not empty and
    an integer for strconv.Atoi. *)
Definition getEnvOrDefaultInt (env : Environ) (key : string) (defaultValue : Z) : Z :=
  let value := Getenv env key in
  if String.eqb value "" then defaultValue
  else match gostrconv.Atoi value with
       | Some intValue => intValue
       | None => defaultValue
       end.

(** [UName] is the field [Name]. *)
Record User := mkUser {
  ID : Z;
  UName : string;
  Email : string;
  CreatedAt : Z
}.

(** What [QueryContext] gives when it succeeds: for every row that
    [rows.Next] reaches, what [rows.Scan] makes of it, and [rows.Err]. *)
Record Rows := mkRows {
  scans : list (User + string);
  rowsErr : option string
}.

(** The loop over the rows in GetUsers: the users scanned so far, or the
    first error of Scan. *)
Fixpoint scanRows (rs : list (User + string)) (users : list User)
  : list User + string :=
  match rs with
  | [] => inl users
  | inl user :: rest => scanRows rest (users ++ [user])
  | inr err :: _ => inr err
  end.

Section Queries.

(** The world holds the connection. The three queries are the calls on
    [db.conn] with the SQL text of the source, the last with the time
    [time.Now] gives. *)
Context {W : Type}.
Variable QueryUsers : W -> (Rows + string) * W.
Variable QueryUser : Z -> W -> (User + string) * W.
Variable InsertUser : string -> string -> W -> (User + string) * W.

(** The closure GetUsers passes to the breaker; a nil slice is the empty
    list. *)
Definition getUsersOp : Operation W (list User) :=
  fun w =>
    match QueryUsers w with
    | (inr err, w') => (([], Some err), w')
    | (inl rows, w') =>
        match scanRows (scans rows) [] with
        | inr err => (([], Some err), w')
        | inl users => ((users, rowsErr rows), w')
        end
    end.

(** The closures of GetUser and CreateUser; the value is the user, [None]
    for a nil pointer. *)
Definition rowOp (q : W -> (User + string) * W) : Operation W (option User) :=
  fun w =>
    match q w with
    | (inr err, w') => ((None, Some err), w')
    | (inl user, w') => ((Some user, None), w')
    end.

(** What a method of [DB] makes of the breaker's result: the error, or the
    value asserted to its type. *)
Definition GetUsers (db : DB) (now : Z) (w : W)
  : (ExecError + list User) * DB * W :=
  let '(o, cb', w') := Execute (circuitBreaker db) now getUsersOp w in
  (match error o with
   | Some err => inl err
   | None => inr (default [] (value o))
   end, {| circuitBreaker := cb' |}, w').

Definition viaBreaker (db : DB) (now : Z) (op : Operation W (option User)) (w : W)
  : (ExecError + option User) * DB * W :=
  let '(o, cb', w') := Execute (circuitBreaker db) now op w in
  (match error o with
   | Some err => inl err
   | None => inr (default None (value o))
   end, {| circuitBreaker := cb' |}, w').

Definition GetUser (db : DB) (now : Z) (id : Z) (w : W)
  : (ExecError + option User) * DB * W :=
  viaBreaker db now (rowOp (QueryUser id)) w.

Definition CreateUser (db : DB) (now : Z) (name email : string) (w : W)
  : (ExecError + option User) * DB * W :=
  viaBreaker db now (rowOp (InsertUser name email)) w.

End Queries.

(** *** The loop of SimulateFailure, turn by turn *)

Section Simulated.

Context {W : Type}.

(** The operation SimulateFailure hands to the breaker. *)
Definition simulated : Operation W unit :=
  fun w => ((tt, Some "simulated database failure"), w).

(** One turn of its loop. *)
Definition simulateStep (now : Z) (acc : DB * W) (_ : nat) : DB * W :=
  let '(o, cb', w') := Execute (circuitBreaker (fst acc)) now simulated (snd acc) in
  ({| circuitBreaker := cb' |}, w').

End Simulated.

(** The counts after [k] more failures. *)
Fixpoint failures (k : nat) (c : Counts) : Counts :=
  match k with
  | O => c
  | S k' => failures k' (onFailure c)
  end.

(** *** NewConnection *)

(** The calls NewConnection makes on the database driver. *)
Inductive ConnCall :=
| ConnOpen (connStr : string)  (* sql.Open("postgres", connStr) *)
| ConnConfigure                (* the four settings of the pool *)
| ConnPing                     (* conn.PingContext, ten seconds at most *)
| ConnSchema                   (* db.initSchema *)
| ConnClose.                   (* conn.Close *)

(** The error NewConnection returns: the step that failed and its error. *)
Inductive ConnError :=
| ErrOpen (e : string)
| ErrPing (e : string)
| ErrSchema (e : string).

Definition connErrorText (e : ConnError) : string :=
  match e with
  | ErrOpen e => "failed to open database connection: " ++ e
  | ErrPing e => "failed to ping database: " ++ e
  | ErrSchema e => "failed to initialize database schema: " ++ e
  end.

Definition connectionString (env : Environ) : string :=
  let dbHost := getEnvOrDefault env "DB_HOST" "postgres" in
  let dbPort := getEnvOrDefault env "DB_PORT" "5432" in
  let dbUser := getEnvOrDefault env "DB_USER" "postgres" in
  let dbPassword := getEnvOrDefault env "DB_PASSWORD" "postgres" in
  let dbName := getEnvOrDefault env "DB_NAME" "resilient_db" in
  "host=" ++ dbHost ++ " port=" ++ dbPort ++ " user=" ++ dbUser
  ++ " password=" ++ dbPassword ++ " dbname=" ++ dbName ++ " sslmode=disable".

Section Driver.

(** The world holds the driver and the server; each call gives its error
    and the world it leaves. *)
Context {W : Type}.
Variable sqlOpen : string -> W -> option string * W.
Variable connPing : W -> option string * W.
Variable connExecSchema : W -> option string * W.
Variable connClose : W -> option string * W.

(** NewConnection at time [now]: the handle or the error, the calls made on
    the driver, and the world. *)
Definition NewConnection (env : Environ) (now : Z) (w : W)
  : (ConnError + DB) * list ConnCall * W :=
  let connStr := connectionString env in
  match sqlOpen connStr w with
  | (Some err, w1) => (inl (ErrOpen err), [ConnOpen connStr], w1)
  | (None, w1) =>
      match connPing w1 with
      | (Some err, w2) =>
          let '(_, w3) := connClose w2 in
          (inl (ErrPing err),
           [ConnOpen connStr; ConnConfigure; ConnPing; ConnClose], w3)
      | (None, w2) =>
          let db := {| circuitBreaker := NewCircuitBreaker cbSettings now |} in
          match connExecSchema w2 with
          | (Some err, w3) =>
              let '(_, w4) := connClose w3 in
              (inl (ErrSchema err),
               [ConnOpen connStr; ConnConfigure; ConnPing; ConnSchema; ConnClose],
               w4)
          | (None, w3) =>
              (inr db, [ConnOpen connStr; ConnConfigure; ConnPing; ConnSchema], w3)
          end
      end
  end.

End Driver.

End database.

(** ** package shutdown *)

Module shutdown.

Local Open Scope string_scope.

(** The error [Shutdown] returns: which step failed and the step's error, or
    the context's error. The hook is numbered from 1, as in the message. *)
Inductive ShutdownError :=
| ErrServer (e : string)
| ErrHook (n : nat) (e : string)
| ErrDatabase (e : string)
| ErrContext (e : string).

Definition errorString (e : ShutdownError) : string :=
  match e with
  | ErrServer e => "HTTP server shutdown failed: " ++ e
  | ErrHook n e => "shutdown hook " ++ pretty n ++ " failed: " ++ e
  | ErrDatabase e => "database close failed: " ++ e
  | ErrContext e => e
  end.

(** The calls the goroutine of [Shutdown] makes. *)
Inductive Step :=
| StepServer         (* m.server.Shutdown(ctx) *)
| StepHook (n : nat) (* the n-th registered hook, from 1 *)
| StepDatabase       (* m.db.Close() *)
| StepCleanup.       (* the final pause *)

(** Which case the select at the end of [Shutdown] takes: the goroutine's
    result arrives, or the context is done first, with [ctx.Err()]. *)
Inductive SelectCase :=
| CaseDone
| CaseCtxDone (err : string).

Section World.

(** The world holds the HTTP server, the database handle and whatever the
    hooks work on; [Ctx] is a [context.Context]. *)
Context {W Ctx : Type}.
Variable serverShutdown : Ctx -> W -> option string * W.
Variable dbClose : W -> option string * W.

Definition Hook := Ctx -> W -> option string * W.

Record Manager := mkManager {
  shutdownFn : list Hook;
  isShutdown : bool
}.

Definition NewManager : Manager :=
  {| shutdownFn := []; isShutdown := false |}.

Definition AddShutdownHook (m : Manager) (fn : Hook) : Manager :=
  {| shutdownFn := shutdownFn m ++ [fn]; isShutdown := isShutdown m |}.

(** The loop over the hooks; [n] is the number of the first of [fns]. *)
Fixpoint runHooks (ctx : Ctx) (n : nat) (fns : list Hook) (w : W)
  : option ShutdownError * list Step * W :=
  match fns with
  | [] => (None, [], w)
  | fn :: rest =>
      match fn ctx w with
      | (Some e, w') => (Some (ErrHook n e), [StepHook n], w')
      | (None, w') =>
          let '(err, steps, w'') := runHooks ctx (S n) rest w' in
          (err, StepHook n :: steps, w'')
      end
  end.

(** The goroutine of [Shutdown]: what it sends on [done], the calls it
    made, and the world it leaves. *)
Definition teardown (m : Manager) (ctx : Ctx) (w : W)
  : option ShutdownError * list Step * W :=
  match serverShutdown ctx w with
  | (Some e, w1) => (Some (ErrServer e), [StepServer], w1)
  | (None, w1) =>
      match runHooks ctx 1 (shutdownFn m) w1 with
      | (Some e, steps, w2) => (Some e, StepServer :: steps, w2)
      | (None, steps, w2) =>
          match dbClose w2 with
          | (Some e, w3) =>
              (Some (ErrDatabase e), StepServer :: steps ++ [StepDatabase], w3)
          | (None, w3) =>
              (None, StepServer :: steps ++ [StepDatabase; StepCleanup], w3)
          end
      end
  end.

(** What the select of a caller makes of the goroutine's result. *)
Definition selected (sel : SelectCase) (res : option ShutdownError)
  : option ShutdownError :=
  match sel with
  | CaseDone => res
  | CaseCtxDone e => Some (ErrContext e)
  end.

(** [Shutdown]: the error returned, the manager, the calls made by its
    goroutine and the world. The goroutine runs whichever case the select
    takes. *)
Definition Shutdown (m : Manager) (ctx : Ctx) (sel : SelectCase) (w : W)
  : option ShutdownError * Manager * list Step * W :=
  if isShutdown m then (None, m, [], w)
  else
    let m' := {| shutdownFn := shutdownFn m; isShutdown := true |} in
    let '(res, steps, w') := teardown m' ctx w in
    (selected sel res, m', steps, w').

Definition IsShutdown (m : Manager) : bool := isShutdown m.

(** The hooks [fns] all return nil when run one after the other from [w],
    and leave the world given. *)
Fixpoint succeedAll (ctx : Ctx) (fns : list Hook) (w : W) : option W :=
  match fns with
  | [] => Some w
  | fn :: rest =>
      match fn ctx w with
      | (None, w') => succeedAll ctx rest w'
      | (Some _, _) => None
      end
  end.

(** *** Callers of [Shutdown] and [AddShutdownHook] running at the same time

    Each caller is at one point of its function; a step of a caller is one
    operation on the lock, on [isShutdown] or on [shutdownFn], or the rest
    of [Shutdown] once the lock is released: the goroutine, which reads
    [shutdownFn] when it runs, and the select. *)
Inductive Call :=
| CallShutdown (ctx : Ctx) (sel : SelectCase)
| CallAddShutdownHook (fn : Hook).

Inductive PC :=
| PcLock            (* before m.mu.Lock(), in either function *)
| PcTest            (* holds the lock, before the test of m.isShutdown *)
| PcUnlockReturn    (* holds the lock, in the branch, before m.mu.Unlock() *)
| PcSet             (* holds the lock, before m.isShutdown = true *)
| PcUnlock          (* holds the lock, before m.mu.Unlock() *)
| PcTeardown        (* lock released, before the goroutine and the select *)
| PcReturned (ran : bool) (err : option ShutdownError)
                    (* Shutdown has returned [err]; [ran]: after the
                       goroutine, not from the branch *)
| PcAppend          (* holds the lock, before the append *)
| PcAppended        (* holds the lock, before the deferred m.mu.Unlock() *)
| PcAdded.          (* AddShutdownHook has returned *)

Record Caller := mkCaller {
  pc : PC;
  call : Call
}.

(** What the callers share: the manager, who holds [m.mu], the world, and
    the calls made so far by the goroutines. *)
Record Config := mkConfig {
  mgr : Manager;
  mu : option nat;
  wld : W;
  made : list Step;
  callers : list Caller
}.

Definition holdsLock (p : PC) : bool :=
  match p with
  | PcTest | PcUnlockReturn | PcSet | PcUnlock | PcAppend | PcAppended => true
  | _ => false
  end.

Definition at_pc (th : Caller) (p : PC) : Caller :=
  {| pc := p; call := call th |}.

(** One step of caller [t]; [None] when there is no such caller, when it
    waits for the lock, or when it has returned. *)
Definition stepCaller (t : nat) (c : Config) : option Config :=
  match callers c !! t with
  | None => None
  | Some th =>
      let move (p : PC) := <[t := at_pc th p]> (callers c) in
      match pc th, call th with
      | PcLock, cl =>
          match mu c with
          | Some _ => None
          | None =>
              Some {| mgr := mgr c; mu := Some t; wld := wld c; made := made c;
                      callers := move match cl with
                                      | CallShutdown _ _ => PcTest
                                      | CallAddShutdownHook _ => PcAppend
                                      end |}
          end
      | PcTest, _ =>
          Some {| mgr := mgr c; mu := mu c; wld := wld c; made := made c;
                  callers := move (if isShutdown (mgr c) then PcUnlockReturn
                                   else PcSet) |}
      | PcUnlockReturn, _ =>
          Some {| mgr := mgr c; mu := None; wld := wld c; made := made c;
                  callers := move (PcReturned false None) |}
      | PcSet, _ =>
          Some {| mgr := {| shutdownFn := shutdownFn (mgr c); isShutdown := true |};
                  mu := mu c; wld := wld c; made := made c;
                  callers := move PcUnlock |}
      | PcUnlock, _ =>
          Some {| mgr := mgr c; mu := None; wld := wld c; made := made c;
                  callers := move PcTeardown |}
      | PcTeardown, CallShutdown ctx sel =>
          let '(res, steps, w') := teardown (mgr c) ctx (wld c) in
          Some {| mgr := mgr c; mu := mu c; wld := w'; made := made c ++ steps;
                  callers := move (PcReturned true (selected sel res)) |}
      | PcAppend, CallAddShutdownHook fn =>
          Some {| mgr := AddShutdownHook (mgr c) fn; mu := mu c; wld := wld c;
                  made := made c; callers := move PcAppended |}
      | PcAppended, _ =>
          Some {| mgr := mgr c; mu := None; wld := wld c; made := made c;
                  callers := move PcAdded |}
      | _, _ => None
      end
  end.

(** A schedule names the caller that moves next; a caller that cannot move
    when named leaves everything as it is. *)
Fixpoint runSchedule (c : Config) (sched : list nat) : Config :=
  match sched with
  | [] => c
  | t :: rest => runSchedule (default c (stepCaller t c)) rest
  end.

(** All callers at the start of their functions, the lock free. *)
Definition startCallers (m : Manager) (w : W) (cs : list Call) : Config :=
  {| mgr := m; mu := None; wld := w; made := [];
     callers := (fun cl => {| pc := PcLock; call := cl |}) <$> cs |}.

Definition ranTeardown (p : PC) : bool :=
  match p with
  | PcReturned true _ => true
  | _ => false
  end.

Definition hasReturned (p : PC) : bool :=
  match p with
  | PcReturned _ _ | PcAdded => true
  | _ => false
  end.


(** *** What holds of the callers under every schedule *)

(** Points a caller can be at while the flag is down. *)
Definition early (p : PC) : bool :=
  match p with
  | PcLock | PcTest | PcSet | PcAppend | PcAppended | PcAdded => true
  | _ => false
  end.

(** The caller has found the flag down. *)
Definition won (p : PC) : bool :=
  match p with
  | PcSet | PcUnlock | PcTeardown | PcReturned true _ => true
  | _ => false
  end.

(** The caller has raised the flag. *)
Definition raised (p : PC) : bool :=
  match p with
  | PcUnlock | PcTeardown | PcReturned true _ => true
  | _ => false
  end.

(** Points of [Shutdown], and points of [AddShutdownHook]. *)
Definition fitsCall (p : PC) (cl : Call) : bool :=
  match p, cl with
  | PcLock, _ => true
  | (PcAppend | PcAppended | PcAdded), CallAddShutdownHook _ => true
  | (PcTest | PcUnlockReturn | PcSet | PcUnlock | PcTeardown | PcReturned _ _),
    CallShutdown _ _ => true
  | _, _ => false
  end.

(** The goroutine has run once, for caller [t], from the world [w0], on the
    hooks [fns] registered by then, which begin with those of [m0]. *)
Definition ranOnceFor (m0 : Manager) (w0 : W) (c : Config)
    (t : nat) (th : Caller) : Prop :=
  callers c !! t = Some th
  /\ ranTeardown (pc th) = true
  /\ exists ctx sel fns,
      call th = CallShutdown ctx sel
      /\ shutdownFn m0 `prefix_of` fns
      /\ let m1 := {| shutdownFn := fns; isShutdown := true |} in
         made c = snd (fst (teardown m1 ctx w0))
         /\ wld c = snd (teardown m1 ctx w0)
         /\ pc th = PcReturned true (selected sel (fst (fst (teardown m1 ctx w0)))).

Record Inv (m0 : Manager) (w0 : W) (n : nat) (c : Config) : Prop := {
  inv_len : length (callers c) = n;
  inv_hooks : shutdownFn m0 `prefix_of` shutdownFn (mgr c);
  inv_fits : forall t th, callers c !! t = Some th -> fitsCall (pc th) (call th) = true;
  inv_mutex : forall t th,
      callers c !! t = Some th -> holdsLock (pc th) = true -> mu c = Some t;
  inv_early : isShutdown (mgr c) = false ->
              forall t th, callers c !! t = Some th -> early (pc th) = true;
  inv_raised : isShutdown (mgr c) = true ->
               (exists t th, callers c !! t = Some th /\ raised (pc th) = true)
               /\ (forall t th, callers c !! t = Some th -> pc th <> PcSet);
  inv_one : forall t1 t2 th1 th2,
      callers c !! t1 = Some th1 -> callers c !! t2 = Some th2 ->
      won (pc th1) = true -> won (pc th2) = true -> t1 = t2;
  inv_nil : forall t th err,
      callers c !! t = Some th -> pc th = PcReturned false err -> err = None;
  inv_made :
    (exists t th, ranOnceFor m0 w0 c t th)
    \/ ((forall t th, callers c !! t = Some th -> ranTeardown (pc th) = false)
        /\ made c = [] /\ wld c = w0)
}.

End World.

(** The steps a caller at point [p] has still to make before it returns. *)
Definition remaining (p : PC) : nat :=
  match p with
  | PcLock => 5
  | PcTest => 4
  | PcSet => 3
  | PcUnlock | PcAppend => 2
  | PcUnlockReturn | PcTeardown | PcAppended => 1
  | PcReturned _ _ | PcAdded => 0
  end.

Arguments Hook : clear implicits.
Arguments Manager : clear implicits.
Arguments Call : clear implicits.
Arguments Caller : clear implicits.
Arguments Config : clear implicits.

End shutdown.

(** ** package handlers: the HTTP handlers

    A handler only writes to its [http.ResponseWriter]; it is the list of
    the calls it makes on it. The flag and the feature list of the handlers
    are in the module [handlers] above. *)

Module http_handlers.

Import health.
Local Open Scope string_scope.
Local Open Scope Z_scope.

Definition StatusOK : Z := 200.
Definition StatusCreated : Z := 201.
Definition StatusBadRequest : Z := 400.
Definition StatusNotFound : Z := 404.
Definition StatusInternalServerError : Z := 500.
Definition StatusServiceUnavailable : Z := 503.

(** http.StatusText, for the codes the handlers use. *)
Definition StatusText (code : Z) : string :=
  if code =? 200 then "OK"
  else if code =? 201 then "Created"
  else if code =? 400 then "Bad Request"
  else if code =? 404 then "Not Found"
  else if code =? 500 then "Internal Server Error"
  else if code =? 503 then "Service Unavailable"
  else "".

Record ErrorResponse := mkErrorResponse {
  Error : string;
  Code : string;
  EMessage : string
}.

Record CreateUserRequest := mkCreateUserRequest {
  RName : string;
  REmail : string
}.

(** The map GetSystemStatus encodes. *)
Record SystemStatus := mkSystemStatus {
  sysHealth : HealthResponse;
  sysState : string;
  sysRequests : Z;
  sysTotalSuccesses : Z;
  sysTotalFailures : Z;
  sysFeatures : list string
}.

(** What is handed to json.Encode. A []database.User is [None] when it is the
    nil slice and [Some us] when it is a slice with the elements [us]; a
    *database.User is [None] when it is nil. *)
Inductive JSONValue :=
| JHealth (r : HealthResponse)
| JUsers (us : option (list database.User))
| JUser (u : option database.User)
| JError (e : ErrorResponse)
| JStatus (s : SystemStatus).

(** The form of what encoding/json writes for a value: null for a nil slice
    and a nil pointer, an array for a slice that is not nil, an object for a
    struct and a map. *)
Inductive JSONForm :=
| FormNull
| FormArray (n : nat)
| FormObject.

Definition jsonForm (v : JSONValue) : JSONForm :=
  match v with
  | JUsers None => FormNull
  | JUsers (Some us) => FormArray (length us)
  | JUser None => FormNull
  | JUser (Some _) => FormObject
  | JHealth _ | JError _ | JStatus _ => FormObject
  end.

(** The slice DB.GetUsers returns for the rows it has scanned: its [users]
    is declared nil and only grows by append, so it is nil when there is no
    row. *)
Definition sliceOf (rows : list database.User) : option (list database.User) :=
  match rows with
  | [] => None
  | _ => Some rows
  end.

Inductive Body :=
| BodyBytes (s : string)     (* w.Write([]byte(s)) *)
| BodyJSON (v : JSONValue).  (* json.NewEncoder(w).Encode(v) *)

(** The calls of a handler on its ResponseWriter. *)
Inductive WriterOp :=
| SetHeader (key value : string)  (* w.Header().Set(key, value) *)
| WriteHeader (code : Z)
| Write (b : Body).

(** checkWriteHeaderCode of net/http: WriteHeader panics on a code that has
    not three digits. *)
Definition validCode (code : Z) : bool := (100 <=? code) && (code <=? 999).

(** A 1xx code other than 101 Switching Protocols is informational:
    WriteHeader sends it at once and the status of the response stays
    open. *)
Definition informational (code : Z) : bool :=
  (100 <=? code) && (code <=? 199) && negb (code =? 101).

(** bodyAllowedForStatus of net/http: Write refuses a body after a 1xx, 204
    or 304 status. *)
Definition bodyAllowed (status : Z) : bool :=
  negb (((100 <=? status) && (status <=? 199))
        || (status =? 204) || (status =? 304)).

(** The ResponseWriter of net/http (its [response]): the header map, the
    informational codes sent, what the first final WriteHeader has sent (the
    status and the headers as they were), and the body Write has accepted.
    A WriteHeader after the final one is ignored, and a Write before any
    final WriteHeader sends the status 200 first. A length declared in a
    Content-Length header, which limits what Write accepts, is not part of
    the model: no handler of the program declares one. *)
Record ResponseWriter := mkResponseWriter {
  header : gmap string string;
  informed : list Z;
  sent : option (Z * gmap string string);
  body : list Body
}.

Definition newResponseWriter : ResponseWriter :=
  {| header := ∅; informed := []; sent := None; body := [] |}.

(** The status of the response when the handler has returned; 200 when it
    has written nothing (the server then sends an empty 200). *)
Definition sentStatus (w : ResponseWriter) : Z :=
  match sent w with
  | Some (code, _) => code
  | None => StatusOK
  end.

(** A call on a writer gives the writer after it and whether the call
    panicked. WriteHeader: ignored once a final status is sent; else it
    panics on a code that is not valid, sends an informational code and
    leaves the status open, and sends any other code as the final status. *)
Definition rwWriteHeader (code : Z) (w : ResponseWriter) : ResponseWriter * bool :=
  match sent w with
  | Some _ => (w, false)
  | None =>
      if negb (validCode code) then (w, true)
      else if informational code
      then ({| header := header w; informed := informed w ++ [code];
               sent := None; body := body w |}, false)
      else ({| header := header w; informed := informed w;
               sent := Some (code, header w); body := body w |}, false)
  end.

Definition rwWrite (b : Body) (w : ResponseWriter) : ResponseWriter :=
  let w' :=
    match sent w with
    | Some _ => w
    | None => {| header := header w; informed := informed w;
                 sent := Some (StatusOK, header w); body := body w |}
    end in
  if bodyAllowed (sentStatus w')
  then {| header := header w'; informed := informed w'; sent := sent w';
          body := body w' ++ [b] |}
  else w'.

Definition rwApply (op : WriterOp) (w : ResponseWriter) : ResponseWriter * bool :=
  match op with
  | SetHeader k v =>
      ({| header := <[k := v]> (header w); informed := informed w;
          sent := sent w; body := body w |}, false)
  | WriteHeader code => rwWriteHeader code w
  | Write b => (rwWrite b w, false)
  end.

(** responseWriterWrapper: it overrides WriteHeader to note the code, before
    it passes the call on; Header and Write are those of the ResponseWriter
    it embeds. *)
Record responseWriterWrapper := mkWrapper {
  inner : ResponseWriter;
  statusCode : Z
}.

Definition newWrapper (w : ResponseWriter) : responseWriterWrapper :=
  {| inner := w; statusCode := StatusOK |}.

Definition wrapperApply (op : WriterOp) (rw : responseWriterWrapper)
  : responseWriterWrapper * bool :=
  match op with
  | WriteHeader code =>
      let '(w', panicked) := rwWriteHeader code (inner rw) in
      ({| inner := w'; statusCode := code |}, panicked)
  | _ =>
      let '(w', panicked) := rwApply op (inner rw) in
      ({| inner := w'; statusCode := statusCode rw |}, panicked)
  end.

(** http.ResponseWriter is an interface; the server's writer and the
    wrapper implement it. *)
Class Writer (T : Type) := call : WriterOp -> T -> T * bool.

#[global] Instance ResponseWriter_Writer : Writer ResponseWriter := rwApply.
#[global] Instance wrapper_Writer : Writer responseWriterWrapper := wrapperApply.

(** A handler run on a writer: its calls one after the other until one
    panics, which ends the handler; the writer it leaves and whether it
    panicked. *)
Fixpoint run {T : Type} `{Writer T} (ops : list WriterOp) (t : T) : T * bool :=
  match ops with
  | [] => (t, false)
  | op :: rest =>
      let '(t', panicked) := call op t in
      if panicked then (t', true) else run rest t'
  end.

(** A handler served on a ResponseWriter, and on a wrapper. *)
Definition serve (ops : list WriterOp) (w : ResponseWriter) : ResponseWriter :=
  fst (run ops w).

Definition panics (ops : list WriterOp) (w : ResponseWriter) : bool :=
  snd (run ops w).

Definition serveWrapped (ops : list WriterOp) (rw : responseWriterWrapper)
  : responseWriterWrapper :=
  fst (run ops rw).

Definition writeJSONResponse (statusCode : Z) (data : JSONValue) : list WriterOp :=
  [SetHeader "Content-Type" "application/json";
   WriteHeader statusCode;
   Write (BodyJSON data)].

Definition writeErrorResponse (statusCode : Z) (code message : string)
  : list WriterOp :=
  writeJSONResponse statusCode
    (JError {| Error := StatusText statusCode; Code := code;
               EMessage := message |}).

Definition day : Z := 24 * 3600 * second.

Definition getFallbackUsers (now : Z) : list database.User :=
  [{| database.ID := 1; database.UName := "Fallback User";
      database.Email := "fallback@example.com";
      database.CreatedAt := now - day |}].

Definition getFallbackUser (now : Z) (id : Z) : option database.User :=
  if id =? 1
  then Some {| database.ID := 1; database.UName := "Fallback User";
               database.Email := "fallback@example.com";
               database.CreatedAt := now - day |}
  else None.

Definition getEndpointLabel (path : string) : string :=
  if String.prefix "/api/users/" path then "/api/users/{id}" else path.

(** State.String of gobreaker. *)
Definition stateString (st : gobreaker.State) : string :=
  match st with
  | gobreaker.StateClosed => "closed"
  | gobreaker.StateHalfOpen => "half-open"
  | gobreaker.StateOpen => "open"
  end.

Section World.

(** The world of the checker, with the methods of [h.db] the handlers call:
    each gives an error or its value, and the world it leaves. *)
Context {W E : Type}.
Variable Now : W -> Z.
Variable Ping : W -> option string * W.
Variable dbGetUsers : W -> (E + option (list database.User)) * W.
Variable dbGetUser : Z -> W -> (E + option database.User) * W.
Variable dbCreateUser : string -> string -> W -> (E + option database.User) * W.
Variable dbGetStats : W -> gobreaker.Counts.
Variable dbGetState : W -> gobreaker.State.

Definition HealthCheck (c : Checker) (env : Environ) (w : W)
  : list WriterOp * W :=
  let '(response, w') := health.HealthCheck Now Ping c env w in
  let statusCode :=
    if String.eqb (RStatus response) StatusUnhealthy then StatusServiceUnavailable
    else if String.eqb (RStatus response) StatusDegraded then StatusOK
    else StatusOK in
  ([SetHeader "Content-Type" "application/json";
    WriteHeader statusCode;
    Write (BodyJSON (JHealth response))], w').

Definition ReadinessCheck (c : Checker) (env : Environ) (w : W)
  : list WriterOp * Checker * W :=
  let '(ready, c', w') := health.ReadinessCheck Now Ping c env w in
  (if ready then [WriteHeader StatusOK; Write (BodyBytes "OK")]
   else [WriteHeader StatusServiceUnavailable; Write (BodyBytes "Not Ready")],
   c', w').

Definition StartupCheck (c : Checker) : list WriterOp :=
  if health.StartupCheck c then [WriteHeader StatusOK; Write (BodyBytes "Started")]
  else [WriteHeader StatusServiceUnavailable; Write (BodyBytes "Starting")].

Definition GetUsers (env : Environ) (w : W) : list WriterOp * W :=
  match dbGetUsers w with
  | (inl _, w') =>
      if handlers.isGracefulDegradationEnabled env
      then (writeJSONResponse StatusOK
              (JUsers (Some (getFallbackUsers (Now w')))), w')
      else (writeErrorResponse StatusInternalServerError "database_error"
              "Unable to retrieve users", w')
  | (inr users, w') => (writeJSONResponse StatusOK (JUsers users), w')
  end.

(** [idStr] is the variable [id] of the route. *)
Definition GetUser (env : Environ) (idStr : string) (w : W) : list WriterOp * W :=
  match gostrconv.Atoi idStr with
  | None =>
      (writeErrorResponse StatusBadRequest "invalid_id"
         "User ID must be a valid number", w)
  | Some id =>
      match dbGetUser id w with
      | (inl _, w') =>
          let notFound :=
            writeErrorResponse StatusNotFound "user_not_found" "User not found" in
          if handlers.isGracefulDegradationEnabled env then
            match getFallbackUser (Now w') id with
            | Some fallbackUser =>
                (writeJSONResponse StatusOK (JUser (Some fallbackUser)), w')
            | None => (notFound, w')
            end
          else (notFound, w')
      | (inr user, w') => (writeJSONResponse StatusOK (JUser user), w')
      end
  end.

(** [req] is what json.Decode makes of the request body, [None] when it
    fails. *)
Definition CreateUser (env : Environ) (req : option CreateUserRequest) (w : W)
  : list WriterOp * W :=
  match req with
  | None =>
      (writeErrorResponse StatusBadRequest "invalid_json"
         "Invalid JSON in request body", w)
  | Some req =>
      if String.eqb (RName req) "" || String.eqb (REmail req) "" then
        (writeErrorResponse StatusBadRequest "missing_fields"
           "Name and email are required", w)
      else
        match dbCreateUser (RName req) (REmail req) w with
        | (inl _, w') =>
            if handlers.isGracefulDegradationEnabled env
            then (writeErrorResponse StatusServiceUnavailable "degraded_mode"
                    "Service is in degraded mode, user creation temporarily unavailable",
                  w')
            else (writeErrorResponse StatusInternalServerError "creation_failed"
                    "Failed to create user", w')
        | (inr user, w') => (writeJSONResponse StatusCreated (JUser user), w')
        end
  end.

Definition GetSystemStatus (c : Checker) (env : Environ) (w : W)
  : list WriterOp * W :=
  let '(healthResponse, w') := health.HealthCheck Now Ping c env w in
  let circuitBreakerStats := dbGetStats w' in
  let circuitBreakerState := dbGetState w' in
  (writeJSONResponse StatusOK
     (JStatus {| sysHealth := healthResponse;
                 sysState := stateString circuitBreakerState;
                 sysRequests := gobreaker.Requests circuitBreakerStats;
                 sysTotalSuccesses := gobreaker.TotalSuccesses circuitBreakerStats;
                 sysTotalFailures := gobreaker.TotalFailures circuitBreakerStats;
                 sysFeatures := handlers.getEnabledFeatures |}), w').

End World.

(** *** The middlewares, around the calls [next] makes on its writer *)

(** LoggingMiddleware: the status in the log line, which is written when
    [next] has returned; a panic of [next] passes through and nothing is
    logged. *)
Definition LoggingMiddleware (next : list WriterOp) (w : ResponseWriter)
  : ResponseWriter * option Z :=
  let '(wrapper, panicked) := run next (newWrapper w) in
  (inner wrapper, if panicked then None else Some (statusCode wrapper)).

(** MetricsMiddleware: the labels of the request counter, incremented when
    [next] has returned. *)
Definition MetricsMiddleware (method path : string) (next : list WriterOp)
    (w : ResponseWriter)
  : ResponseWriter * option (string * string * string) :=
  let '(wrapper, panicked) := run next (newWrapper w) in
  (inner wrapper,
   if panicked then None
   else Some (method, getEndpointLabel path, gostrconv.Itoa (statusCode wrapper))).


End http_handlers.

(** ** Worlds and operations for examples *)

Module examples.

Import shutdown.

(** A world for examples: the journal of what has been done to it. *)
Definition journalServer : unit -> list string -> option string * list string :=
  fun _ w => (None, w ++ ["server stopped"%string]).
Definition journalClose : list string -> option string * list string :=
  fun w => (None, w ++ ["database closed"%string]).
Definition flushHook : Hook (list string) unit :=
  fun _ w => (None, w ++ ["flushed"%string]).
Definition brokenHook : Hook (list string) unit :=
  fun _ w => (Some "disk full"%string, w ++ ["tried to save"%string]).
Definition lateHook : Hook (list string) unit :=
  fun _ w => (None, w ++ ["late"%string]).

Definition threeHooks : Manager (list string) unit :=
  AddShutdownHook (AddShutdownHook (AddShutdownHook NewManager flushHook)
                                   brokenHook) lateHook.

(** An operation that fails and leaves the world alone. *)
Definition failing : gobreaker.Operation unit unit :=
  fun w => ((tt, Some "connection refused"%string), w).

(** A clock and a database that is up or down; a ping takes a millisecond. *)
Record SimWorld := mkSimWorld {
  simClock : Z;
  simDown : bool
}.

Definition simNow (w : SimWorld) : Z := simClock w.

Definition simPing (w : SimWorld) : option string * SimWorld :=
  (if simDown w then Some "connection refused"%string else None,
   {| simClock := simClock w + 1000000; simDown := simDown w |}).

(** The checker's world when the database is the [DB] above: the breaker
    and a connection world with a clock. [c.db.Ping] goes through the
    breaker, and its error is printed into the check's message. *)
Definition gatedNow (w : database.DB * SimWorld) : Z := simClock (snd w).

Definition gatedPing (w : database.DB * SimWorld)
  : option string * (database.DB * SimWorld) :=
  let '(err, db', c') := database.Ping simPing (fst w) (simClock (snd w)) (snd w) in
  (gobreaker.errorText <$> err, (db', c')).

End examples.

(** * Theorems *)

(** ** The health checker: verdicts *)

Module health_verdicts.

Import health.
Local Open Scope string_scope.
Local Open Scope Z_scope.

Lemma eqb_Unhealthy_Degraded st :
  String.eqb st StatusUnhealthy = true -> String.eqb st StatusDegraded = false.
Proof.
  intros H. apply String.eqb_eq in H. subst st. reflexivity.
Qed.

(** What the loop of determineOverallStatus leaves in its two flags. *)
Lemma scan_flags (checks : gmap string Check) :
  (fst (map_fold scanCheck (false, false) checks) = true
     <-> someCheck StatusUnhealthy checks)
  /\ (snd (map_fold scanCheck (false, false) checks) = true
     <-> someCheck StatusDegraded checks).
Proof.
  apply (map_fold_weak_ind
           (fun acc m => (fst acc = true <-> someCheck StatusUnhealthy m)
                         /\ (snd acc = true <-> someCheck StatusDegraded m))).
  - split; (split; [discriminate |]); intros (k & c & Hk & _);
      rewrite lookup_empty in Hk; discriminate.
  - intros i x m [u d] Hi [IHu IHd]. simpl in IHu, IHd.
    assert (Hins : forall st, someCheck st (<[i:=x]> m)
                              <-> CStatus x = st \/ someCheck st m).
    { intros st. split.
      - intros (k & c & Hk & Hc).
        destruct (decide (i = k)) as [->|Hne].
        + rewrite lookup_insert_eq in Hk. left. congruence.
        + rewrite lookup_insert_ne in Hk by done. right. by exists k, c.
      - intros [Hx | (k & c & Hk & Hc)].
        + exists i, x. by rewrite lookup_insert_eq.
        + exists k, c. split; [|done].
          rewrite lookup_insert_ne; [done | congruence]. }
    unfold scanCheck.
    destruct (String.eqb (CStatus x) StatusUnhealthy) eqn:EU.
    + pose proof (eqb_Unhealthy_Degraded _ EU) as ED.
      apply String.eqb_eq in EU. apply String.eqb_neq in ED.
      simpl. rewrite !Hins. split; [tauto |]. rewrite IHd. tauto.
    + apply String.eqb_neq in EU.
      destruct (String.eqb (CStatus x) StatusDegraded) eqn:ED.
      * apply String.eqb_eq in ED. simpl. rewrite !Hins, IHu. tauto.
      * apply String.eqb_neq in ED. simpl. rewrite !Hins, IHu, IHd. tauto.
Qed.

(** C2. For every map of check results, the overall status that
    determineOverallStatus computes is Unhealthy exactly when some check is
    Unhealthy and graceful degradation is disabled; otherwise it is
    Degraded when some check is Unhealthy or Degraded; otherwise it is
    Healthy. *)
Theorem determineOverallStatus_precedence (env : Environ) (checks : gmap string Check) :
  let unhealthyAndDisabled :=
    someCheck StatusUnhealthy checks /\ isGracefulDegradationEnabled env = false in
  let unhealthyOrDegraded :=
    someCheck StatusUnhealthy checks \/ someCheck StatusDegraded checks in
  (determineOverallStatus env checks = StatusUnhealthy <-> unhealthyAndDisabled)
  /\ (~ unhealthyAndDisabled -> unhealthyOrDegraded ->
      determineOverallStatus env checks = StatusDegraded)
  /\ (~ unhealthyAndDisabled -> ~ unhealthyOrDegraded ->
      determineOverallStatus env checks = StatusHealthy).
Proof.
  intros UD UoD. subst UD UoD. unfold determineOverallStatus.
  destruct (scan_flags checks) as [HU HD].
  destruct (map_fold scanCheck (false, false) checks) as [u d].
  simpl in HU, HD.
  destruct (isGracefulDegradationEnabled env); destruct u, d; simpl;
    repeat split; try discriminate; try tauto; intros;
    try (exfalso; intuition congruence).
Qed.

Section World.

Context {W : Type}.
Variable Now : W -> Z.
Variable Ping : W -> option string * W.

(** The database check reports Unhealthy exactly when the ping fails, and
    leaves the world the ping leaves. *)
Lemma checkDatabase_status (w : W) :
  snd (checkDatabase Now Ping w) = snd (Ping w)
  /\ (CStatus (fst (checkDatabase Now Ping w)) = StatusUnhealthy
      <-> fst (Ping w) <> None)
  /\ (CStatus (fst (checkDatabase Now Ping w)) = StatusHealthy
      <-> fst (Ping w) = None).
Proof.
  unfold checkDatabase. destruct (Ping w) as [[e|] w']; simpl;
    repeat split; try discriminate; try congruence; intros; try done.
Qed.

(** C1. ReadinessCheck returns false whenever startup is incomplete (and
    then does not touch the database); otherwise it runs the database
    check and, if the check reports Unhealthy, returns true when graceful
    degradation is enabled and false when it is disabled; if the check is
    not Unhealthy it returns true. *)
Theorem ReadinessCheck_verdict (c : Checker) (env : Environ) (w : W) :
  let dbCheck := fst (checkDatabase Now Ping w) in
  let verdict := fst (fst (ReadinessCheck Now Ping c env w)) in
  let after := snd (ReadinessCheck Now Ping c env w) in
  (startup c = false -> verdict = false /\ after = w)
  /\ (startup c = true ->
      after = snd (checkDatabase Now Ping w)
      /\ (CStatus dbCheck = StatusUnhealthy ->
          isGracefulDegradationEnabled env = true -> verdict = true)
      /\ (CStatus dbCheck = StatusUnhealthy ->
          isGracefulDegradationEnabled env = false -> verdict = false)
      /\ (CStatus dbCheck <> StatusUnhealthy -> verdict = true)).
Proof.
  intros dbCheck verdict after. subst dbCheck verdict after.
  unfold ReadinessCheck.
  destruct (startup c); simpl.
  - split; [discriminate |]. intros _.
    destruct (checkDatabase Now Ping w) as [dbCheck w']. simpl.
    destruct (String.eqb (CStatus dbCheck) StatusUnhealthy) eqn:E.
    + apply String.eqb_eq in E.
      destruct (isGracefulDegradationEnabled env); simpl;
        repeat split; congruence.
    + apply String.eqb_neq in E. simpl. repeat split; congruence.
  - split; [auto | discriminate].
Qed.

End World.

End health_verdicts.

(** ** Feature flags of the handlers and of the checker *)

Module feature_flags.

Local Open Scope string_scope.

Lemma checker_flag_reads_FEATURE_FLAGS (env env' : Environ) :
  env !! "FEATURE_FLAGS" = env' !! "FEATURE_FLAGS" ->
  health.isGracefulDegradationEnabled env = health.isGracefulDegradationEnabled env'.
Proof.
  intros H. unfold health.isGracefulDegradationEnabled, health.getEnabledFeatures,
    getEnvOrDefault, Getenv. by rewrite H.
Qed.

(** C9. The handlers' degradation flag is constantly true, whatever the
    environment; the checker's flag is computed from FEATURE_FLAGS alone and
    takes both values; so there is an environment in which the two
    components disagree. *)
Theorem handler_flag_constant_checker_flag_from_env :
  (forall env : Environ, handlers.isGracefulDegradationEnabled env = true)
  /\ (forall env env' : Environ,
         env !! "FEATURE_FLAGS" = env' !! "FEATURE_FLAGS" ->
         health.isGracefulDegradationEnabled env
         = health.isGracefulDegradationEnabled env')
  /\ health.isGracefulDegradationEnabled ∅ = true
  /\ health.isGracefulDegradationEnabled
       (<["FEATURE_FLAGS" := "circuit_breaker,metrics"]> ∅) = false
  /\ (exists env : Environ,
         handlers.isGracefulDegradationEnabled env
         <> health.isGracefulDegradationEnabled env).
Proof.
  split; [reflexivity |].
  split; [exact checker_flag_reads_FEATURE_FLAGS |].
  split; [vm_compute; reflexivity |].
  split; [vm_compute; reflexivity |].
  exists (<["FEATURE_FLAGS" := "circuit_breaker,metrics"]> ∅).
  vm_compute. discriminate.
Qed.

End feature_flags.

(** ** The health checker over time: the startup and ready flags *)

Module health_flags.

Import health.
Local Open Scope string_scope.
Local Open Scope Z_scope.

Section World.

Context {W : Type}.
Variable Now : W -> Z.
Variable Ping : W -> option string * W.

Local Abbreviation exec := (exec Now Ping).
Local Abbreviation run := (run Now Ping).
Local Abbreviation startupAfterDelay := (startupAfterDelay Now).

Lemma HealthCheck_world (c : Checker) (env : Environ) (w : W) :
  snd (HealthCheck Now Ping c env w) = snd (Ping w).
Proof.
  unfold HealthCheck, checkDatabase.
  destruct (Ping w) as [[e|] w']; reflexivity.
Qed.

(** The three ways ReadinessCheck can go. *)
Lemma ReadinessCheck_cases (c : Checker) (env : Environ) (w : W) :
  (startup c = false /\ ReadinessCheck Now Ping c env w = (false, c, w))
  \/ (startup c = true /\ fst (Ping w) <> None
      /\ ReadinessCheck Now Ping c env w
         = (isGracefulDegradationEnabled env, c, snd (Ping w)))
  \/ (startup c = true /\ fst (Ping w) = None
      /\ ReadinessCheck Now Ping c env w
         = (true,
            {| startTime := startTime c; ready := true; startup := startup c |},
            snd (Ping w))).
Proof.
  unfold ReadinessCheck, checkDatabase.
  destruct (startup c); simpl; [| left; done].
  right. destruct (Ping w) as [[e|] w']; simpl.
  - left. repeat split; [done |].
    by destruct (isGracefulDegradationEnabled env).
  - right. done.
Qed.

Lemma exec_startTime s e o s' :
  exec s e = Some (o, s') -> startTime (chk s') = startTime (chk s).
Proof.
  destruct e; simpl; intros H.
  - destruct (Now (world s) <=? Now w'); inversion H; reflexivity.
  - destruct (timerPending s && _); inversion H; reflexivity.
  - destruct (HealthCheck Now Ping (chk s) env (world s)); inversion H; reflexivity.
  - destruct (ReadinessCheck_cases (chk s) env (world s))
      as [[_ E] | [(_ & _ & E) | (_ & _ & E)]];
      rewrite E in H; inversion H; reflexivity.
  - inversion H; reflexivity.
  - inversion H; reflexivity.
Qed.

Lemma exec_startup_stays s e o s' :
  exec s e = Some (o, s') -> startup (chk s) = true -> startup (chk s') = true.
Proof.
  destruct e; simpl; intros H Hs.
  - destruct (Now (world s) <=? Now w'); inversion H; done.
  - destruct (timerPending s && _); inversion H; reflexivity.
  - destruct (HealthCheck Now Ping (chk s) env (world s)); inversion H; done.
  - destruct (ReadinessCheck_cases (chk s) env (world s))
      as [[_ E] | [(_ & _ & E) | (_ & _ & E)]];
      rewrite E in H; inversion H; done.
  - inversion H; subst; done.
  - inversion H; subst; done.
Qed.

Lemma exec_ready_stays s e o s' :
  exec s e = Some (o, s') -> ready (chk s) = true -> ready (chk s') = true.
Proof.
  destruct e; simpl; intros H Hs.
  - destruct (Now (world s) <=? Now w'); inversion H; done.
  - destruct (timerPending s && _); inversion H; done.
  - destruct (HealthCheck Now Ping (chk s) env (world s)); inversion H; done.
  - destruct (ReadinessCheck_cases (chk s) env (world s))
      as [[_ E] | [(_ & _ & E) | (_ & _ & E)]];
      rewrite E in H; inversion H; done.
  - inversion H; subst; done.
  - inversion H; subst; done.
Qed.

Lemma run_preserves (P : System -> Prop) :
  (forall s e o s', exec s e = Some (o, s') -> P s -> P s') ->
  forall es s os s', run s es = Some (os, s') -> P s -> P s'.
Proof.
  intros Hstep. induction es as [|e es IH]; simpl; intros s os s' H HP.
  - inversion H; subst; done.
  - destruct (exec s e) as [[o s1]|] eqn:E; [| discriminate].
    destruct (run s1 es) as [[os1 s2]|] eqn:R; [| discriminate].
    inversion H; subst. eapply IH; [exact R |]. eapply Hstep; eauto.
Qed.

(** C10. The ready flag is raised only by a ReadinessCheck that goes
    through the database-not-Unhealthy path (startup complete, ping
    without error), no event ever lowers it, and the degradation path
    leaves it as it was; hence once it is raised IsReady returns true
    after every later run of events, also right after a ReadinessCheck
    that fails because the database is Unhealthy and degradation is
    disabled. And a ReadinessCheck on that path does raise it: with startup
    complete and a ping without error it returns true and leaves a checker
    whose IsReady is true, whatever the flag was before; so after one such
    ReadinessCheck IsReady returns true after every run of events that
    follows. *)
Theorem ready_flag_one_sided :
  (forall s e o s',
      exec s e = Some (o, s') ->
      ready (chk s) = false -> ready (chk s') = true ->
      exists env, e = EvReadinessCheck env /\ o = OutBool true
                  /\ startup (chk s) = true /\ fst (Ping (world s)) = None
                  /\ CStatus (fst (checkDatabase Now Ping (world s)))
                     <> StatusUnhealthy)
  /\ (forall s e o s',
         exec s e = Some (o, s') -> ready (chk s) = true -> ready (chk s') = true)
  /\ (forall s env,
         startup (chk s) = true -> fst (Ping (world s)) <> None ->
         exists s',
           exec s (EvReadinessCheck env)
           = Some (OutBool (isGracefulDegradationEnabled env), s')
           /\ ready (chk s') = ready (chk s))
  /\ (forall s es os s',
         ready (chk s) = true -> run s es = Some (os, s') ->
         IsReady (chk s') = true)
  /\ (forall s env,
         ready (chk s) = true -> startup (chk s) = true ->
         fst (Ping (world s)) <> None ->
         isGracefulDegradationEnabled env = false ->
         exists s',
           exec s (EvReadinessCheck env) = Some (OutBool false, s')
           /\ IsReady (chk s') = true)
  /\ (forall c env w,
         startup c = true -> fst (Ping w) = None ->
         fst (fst (ReadinessCheck Now Ping c env w)) = true
         /\ IsReady (snd (fst (ReadinessCheck Now Ping c env w))) = true)
  /\ (forall s env,
         startup (chk s) = true -> fst (Ping (world s)) = None ->
         exists s',
           exec s (EvReadinessCheck env) = Some (OutBool true, s')
           /\ IsReady (chk s') = true
           /\ forall es os s'',
               run s' es = Some (os, s'') -> IsReady (chk s'') = true).
Proof.
  split; [| split; [| split; [| split; [| split; [| split]]]]].
  - intros s e o s' H Hf Ht.
    destruct e; simpl in H.
    + destruct (Now (world s) <=? Now w'); inversion H; subst; simpl in Ht; congruence.
    + destruct (timerPending s && _); inversion H; subst; simpl in Ht; congruence.
    + destruct (HealthCheck Now Ping (chk s) env (world s));
        inversion H; subst; simpl in Ht; congruence.
    + exists env.
      destruct (ReadinessCheck_cases (chk s) env (world s))
        as [[_ E] | [(_ & _ & E) | (Hs & Hp & E)]];
        rewrite E in H; inversion H; subst; simpl in Ht; try congruence.
      repeat split; try done.
      destruct (health_verdicts.checkDatabase_status Now Ping (world s))
        as (_ & Hu & _).
      rewrite Hu, Hp. tauto.
    + inversion H; subst; congruence.
    + inversion H; subst; congruence.
  - exact exec_ready_stays.
  - intros s env Hs Hp. simpl.
    destruct (ReadinessCheck_cases (chk s) env (world s))
      as [[C _] | [(_ & _ & E) | (_ & C & _)]]; try congruence.
    rewrite E. eexists. split; reflexivity.
  - intros s es os s' Hr H. unfold IsReady.
    eapply (run_preserves (fun s => ready (chk s) = true)); eauto.
    intros; eapply exec_ready_stays; eauto.
  - intros s env Hr Hs Hp Hd. simpl.
    destruct (ReadinessCheck_cases (chk s) env (world s))
      as [[C _] | [(_ & _ & E) | (_ & C & _)]]; try congruence.
    rewrite E, Hd. eexists. split; [reflexivity | exact Hr].
  - intros c env w Hs Hp.
    destruct (ReadinessCheck_cases c env w)
      as [[C _] | [(_ & C & _) | (_ & _ & E)]]; try congruence.
    rewrite E. split; reflexivity.
  - intros s env Hs Hp. simpl.
    destruct (ReadinessCheck_cases (chk s) env (world s))
      as [[C _] | [(_ & C & _) | (_ & _ & E)]]; try congruence.
    rewrite E. eexists. split; [reflexivity |]. split; [reflexivity |].
    intros es os s'' Hrun. unfold IsReady.
    eapply (run_preserves (fun s => ready (chk s) = true)); eauto.
    intros; eapply exec_ready_stays; eauto.
Qed.

(** The clock does not run backwards while a ping is under way. *)
Hypothesis Ping_clock : forall w, Now w <= Now (snd (Ping w)).

Lemma exec_clock s e o s' :
  exec s e = Some (o, s') -> Now (world s) <= Now (world s').
Proof.
  destruct e; simpl; intros H.
  - destruct (Now (world s) <=? Now w') eqn:E; inversion H; subst; simpl. lia.
  - destruct (timerPending s && _); inversion H; subst; simpl. lia.
  - pose proof (HealthCheck_world (chk s) env (world s)) as Hw.
    destruct (HealthCheck Now Ping (chk s) env (world s)) as [r w1].
    inversion H; subst; simpl in *. subst w1. apply Ping_clock.
  - destruct (ReadinessCheck_cases (chk s) env (world s))
      as [[_ E] | [(_ & _ & E) | (_ & _ & E)]];
      rewrite E in H; inversion H; subst; simpl; first lia; apply Ping_clock.
  - inversion H; subst; lia.
  - inversion H; subst; lia.
Qed.

Lemma exec_startupAfterDelay s e o s' :
  exec s e = Some (o, s') -> startupAfterDelay s -> startupAfterDelay s'.
Proof.
  intros H Inv Hs'. unfold health.startupAfterDelay in Inv.
  pose proof (exec_clock _ _ _ _ H) as Hc.
  pose proof (exec_startTime _ _ _ _ H) as Ht. rewrite Ht.
  destruct (startup (chk s)) eqn:Hs; [specialize (Inv eq_refl); lia |].
  destruct e; simpl in H.
  - destruct (Now (world s) <=? Now w'); inversion H; subst; simpl in *; congruence.
  - destruct (timerPending s) ; simpl in H; [| discriminate].
    destruct (startTime (chk s) + startupDelay <=? Now (world s)) eqn:E;
      inversion H; subst; simpl in *. lia.
  - destruct (HealthCheck Now Ping (chk s) env (world s));
      inversion H; subst; simpl in *; congruence.
  - destruct (ReadinessCheck_cases (chk s) env (world s))
      as [[_ E] | [(C & _ & _) | (C & _ & _)]]; try congruence.
    rewrite E in H; inversion H; subst; simpl in *; congruence.
  - inversion H; subst; congruence.
  - inversion H; subst; congruence.
Qed.

(** C8. StartupCheck is monotonic. In every state a run of events reaches
    from a new checker: a call made before the startup delay has elapsed
    since construction returns false; and if the flag is set (a call returns
    true), then after every further run of events a call returns true, never
    false again. *)
Theorem StartupCheck_monotonic (w0 : W) (es : list Event) (os : list Output)
    (s : System) :
  run (newSystem Now w0) es = Some (os, s) ->
  (Now (world s) < Now w0 + startupDelay -> StartupCheck (chk s) = false)
  /\ (StartupCheck (chk s) = true ->
      forall es' os' s', run s es' = Some (os', s') -> StartupCheck (chk s') = true).
Proof.
  intros Hrun. split.
  - intros Hearly.
    assert (Hinv : startTime (chk s) = Now w0 /\ startupAfterDelay s).
    { eapply (run_preserves
                (fun s => startTime (chk s) = Now w0 /\ startupAfterDelay s));
        [| exact Hrun |].
      - intros s1 e o s2 H [Ht Hi]. split.
        + rewrite (exec_startTime _ _ _ _ H). exact Ht.
        + eapply exec_startupAfterDelay; eauto.
      - split; [reflexivity |]. intros C. discriminate C. }
    destruct Hinv as [Ht Hi]. unfold StartupCheck.
    destruct (startup (chk s)) eqn:E; [| reflexivity].
    specialize (Hi E). lia.
  - unfold StartupCheck. intros Hset es' os' s' Hrun'.
    eapply (run_preserves (fun s => startup (chk s) = true)); eauto.
    intros; eapply exec_startup_stays; eauto.
Qed.

End World.

Lemma StartupCheck_monotonic_witness :
  let w0 := {| examples.simClock := 0; examples.simDown := false |} in
  let es := [EvStartupCheck;
             EvWorld {| examples.simClock := 6 * second; examples.simDown := true |};
             EvStartupTimer;
             EvStartupCheck;
             EvReadinessCheck ∅] in
  exists os s,
    run examples.simNow examples.simPing (newSystem examples.simNow w0) es
    = Some (os, s)
    /\ os = [OutBool false; OutNone; OutNone; OutBool true; OutBool true]
    /\ (examples.simNow (world s) < examples.simNow w0 + startupDelay ->
        StartupCheck (chk s) = false)
    /\ (StartupCheck (chk s) = true ->
        forall es' os' s',
          run examples.simNow examples.simPing s es' = Some (os', s') ->
          StartupCheck (chk s') = true).
Proof.
  intros w0 es. eexists _, _.
  split; [vm_compute; reflexivity |].
  split; [reflexivity |].
  eapply (StartupCheck_monotonic examples.simNow examples.simPing
           (fun w => ltac:(unfold examples.simNow, examples.simPing; simpl; lia))
           w0 es).
  vm_compute. reflexivity.
Defined.

End health_flags.

(** ** The circuit breaker *)

Module breaker_theory.

Import gobreaker examples.
Local Open Scope Z_scope.

Section Execute.

Context {W V : Type}.

(** One call on an open breaker whose timeout has not elapsed. *)
Lemma Execute_open_early (cb : CircuitBreaker) (now : Z) (op : Operation W V) (w : W) :
  state cb = StateOpen ->
  now - openedAt cb < Timeout (settings cb) ->
  Execute cb now op w = (reject ErrCircuitOpen [], cb, w).
Proof.
  intros Hst Ht. unfold Execute. rewrite Hst.
  apply Z.ltb_lt in Ht. rewrite Ht. reflexivity.
Qed.

Lemma executeAll_failsFast (cb : CircuitBreaker) (w : W)
    (calls : list (Z * Operation W V)) :
  Forall failsFast (executeAll cb w calls).
Proof.
  revert cb w. induction calls as [|[now op] rest IH]; intros cb w; simpl.
  - constructor.
  - destruct (Execute cb now op w) as [[o cb'] w'] eqn:E.
    constructor; [| apply IH].
    unfold gobreaker.failsFast; simpl. intros Hst Ht.
    rewrite (Execute_open_early cb now op w Hst Ht) in E.
    inversion E; subst. simpl. repeat split; reflexivity.
Qed.

(** The counts after two failures in a row trip the configured predicate;
    those after one do not. *)
Lemma ReadyToTrip_two_failures :
  database.ReadyToTrip (onFailure noCounts) = false
  /\ database.ReadyToTrip (onFailure (onFailure noCounts)) = true.
Proof. split; vm_compute; reflexivity. Qed.

(** C4, amended. With the configured trip predicate, a Closed breaker whose
    counts are empty and that receives two calls within the rolling interval
    the counts belong to, both of which fail, stays Closed after the first
    and goes from Closed to Open upon the second failure. *)
Theorem two_failures_in_interval_trip (cb : CircuitBreaker) (t1 t2 : Z)
    (op1 op2 : Operation W V) (w : W) (e1 e2 : string) :
  ReadyToTrip (settings cb) = database.ReadyToTrip ->
  state cb = StateClosed ->
  counts cb = noCounts ->
  t1 - countsSince cb < Interval (settings cb) ->
  t2 - countsSince cb < Interval (settings cb) ->
  snd (fst (op1 w)) = Some e1 ->
  snd (fst (op2 (snd (op1 w)))) = Some e2 ->
  let '(o1, cb1, w1) := Execute cb t1 op1 w in
  let '(o2, cb2, w2) := Execute cb1 t2 op2 w1 in
  (invoked o1 = true /\ error o1 = Some (OpErr e1) /\ state cb1 = StateClosed)
  /\ (invoked o2 = true /\ error o2 = Some (OpErr e2)
      /\ state cb2 = StateOpen /\ openedAt cb2 = t2
      /\ notified o2 = [(StateClosed, StateOpen)]).
Proof.
  intros Htrip Hst Hc Ht1 Ht2 H1 H2.
  destruct ReadyToTrip_two_failures as [R1 R2].
  apply Z.leb_gt in Ht1. apply Z.leb_gt in Ht2.
  assert (E1 : Execute cb t1 op1 w
               = (passed (fst (op1 w)) [], withCounts cb (onFailure noCounts),
                  snd (op1 w))).
  { unfold Execute. rewrite Hst, Ht1. unfold executeClosed.
    destruct (op1 w) as [r1 w1]. simpl in H1 |- *.
    rewrite H1, Htrip, Hc, R1. reflexivity. }
  rewrite E1.
  assert (E2 : Execute (withCounts cb (onFailure noCounts)) t2 op2 (snd (op1 w))
               = (passed (fst (op2 (snd (op1 w)))) [(StateClosed, StateOpen)],
                  setState (withCounts cb (onFailure noCounts)) StateOpen t2,
                  snd (op2 (snd (op1 w))))).
  { unfold Execute. simpl. rewrite Hst, Ht2. unfold executeClosed.
    destruct (op2 (snd (op1 w))) as [r2 w2]. simpl in H2 |- *.
    rewrite H2, Htrip, R2. reflexivity. }
  rewrite E2. simpl. rewrite H1, H2, Hst. simpl.
  repeat split; reflexivity.
Qed.

End Execute.

(** C3. For every sequence of Execute calls on the breaker, from every
    breaker and world: each call made while the breaker is Open and less than
    the open timeout has elapsed since it opened does not invoke the wrapped
    operation and fails with the circuit-open error, leaving breaker and
    world as they were. So it is for DB.Ping, which then returns the
    circuit-open error without pinging the connection. *)
Theorem open_breaker_fails_fast :
  (forall (W V : Type) (cb : CircuitBreaker) (w : W)
          (calls : list (Z * Operation W V)),
      Forall failsFast (executeAll cb w calls))
  /\ (forall (W : Type) (PingContext : W -> option string * W)
             (db : database.DB) (now : Z) (w : W),
         state (database.circuitBreaker db) = StateOpen ->
         now - openedAt (database.circuitBreaker db)
         < Timeout (settings (database.circuitBreaker db)) ->
         database.Ping PingContext db now w
         = (Some (GateErr ErrCircuitOpen), db, w)).
Proof.
  split.
  - intros W V cb w calls. apply executeAll_failsFast.
  - intros W PingContext db now w Hst Ht. unfold database.Ping.
    rewrite (Execute_open_early _ now _ w Hst Ht). simpl.
    destruct db; reflexivity.
Qed.

Lemma two_failures_in_interval_trip_witness :
  let cb := NewCircuitBreaker database.cbSettings 0 in
  let '(o1, cb1, w1) := Execute cb 1 failing tt in
  let '(o2, cb2, w2) := Execute cb1 2 failing w1 in
  (invoked o1 = true /\ error o1 = Some (OpErr "connection refused")
   /\ state cb1 = StateClosed)
  /\ (invoked o2 = true /\ error o2 = Some (OpErr "connection refused")
      /\ state cb2 = StateOpen /\ openedAt cb2 = 2
      /\ notified o2 = [(StateClosed, StateOpen)]).
Proof.
  apply (two_failures_in_interval_trip
           (NewCircuitBreaker database.cbSettings 0) 1 2 failing failing tt
           "connection refused" "connection refused");
    solve [reflexivity | vm_compute; reflexivity].
Defined.

(** C4 as stated fails: the breaker of NewConnection, new at time 0, receives
    exactly two calls, both failing, one at once and one 31 seconds later;
    the rolling interval of 30 seconds has reset the counts in between, and
    the breaker is still Closed after the second failure. *)
Lemma two_failures_apart_stay_closed :
  let cb := NewCircuitBreaker database.cbSettings 0 in
  let '(o1, cb1, w1) := Execute cb 0 failing tt in
  let '(o2, cb2, w2) := Execute cb1 (31 * second) failing w1 in
  error o1 = Some (OpErr "connection refused")
  /\ error o2 = Some (OpErr "connection refused")
  /\ state cb1 = StateClosed
  /\ state cb2 = StateClosed
  /\ state cb2 <> StateOpen.
Proof. vm_compute. repeat split; discriminate. Qed.

End breaker_theory.

(** ** The shutdown manager: one caller *)

Module shutdown_theory.

Import shutdown examples.

Section World.

Context {W Ctx : Type}.
Variable serverShutdown : Ctx -> W -> option string * W.
Variable dbClose : W -> option string * W.

Local Abbreviation teardown := (teardown serverShutdown dbClose).
Local Abbreviation Shutdown := (Shutdown serverShutdown dbClose).

Lemma runHooks_all (ctx : Ctx) (fns : list (Hook W Ctx)) :
  forall (n : nat) (w w' : W),
    succeedAll ctx fns w = Some w' ->
    runHooks ctx n fns w = (None, map StepHook (seq n (length fns)), w').
Proof.
  induction fns as [|fn rest IH]; simpl; intros n w w' H.
  - inversion H; reflexivity.
  - destruct (fn ctx w) as [[e|] w1]; [discriminate |].
    rewrite (IH (S n) w1 w' H). reflexivity.
Qed.

Lemma runHooks_abort (ctx : Ctx) (pre : list (Hook W Ctx)) (h : Hook W Ctx)
    (post : list (Hook W Ctx)) (e : string) :
  forall (n : nat) (w w2 w3 : W),
    succeedAll ctx pre w = Some w2 ->
    h ctx w2 = (Some e, w3) ->
    runHooks ctx n (pre ++ h :: post) w
    = (Some (ErrHook (n + length pre) e),
       map StepHook (seq n (S (length pre))), w3).
Proof.
  induction pre as [|fn rest IH]; simpl; intros n w w2 w3 H Hh.
  - inversion H; subst. rewrite Hh. rewrite Nat.add_0_r. reflexivity.
  - destruct (fn ctx w) as [[e'|] w1]; [discriminate |].
    rewrite (IH (S n) w1 w2 w3 H Hh).
    replace (S n + length rest)%nat with (n + S (length rest))%nat by lia.
    reflexivity.
Qed.

(** Either all the hooks succeed, or there is a first one that fails. *)
Lemma hooks_succeed_or_first_fails (ctx : Ctx) (fns : list (Hook W Ctx)) :
  forall w : W,
    (exists w', succeedAll ctx fns w = Some w')
    \/ (exists pre h post w2 e w3,
           fns = pre ++ h :: post
           /\ succeedAll ctx pre w = Some w2
           /\ h ctx w2 = (Some e, w3)).
Proof.
  induction fns as [|fn rest IH]; simpl; intros w.
  - left. eauto.
  - destruct (fn ctx w) as [[e|] w1] eqn:E.
    + right. exists [], fn, rest, w, e, w1. auto.
    + destruct (IH w1) as [[w' H] | (pre & h & post & w2 & e & w3 & -> & Hs & Hh)].
      * left. eauto.
      * right. exists (fn :: pre), h, post, w2, e, w3. simpl. rewrite E. auto.
Qed.

Lemma StepHook_seq_inv (n a len : nat) :
  StepHook n ∈ map StepHook (seq a len) -> (a <= n < a + len)%nat.
Proof.
  intros H. apply list_elem_of_fmap in H as (k & Hk & Hin).
  inversion Hk; subst. apply list_elem_of_In, in_seq in Hin. exact Hin.
Qed.

(** A hook that fails after [pre] keeps the whole list from succeeding. *)
Lemma succeedAll_first_failure (ctx : Ctx) (pre : list (Hook W Ctx))
    (h : Hook W Ctx) (post : list (Hook W Ctx)) (e : string) :
  forall w w2 w3 : W,
    succeedAll ctx pre w = Some w2 ->
    h ctx w2 = (Some e, w3) ->
    succeedAll ctx (pre ++ h :: post) w = None.
Proof.
  induction pre as [|fn rest IH]; simpl; intros w w2 w3 H Hh.
  - inversion H; subst. rewrite Hh. reflexivity.
  - destruct (fn ctx w) as [[e'|] w1]; [discriminate |]. eauto.
Qed.

Lemma Shutdown_all_hooks_succeed (m : Manager W Ctx) (ctx : Ctx)
    (sel : SelectCase) (w w1 w2 : W) :
  isShutdown m = false ->
  serverShutdown ctx w = (None, w1) ->
  succeedAll ctx (shutdownFn m) w1 = Some w2 ->
  Shutdown m ctx sel w
  = (selected sel (ErrDatabase <$> fst (dbClose w2)),
     {| shutdownFn := shutdownFn m; isShutdown := true |},
     StepServer :: map StepHook (seq 1 (length (shutdownFn m)))
       ++ StepDatabase :: match fst (dbClose w2) with
                          | None => [StepCleanup]
                          | Some _ => []
                          end,
     snd (dbClose w2)).
Proof.
  intros Hf Hsrv Hall.
  unfold shutdown.Shutdown, shutdown.teardown. rewrite Hf. simpl.
  rewrite Hsrv, (runHooks_all ctx _ 1 w1 w2 Hall).
  destruct (dbClose w2) as [[e|] w3]; reflexivity.
Qed.

Lemma Shutdown_hook_fails (m : Manager W Ctx) (ctx : Ctx)
    (sel : SelectCase) (w w1 w2 w3 : W)
    (pre : list (Hook W Ctx)) (h : Hook W Ctx) (post : list (Hook W Ctx))
    (e : string) :
  isShutdown m = false ->
  serverShutdown ctx w = (None, w1) ->
  shutdownFn m = pre ++ h :: post ->
  succeedAll ctx pre w1 = Some w2 ->
  h ctx w2 = (Some e, w3) ->
  Shutdown m ctx sel w
  = (selected sel (Some (ErrHook (S (length pre)) e)),
     {| shutdownFn := shutdownFn m; isShutdown := true |},
     StepServer :: map StepHook (seq 1 (S (length pre))),
     w3).
Proof.
  intros Hf Hsrv Hfn Hpre Hh.
  unfold shutdown.Shutdown, shutdown.teardown. rewrite Hf. simpl.
  rewrite Hsrv, Hfn, (runHooks_abort ctx pre h post e 1 w1 w2 w3 Hpre Hh).
  reflexivity.
Qed.

Lemma Shutdown_server_fails (m : Manager W Ctx) (ctx : Ctx)
    (sel : SelectCase) (w w1 : W) (e : string) :
  isShutdown m = false ->
  serverShutdown ctx w = (Some e, w1) ->
  Shutdown m ctx sel w
  = (selected sel (Some (ErrServer e)),
     {| shutdownFn := shutdownFn m; isShutdown := true |}, [StepServer], w1).
Proof.
  intros Hf Hsrv.
  unfold shutdown.Shutdown, shutdown.teardown. rewrite Hf. simpl.
  rewrite Hsrv. reflexivity.
Qed.

(** C6, amended. For every sequence of registered hooks, Shutdown runs the
    hooks only after the HTTP server has stopped (none when stopping it
    fails) and in registration order: all of them, followed by the closing
    of the database, when none fails; and when the hooks before some hook
    have succeeded and that hook returns an error, the hooks up to it and
    nothing more: no later hook runs, the database handle is not closed, and
    Shutdown returns a non-nil error, which names the failing hook and
    carries its error when the select receives the goroutine's result, and
    is the context's error when the context is done first. *)
Theorem Shutdown_hooks_in_order_until_failure (m : Manager W Ctx) (ctx : Ctx)
    (sel : SelectCase) (w : W) :
  isShutdown m = false ->
  let '(err, m', steps, w') := Shutdown m ctx sel w in
  (forall e w1,
      serverShutdown ctx w = (Some e, w1) ->
      steps = [StepServer] /\ w' = w1)
  /\ (forall w1 w2,
         serverShutdown ctx w = (None, w1) ->
         succeedAll ctx (shutdownFn m) w1 = Some w2 ->
         steps = StepServer :: map StepHook (seq 1 (length (shutdownFn m)))
                   ++ StepDatabase :: match fst (dbClose w2) with
                                      | None => [StepCleanup]
                                      | Some _ => []
                                      end)
  /\ (forall w1 pre h post w2 w3 e,
         serverShutdown ctx w = (None, w1) ->
         shutdownFn m = pre ++ h :: post ->
         succeedAll ctx pre w1 = Some w2 ->
         h ctx w2 = (Some e, w3) ->
         steps = StepServer :: map StepHook (seq 1 (S (length pre)))
         /\ w' = w3
         /\ (forall n, (S (length pre) < n)%nat -> StepHook n ∉ steps)
         /\ (StepDatabase ∉ steps)
         /\ err = Some match sel with
                       | CaseDone => ErrHook (S (length pre)) e
                       | CaseCtxDone ce => ErrContext ce
                       end).
Proof.
  intros Hf.
  destruct (Shutdown m ctx sel w) as [[[err m'] steps] w'] eqn:E.
  split; [| split].
  - intros e w1 Hsrv.
    rewrite (Shutdown_server_fails m ctx sel w w1 e Hf Hsrv) in E.
    inversion E; split; reflexivity.
  - intros w1 w2 Hsrv Hall.
    rewrite (Shutdown_all_hooks_succeed m ctx sel w w1 w2 Hf Hsrv Hall) in E.
    inversion E; reflexivity.
  - intros w1 pre h post w2 w3 e Hsrv Hfn Hpre Hh.
    rewrite (Shutdown_hook_fails m ctx sel w w1 w2 w3 pre h post e
               Hf Hsrv Hfn Hpre Hh) in E.
    inversion E; subst; clear E.
    split; [reflexivity |]. split; [reflexivity |].
    split; [| split].
    + intros n Hn Hin. apply elem_of_cons in Hin as [Hin | Hin]; [discriminate |].
      change (StepHook n ∈ map StepHook (seq 1 (S (length pre)))) in Hin.
      apply StepHook_seq_inv in Hin. lia.
    + intros Hin. apply elem_of_cons in Hin as [Hin | Hin]; [discriminate |].
      change (StepDatabase ∈ map StepHook (seq 1 (S (length pre)))) in Hin.
      apply list_elem_of_fmap in Hin as (k & Hk & _). discriminate.
    + destruct sel; reflexivity.
Qed.

(** C7, amended. AddShutdownHook takes effect whenever it is called: it
    appends the hook to the list and leaves the flag alone, also once
    shutdown has begun, and has no error to return. What is fixed once
    shutdown has begun is that a later call of Shutdown runs nothing: a hook
    appended then is not run by any later Shutdown. *)
Theorem AddShutdownHook_always_appends (m : Manager W Ctx) (fn : Hook W Ctx) :
  shutdownFn (AddShutdownHook m fn) = shutdownFn m ++ [fn]
  /\ isShutdown (AddShutdownHook m fn) = isShutdown m
  /\ (isShutdown m = true ->
      forall ctx sel w,
        Shutdown (AddShutdownHook m fn) ctx sel w
        = (None, AddShutdownHook m fn, [], w)).
Proof.
  split; [reflexivity |]. split; [reflexivity |].
  intros H ctx sel w. unfold shutdown.Shutdown. simpl. rewrite H. reflexivity.
Qed.

End World.

Lemma Shutdown_hooks_in_order_until_failure_witness :
  let '(err, m', steps, w') :=
    Shutdown journalServer journalClose threeHooks tt CaseDone [] in
  steps = StepServer :: map StepHook (seq 1 2)
  /\ w' = ["server stopped"; "flushed"; "tried to save"]%string
  /\ (forall n, (2 < n)%nat -> StepHook n ∉ steps)
  /\ (StepDatabase ∉ steps)
  /\ err = Some (ErrHook 2 "disk full").
Proof.
  pose proof (Shutdown_hooks_in_order_until_failure journalServer journalClose
                threeHooks tt CaseDone [] eq_refl) as H.
  cbv beta iota delta [shutdown.Shutdown threeHooks AddShutdownHook NewManager
                       isShutdown shutdownFn] in H.
  apply (proj2 (proj2 H) ["server stopped"%string]
           [flushHook] brokenHook [lateHook]
           ["server stopped"; "flushed"]%string
           ["server stopped"; "flushed"; "tried to save"]%string
           "disk full"%string);
    reflexivity.
Defined.

(** C6 as stated fails: the second of three hooks fails and the context is
    done before the select receives the goroutine's result; Shutdown returns
    the context's error, which does not name the failing hook. *)
Lemma Shutdown_deadline_hides_failing_hook :
  let '(err, m', steps, w') :=
    Shutdown journalServer journalClose threeHooks tt
             (CaseCtxDone "context deadline exceeded") [] in
  steps = [StepServer; StepHook 1; StepHook 2]
  /\ err = Some (ErrContext "context deadline exceeded")
  /\ (forall n e, err <> Some (ErrHook n e))
  /\ errorString (ErrContext "context deadline exceeded")
     = "context deadline exceeded"%string.
Proof.
  vm_compute. repeat split. intros n e H. discriminate H.
Qed.

(** C7 as stated fails: after Shutdown has run on a manager, AddShutdownHook
    still changes the list of hooks, and it has no error to return. And a
    hook registered after a caller of Shutdown has raised the flag and
    released the lock, before that caller's goroutine runs, is run by it:
    the hooks that Shutdown executes are not fixed when shutdown starts. *)
Lemma AddShutdownHook_after_Shutdown_appends :
  (let '(err, m', steps, w') :=
     Shutdown journalServer journalClose NewManager tt CaseDone [] in
   IsShutdown m' = true
   /\ length (shutdownFn m') = 0%nat
   /\ length (shutdownFn (AddShutdownHook m' lateHook)) = 1%nat
   /\ AddShutdownHook m' lateHook <> m')
  /\ (let begun :=
        runSchedule journalServer journalClose
          (startCallers (AddShutdownHook NewManager flushHook) []
                        [CallShutdown tt CaseDone; CallAddShutdownHook lateHook])
          [0; 0; 0; 0]%nat in
      let c := runSchedule journalServer journalClose begun [1; 1; 1; 0]%nat in
      IsShutdown (mgr begun) = true
      /\ length (shutdownFn (mgr begun)) = 1%nat
      /\ made begun = []
      /\ length (shutdownFn (mgr c)) = 2%nat
      /\ made c = [StepServer; StepHook 1; StepHook 2; StepDatabase; StepCleanup]
      /\ wld c = ["server stopped"; "flushed"; "late"; "database closed"]%string).
Proof.
  vm_compute. repeat split. intros H. discriminate H.
Qed.

End shutdown_theory.

(** ** The shutdown manager: callers at the same time *)

Module shutdown_callers.

Import shutdown.

Section World.

Context {W Ctx : Type}.
Variable serverShutdown : Ctx -> W -> option string * W.
Variable dbClose : W -> option string * W.

Local Abbreviation teardown := (teardown serverShutdown dbClose).
Local Abbreviation Shutdown := (Shutdown serverShutdown dbClose).
Local Abbreviation stepCaller := (stepCaller serverShutdown dbClose).
Local Abbreviation runSchedule := (runSchedule serverShutdown dbClose).
Local Abbreviation ranOnceFor := (ranOnceFor serverShutdown dbClose).
Local Abbreviation Inv := (Inv serverShutdown dbClose).



(** A lookup in the callers after caller [t] has moved: the caller that
    moved, or another one. *)
Ltac moved H :=
  apply list_lookup_insert_Some in H as [(<- & <- & ?) | (? & H)]; simpl in *.


Lemma raised_won (p : PC) : raised p = true -> won p = true.
Proof. destruct p as [| | | | | |[] ?| | |]; simpl; congruence. Qed.





(** A caller alone goes through [Shutdown] in five steps, or in three when
    the flag is up, and returns what [Shutdown] returns. *)
Lemma lone_caller_runs_Shutdown (m : Manager W Ctx) (ctx : Ctx)
    (sel : SelectCase) (w : W) :
  let c := runSchedule (startCallers m w [CallShutdown ctx sel])
                       [0; 0; 0; 0; 0]%nat in
  let '(err, m', steps, w') := Shutdown m ctx sel w in
  mgr c = m' /\ mu c = None /\ wld c = w' /\ made c = steps
  /\ exists ran, callers c = [{| pc := PcReturned ran err;
                                 call := CallShutdown ctx sel |}].
Proof.
  destruct m as [fns [|]]; unfold shutdown.Shutdown; simpl.
  - repeat split; eauto.
  - unfold shutdown.stepCaller. simpl.
    destruct (shutdown.teardown serverShutdown dbClose
                {| shutdownFn := fns; isShutdown := true |} ctx w)
      as [[res steps] w'].
    simpl; repeat split; eauto.
Qed.


End World.


End shutdown_callers.

(** ** Scenarios *)

Module scenarios.

Import examples.
Local Open Scope string_scope.
Local Open Scope Z_scope.

(** The breaker of NewConnection with one probe in HalfOpen: two failing
    calls open it; a call right after fails fast without invoking the
    operation; ten seconds later a successful call goes through HalfOpen and
    closes it. *)
Example breaker_trips_and_recovers :
  let st := {| gobreaker.Name := "database"; gobreaker.MaxRequests := 1;
               gobreaker.Interval := 30 * second;
               gobreaker.Timeout := 10 * second;
               gobreaker.ReadyToTrip := database.ReadyToTrip |} in
  let ok : gobreaker.Operation unit unit := fun w => ((tt, None), w) in
  let records :=
    gobreaker.executeAll (gobreaker.NewCircuitBreaker st 0) tt
      [(1, failing); (2, failing); (3, ok);
       (2 + 10 * second, ok)] in
  map (fun r => (gobreaker.state (gobreaker.before r),
                 gobreaker.invoked (gobreaker.outcome r),
                 gobreaker.error (gobreaker.outcome r),
                 gobreaker.notified (gobreaker.outcome r),
                 gobreaker.state (gobreaker.after r))) records
  = [(gobreaker.StateClosed, true, Some (gobreaker.OpErr "connection refused"),
      [], gobreaker.StateClosed);
     (gobreaker.StateClosed, true, Some (gobreaker.OpErr "connection refused"),
      [(gobreaker.StateClosed, gobreaker.StateOpen)], gobreaker.StateOpen);
     (gobreaker.StateOpen, false, Some (gobreaker.GateErr gobreaker.ErrCircuitOpen),
      [], gobreaker.StateOpen);
     (gobreaker.StateOpen, true, None,
      [(gobreaker.StateOpen, gobreaker.StateHalfOpen);
       (gobreaker.StateHalfOpen, gobreaker.StateClosed)],
      gobreaker.StateClosed)].
Proof. vm_compute. reflexivity. Qed.

(** SimulateFailure opens the breaker of NewConnection, and a ping right
    after does not reach the connection. *)
Example SimulateFailure_opens :
  let db := {| database.circuitBreaker :=
                 gobreaker.NewCircuitBreaker database.cbSettings 0 |} in
  let conn : nat -> option string * nat := fun n => (None, S n) in
  let '(db', n) := database.SimulateFailure db 5 0%nat in
  database.GetState db' = gobreaker.StateOpen
  /\ database.Ping conn db' 6 n
     = (Some (gobreaker.GateErr gobreaker.ErrCircuitOpen), db', 0%nat).
Proof. vm_compute. split; reflexivity. Qed.

(** With the database down after startup, the readiness probe fails when
    graceful degradation is disabled and succeeds when it is enabled. *)
Example readiness_follows_degradation_flag :
  let c := {| health.startTime := 0; health.ready := false;
              health.startup := true |} in
  let w := {| simClock := 7 * second; simDown := true |} in
  let off : Environ := <["FEATURE_FLAGS" := "circuit_breaker"]> ∅ in
  let on : Environ :=
    <["FEATURE_FLAGS" := "circuit_breaker, graceful_degradation"]> ∅ in
  fst (fst (health.ReadinessCheck simNow simPing c off w)) = false
  /\ fst (fst (health.ReadinessCheck simNow simPing c on w)) = true
  /\ health.RStatus (fst (health.HealthCheck simNow simPing c off w))
     = health.StatusUnhealthy
  /\ health.RStatus (fst (health.HealthCheck simNow simPing c on w))
     = health.StatusDegraded.
Proof. vm_compute. repeat split. Qed.

(** The breaker open: the readiness probe does not reach the connection,
    the database check reports the breaker's error, and the verdict follows
    the degradation flag. *)
Example readiness_behind_open_breaker :
  let c := {| health.startTime := 0; health.ready := true;
              health.startup := true |} in
  let db := {| database.circuitBreaker :=
                 gobreaker.setState
                   (gobreaker.NewCircuitBreaker database.cbSettings 0)
                   gobreaker.StateOpen (6 * second) |} in
  let w := (db, {| simClock := 7 * second; simDown := false |}) in
  let off : Environ := <["FEATURE_FLAGS" := "metrics"]> ∅ in
  health.ReadinessCheck gatedNow gatedPing c off w = (false, c, w)
  /\ health.ReadinessCheck gatedNow gatedPing c ∅ w = (true, c, w)
  /\ health.Message (fst (health.checkDatabase gatedNow gatedPing w))
     = "Database connection failed: circuit breaker is open".
Proof. vm_compute. repeat split. Qed.

End scenarios.

(** * Further properties of the code *)

(** ** strconv: reading back what Itoa writes *)

Module strconv_theory.

Import gostrconv.
Local Open Scope string_scope.
Local Open Scope Z_scope.

Lemma digitValue_digitChar (d : Z) :
  0 <= d <= 9 -> digitValue (digitChar d) = Some d.
Proof.
  intros H.
  assert (Hd : d = 0 \/ d = 1 \/ d = 2 \/ d = 3 \/ d = 4 \/ d = 5
               \/ d = 6 \/ d = 7 \/ d = 8 \/ d = 9) by lia.
  repeat (destruct Hd as [-> | Hd]; [reflexivity |]). subst d. reflexivity.
Qed.

Lemma digitChar_no_sign (d : Z) :
  0 <= d <= 9 ->
  Ascii.eqb (digitChar d) "-"%char = false
  /\ Ascii.eqb (digitChar d) "+"%char = false.
Proof.
  intros H.
  assert (Hd : d = 0 \/ d = 1 \/ d = 2 \/ d = 3 \/ d = 4 \/ d = 5
               \/ d = 6 \/ d = 7 \/ d = 8 \/ d = 9) by lia.
  repeat (destruct Hd as [-> | Hd]; [split; reflexivity |]).
  subst d. split; reflexivity.
Qed.

Lemma parseDigits_app (s1 s2 : string) :
  forall acc,
    parseDigits acc (s1 ++ s2)
    = match parseDigits acc s1 with
      | Some v => parseDigits v s2
      | None => None
      end.
Proof.
  induction s1 as [|c s1 IH]; simpl; intros acc; [reflexivity |].
  destruct (digitValue c); [apply IH | reflexivity].
Qed.

Lemma append_cons (s : string) (c : ascii) (t : string) :
  (s ++ String c "") ++ t = s ++ String c t.
Proof.
  induction s as [|a s IH]; [reflexivity |].
  change (String a ((s ++ String c "") ++ t) = String a (s ++ String c t)).
  f_equal. exact IH.
Qed.

Lemma formatDigits_acc (fuel : nat) :
  forall n acc, formatDigits fuel n acc = formatDigits fuel n "" ++ acc.
Proof.
  induction fuel as [|fuel IH]; simpl; intros n acc; [reflexivity |].
  destruct (n / 10 =? 0); [reflexivity |].
  rewrite (IH (n / 10) (String _ acc)), (IH (n / 10) (String _ "")).
  rewrite append_cons. reflexivity.
Qed.

(** The digits written for [n] read back as [n]. *)
Lemma parseDigits_formatDigits (fuel : nat) :
  forall n, 0 <= n < 10 ^ Z.of_nat fuel ->
            parseDigits 0 (formatDigits fuel n "") = Some n.
Proof.
  induction fuel as [|fuel IH]; intros n Hn.
  - simpl in *. f_equal. lia.
  - cbn [formatDigits].
    assert (Hmod : 0 <= n mod 10 <= 9) by (pose proof (Z.mod_pos_bound n 10); lia).
    destruct (n / 10 =? 0) eqn:E.
    + apply Z.eqb_eq in E. cbn [parseDigits].
      rewrite (digitValue_digitChar _ Hmod). cbn [parseDigits].
      f_equal. pose proof (Z.div_mod n 10). lia.
    + rewrite formatDigits_acc, parseDigits_app, IH.
      * cbn [parseDigits]. rewrite (digitValue_digitChar _ Hmod).
        f_equal. pose proof (Z.div_mod n 10). lia.
      * rewrite Nat2Z.inj_succ, Z.pow_succ_r in Hn by lia.
        split; [apply Z.div_pos; lia |].
        apply Z.div_lt_upper_bound; lia.
Qed.

(** What Itoa writes for a number that is not negative starts with a
    digit. *)
Lemma formatDigits_head (fuel : nat) :
  forall n acc,
    0 <= n ->
    exists d rest, 0 <= d <= 9
                   /\ formatDigits (S fuel) n acc = String (digitChar d) rest.
Proof.
  induction fuel as [|fuel IH]; intros n acc Hn.
  - exists (n mod 10), acc. split.
    + pose proof (Z.mod_pos_bound n 10); lia.
    + simpl. destruct (n / 10 =? 0); reflexivity.
  - cbn [formatDigits]. destruct (n / 10 =? 0) eqn:E.
    + exists (n mod 10), acc. split; [| reflexivity].
      pose proof (Z.mod_pos_bound n 10); lia.
    + apply (IH (n / 10)). apply Z.div_pos; lia.
Qed.

Lemma Atoi_minus (c : ascii) (rest : string) :
  Atoi (String "-" (String c rest))
  = match parseDigits 0 (String c rest) with
    | Some n => inRange (- n)
    | None => None
    end.
Proof. reflexivity. Qed.

Lemma Atoi_unsigned (d : Z) (rest : string) :
  0 <= d <= 9 ->
  Atoi (String (digitChar d) rest)
  = match parseDigits 0 (String (digitChar d) rest) with
    | Some n => inRange n
    | None => None
    end.
Proof.
  intros Hd. unfold Atoi.
  destruct (digitChar_no_sign d Hd) as [-> ->]. reflexivity.
Qed.

Lemma inRange_int (n : Z) : minInt <= n <= maxInt -> inRange n = Some n.
Proof.
  intros H. unfold inRange.
  replace ((minInt <=? n) && (n <=? maxInt)) with true; [reflexivity |].
  symmetry. apply andb_true_iff. split; apply Z.leb_le; lia.
Qed.

(** Atoi reads every [int] back from what Itoa writes for it. *)
Lemma Atoi_Itoa (n : Z) :
  minInt <= n <= maxInt -> Atoi (Itoa n) = Some n.
Proof.
  intros Hn. unfold Itoa.
  assert (Hpow : 2 ^ 63 < 10 ^ Z.of_nat 20) by (vm_compute; reflexivity).
  assert (Hmin : minInt = - 2 ^ 63) by reflexivity.
  assert (Hmax : maxInt = 2 ^ 63 - 1) by reflexivity.
  destruct (n <? 0) eqn:E.
  - apply Z.ltb_lt in E.
    destruct (formatDigits_head 19 (- n) "") as (d & rest & Hd & Hfmt); [lia |].
    pose proof (parseDigits_formatDigits 20 (- n)) as Hparse.
    rewrite Hfmt in *. rewrite Atoi_minus, Hparse by lia.
    replace (- - n) with n by lia. by apply inRange_int.
  - apply Z.ltb_ge in E.
    destruct (formatDigits_head 19 n "") as (d & rest & Hd & Hfmt); [lia |].
    pose proof (parseDigits_formatDigits 20 n) as Hparse.
    rewrite Hfmt in *. rewrite (Atoi_unsigned d rest Hd), Hparse by lia.
    by apply inRange_int.
Qed.

End strconv_theory.

(** ** package database: configuration and connection *)

Module database_theory.

Import gobreaker database.
Local Open Scope string_scope.
Local Open Scope Z_scope.

Lemma ReadyToTrip_iff (c : Counts) :
  ReadyToTrip c = true
  <-> 2 <= Requests c /\ Requests c <= 2 * TotalFailures c.
Proof.
  unfold ReadyToTrip. rewrite andb_true_iff, Z.leb_le, Qle_bool_iff.
  split; intros [Hr Hq]; (split; [exact Hr |]).
  - destruct (Requests c) as [|p|p] eqn:E; try lia.
    unfold Qle, Qdiv, Qmult, Qinv, inject_Z in Hq. simpl in Hq. lia.
  - destruct (Requests c) as [|p|p] eqn:E; try lia.
    unfold Qle, Qdiv, Qmult, Qinv, inject_Z. simpl. lia.
Qed.

(** X1. The trip predicate of NewConnection, in whole numbers: it holds
    exactly when there have been at least two requests and at least half of
    them failed. So it never holds after a single request, and once it
    holds a further failure keeps it. *)
Theorem ReadyToTrip_half_of_two (c : Counts) :
  (ReadyToTrip c = true
   <-> 2 <= Requests c /\ Requests c <= 2 * TotalFailures c)
  /\ (Requests c <= 1 -> ReadyToTrip c = false)
  /\ (ReadyToTrip c = true -> ReadyToTrip (onFailure c) = true).
Proof.
  split; [apply ReadyToTrip_iff |]. split.
  - intros H. destruct (ReadyToTrip c) eqn:E; [| reflexivity].
    apply ReadyToTrip_iff in E. lia.
  - intros H. apply ReadyToTrip_iff in H. apply ReadyToTrip_iff. simpl. lia.
Qed.

Lemma getEnvOrDefault_nonempty (env : Environ) (key defaultValue : string) :
  defaultValue <> "" -> getEnvOrDefault env key defaultValue <> "".
Proof.
  unfold getEnvOrDefault, Getenv. intros Hd.
  destruct (env !! key) as [v|]; simpl; [| assumption].
  destruct (String.eqb v "") eqn:E; [assumption |].
  by apply String.eqb_neq in E.
Qed.

(** X2. getEnvOrDefault gives the value of a variable that is set and not
    empty, and the default for one that is unset or set to the empty string;
    so with a default that is not empty it never gives the empty string, and
    a variable cannot be configured to be empty. Other variables play no
    part. *)
Theorem getEnvOrDefault_empty_is_unset (env : Environ) (key defaultValue : string) :
  (defaultValue <> "" -> getEnvOrDefault env key defaultValue <> "")
  /\ getEnvOrDefault (delete key env) key defaultValue = defaultValue
  /\ getEnvOrDefault (<[key := ""]> env) key defaultValue = defaultValue
  /\ (forall value, value <> "" ->
        getEnvOrDefault (<[key := value]> env) key defaultValue = value)
  /\ (forall other value, other <> key ->
        getEnvOrDefault (<[other := value]> env) key defaultValue
        = getEnvOrDefault env key defaultValue).
Proof.
  unfold getEnvOrDefault, Getenv, Environ in *.
  split; [| split; [| split; [| split]]].
  - apply getEnvOrDefault_nonempty.
  - rewrite lookup_delete_eq. reflexivity.
  - rewrite lookup_insert_eq. reflexivity.
  - intros value Hv. rewrite lookup_insert_eq. simpl.
    apply String.eqb_neq in Hv. rewrite Hv. reflexivity.
  - intros other value Hne. rewrite lookup_insert_ne by done. reflexivity.
Qed.

(** X3. getEnvOrDefaultInt gives the default for a variable that is unset,
    empty or not an integer for Atoi, and reads back every [int] from the
    decimal numeral Itoa writes for it. *)
Theorem getEnvOrDefaultInt_reads_decimal (env : Environ) (key : string)
    (defaultValue : Z) :
  getEnvOrDefaultInt (delete key env) key defaultValue = defaultValue
  /\ getEnvOrDefaultInt (<[key := ""]> env) key defaultValue = defaultValue
  /\ (forall value, gostrconv.Atoi value = None ->
        getEnvOrDefaultInt (<[key := value]> env) key defaultValue = defaultValue)
  /\ (forall n, gostrconv.minInt <= n <= gostrconv.maxInt ->
        getEnvOrDefaultInt (<[key := gostrconv.Itoa n]> env) key defaultValue = n).
Proof.
  unfold getEnvOrDefaultInt, Getenv, Environ in *.
  split; [| split; [| split]].
  - rewrite lookup_delete_eq. reflexivity.
  - rewrite lookup_insert_eq. reflexivity.
  - intros value Hv. rewrite lookup_insert_eq. simpl. rewrite Hv.
    destruct (String.eqb value ""); reflexivity.
  - intros n Hn. rewrite lookup_insert_eq. simpl.
    rewrite (strconv_theory.Atoi_Itoa n Hn).
    destruct (String.eqb (gostrconv.Itoa n) "") eqn:E; [| reflexivity].
    apply String.eqb_eq in E.
    pose proof (strconv_theory.Atoi_Itoa n Hn) as H. rewrite E in H.
    discriminate H.
Qed.

Section Driver.

Context {W : Type}.
Variable sqlOpen : string -> W -> option string * W.
Variable connPing : W -> option string * W.
Variable connExecSchema : W -> option string * W.
Variable connClose : W -> option string * W.

(** X4. NewConnection leaves no connection open behind an error. It
    returns a handle exactly when opening, the ping and the schema all
    succeed; the connection is then as the schema left it, not closed, and
    the breaker is new (Closed, no counts). Otherwise it returns the error
    of the first of the three that fails: when opening fails nothing else is
    called and the world is as sql.Open left it; when the ping or the schema
    fails, conn.Close is called on the connection as the failed step left
    it, is the last call made, and the world is the one Close leaves. *)
Theorem NewConnection_closes_on_error (env : Environ) (now : Z) (w : W) :
  let connStr := connectionString env in
  let opened := sqlOpen connStr w in
  let pinged := connPing (snd opened) in
  let schema := connExecSchema (snd pinged) in
  let '(res, calls, w') :=
    NewConnection sqlOpen connPing connExecSchema connClose env now w in
  ((exists db, res = inr db)
   <-> fst opened = None /\ fst pinged = None /\ fst schema = None)
  /\ (forall db, res = inr db ->
        w' = snd schema
        /\ calls = [ConnOpen connStr; ConnConfigure; ConnPing; ConnSchema]
        /\ (ConnClose ∉ calls)
        /\ circuitBreaker db = NewCircuitBreaker cbSettings now
        /\ GetState db = StateClosed
        /\ GetStats db = noCounts)
  /\ (forall e, res = inl (ErrOpen e) <-> fst opened = Some e)
  /\ (forall e, res = inl (ErrOpen e) ->
        w' = snd opened /\ calls = [ConnOpen connStr])
  /\ (forall e, res = inl (ErrPing e)
                <-> fst opened = None /\ fst pinged = Some e)
  /\ (forall e, res = inl (ErrPing e) ->
        w' = snd (connClose (snd pinged))
        /\ calls = [ConnOpen connStr; ConnConfigure; ConnPing; ConnClose]
        /\ last calls = Some ConnClose)
  /\ (forall e, res = inl (ErrSchema e)
                <-> fst opened = None /\ fst pinged = None
                    /\ fst schema = Some e)
  /\ (forall e, res = inl (ErrSchema e) ->
        w' = snd (connClose (snd schema))
        /\ calls = [ConnOpen connStr; ConnConfigure; ConnPing; ConnSchema;
                    ConnClose]
        /\ last calls = Some ConnClose).
Proof.
  unfold NewConnection. cbv zeta.
  assert (Hnot : ConnClose ∉ [ConnOpen (connectionString env); ConnConfigure;
                              ConnPing; ConnSchema]).
  { intros Hin.
    repeat (apply elem_of_cons in Hin as [Hin | Hin]; [discriminate |]).
    by apply elem_of_nil in Hin. }
  destruct (sqlOpen (connectionString env) w) as [[e1|] w1]; cbn [fst snd];
    [| destruct (connPing w1) as [[e2|] w2]; cbn [fst snd];
       [destruct (connClose w2) as [r w3]
       | destruct (connExecSchema w2) as [[e3|] w3]; cbn [fst snd];
         [destruct (connClose w3) as [r w4] |]]];
    cbn [fst snd]; repeat split; intros;
    repeat match goal with
           | H : exists _, _ |- _ => destruct H
           | H : _ /\ _ |- _ => destruct H
           | H : inr _ = inr _ |- _ => inversion H; subst; clear H
           end;
    try congruence; try discriminate; eauto.
Qed.

End Driver.

(** *** The methods of DB behind the breaker *)

Section Breaker.

Context {W : Type}.

(** One failing call on a Closed breaker within the rolling interval. *)
Lemma Execute_closed_failure {V : Type} (cb : CircuitBreaker) (now : Z)
    (op : Operation W V) (w : W) (e : string) :
  state cb = StateClosed ->
  now - countsSince cb < Interval (settings cb) ->
  snd (fst (op w)) = Some e ->
  Execute cb now op w
  = (passed (fst (op w))
       (if gobreaker.ReadyToTrip (settings cb) (onFailure (counts cb))
        then [(StateClosed, StateOpen)] else []),
     if gobreaker.ReadyToTrip (settings cb) (onFailure (counts cb))
     then setState cb StateOpen now
     else withCounts cb (onFailure (counts cb)),
     snd (op w)).
Proof.
  intros Hst Hint He. unfold Execute. rewrite Hst.
  apply Z.leb_gt in Hint. rewrite Hint. unfold executeClosed.
  destruct (op w) as [r w']. simpl in He |- *. rewrite He.
  destruct (gobreaker.ReadyToTrip (settings cb) (onFailure (counts cb)));
    reflexivity.
Qed.

Variable PingContext : W -> option string * W.
Variable QueryUsers : W -> (Rows + string) * W.
Variable QueryUser : Z -> W -> (User + string) * W.
Variable InsertUser : string -> string -> W -> (User + string) * W.

Local Abbreviation GetUsers := (GetUsers QueryUsers).
Local Abbreviation GetUser := (GetUser QueryUser).
Local Abbreviation CreateUser := (CreateUser InsertUser).
Local Abbreviation Ping := (Ping PingContext).

Lemma methods_behind_open_breaker (db : DB) (now : Z) (w : W) :
  state (circuitBreaker db) = StateOpen ->
  now - openedAt (circuitBreaker db) < Timeout (settings (circuitBreaker db)) ->
  Ping db now w = (Some (GateErr ErrCircuitOpen), db, w)
  /\ GetUsers db now w = (inl (GateErr ErrCircuitOpen), db, w)
  /\ (forall id, GetUser db now id w = (inl (GateErr ErrCircuitOpen), db, w))
  /\ (forall name email,
         CreateUser db now name email w = (inl (GateErr ErrCircuitOpen), db, w)).
Proof.
  intros Hst Ht.
  unfold database.Ping, database.GetUsers, database.GetUser,
    database.CreateUser, viaBreaker.
  repeat split; intros;
    rewrite (breaker_theory.Execute_open_early _ now _ w Hst Ht);
    destruct db; reflexivity.
Qed.

(** X5. While the breaker is Open and its timeout has not elapsed, every
    method of DB that goes to the database (Ping, GetUsers, GetUser,
    CreateUser) returns the circuit-open error and leaves the connection and
    the breaker untouched: each of them makes its call inside Execute, which
    is the library's, as the design describes it. *)
Theorem open_breaker_shields_every_method (db : DB) (now : Z) (w : W) :
  state (circuitBreaker db) = StateOpen ->
  now - openedAt (circuitBreaker db) < Timeout (settings (circuitBreaker db)) ->
  Ping db now w = (Some (GateErr ErrCircuitOpen), db, w)
  /\ GetUsers db now w = (inl (GateErr ErrCircuitOpen), db, w)
  /\ (forall id, GetUser db now id w = (inl (GateErr ErrCircuitOpen), db, w))
  /\ (forall name email,
         CreateUser db now name email w = (inl (GateErr ErrCircuitOpen), db, w)).
Proof. apply methods_behind_open_breaker. Qed.

(** X6. A query that fails counts against the breaker whatever the reason,
    a user that does not exist included: on the breaker of NewConnection,
    Closed with no counts, two GetUser calls within the rolling interval
    whose queries return an error leave it Open, and a GetUsers call made
    before the open timeout has elapsed then fails with the circuit-open
    error without querying the database. *)
Theorem failed_lookups_open_the_breaker (db : DB) (t1 t2 t3 : Z) (id1 id2 : Z)
    (w : W) (e1 e2 : string) :
  settings (circuitBreaker db) = cbSettings ->
  state (circuitBreaker db) = StateClosed ->
  counts (circuitBreaker db) = noCounts ->
  t1 - countsSince (circuitBreaker db) < 30 * second ->
  t2 - countsSince (circuitBreaker db) < 30 * second ->
  t3 - t2 < 10 * second ->
  fst (QueryUser id1 w) = inr e1 ->
  fst (QueryUser id2 (snd (QueryUser id1 w))) = inr e2 ->
  let '(r1, db1, w1) := GetUser db t1 id1 w in
  let '(r2, db2, w2) := GetUser db1 t2 id2 w1 in
  let '(r3, db3, w3) := GetUsers db2 t3 w2 in
  r1 = inl (OpErr e1) /\ GetState db1 = StateClosed
  /\ r2 = inl (OpErr e2) /\ GetState db2 = StateOpen
  /\ r3 = inl (GateErr ErrCircuitOpen) /\ db3 = db2 /\ w3 = w2
  /\ w2 = snd (QueryUser id2 (snd (QueryUser id1 w))).
Proof.
  intros Hset Hst Hc Ht1 Ht2 Ht3 H1 H2.
  destruct db as [cb]. simpl in *.
  destruct breaker_theory.ReadyToTrip_two_failures as [R1 R2].
  assert (E1 : database.GetUser QueryUser {| circuitBreaker := cb |} t1 id1 w
               = (inl (OpErr e1),
                  {| circuitBreaker := withCounts cb (onFailure noCounts) |},
                  snd (QueryUser id1 w))).
  { unfold database.GetUser, viaBreaker. simpl.
    rewrite (Execute_closed_failure cb t1 _ w e1 Hst).
    - rewrite Hset, Hc.
      change (gobreaker.ReadyToTrip cbSettings (onFailure noCounts))
        with (ReadyToTrip (onFailure noCounts)).
      rewrite R1. unfold rowOp.
      destruct (QueryUser id1 w) as [[u|e] w1]; simpl in *; [discriminate |].
      inversion H1; subst. reflexivity.
    - rewrite Hset. exact Ht1.
    - unfold rowOp. destruct (QueryUser id1 w) as [[u|e] w1]; simpl in *;
        [discriminate | inversion H1; reflexivity]. }
  rewrite E1.
  set (w1 := snd (QueryUser id1 w)) in *.
  set (cb1 := withCounts cb (onFailure noCounts)).
  assert (E2 : database.GetUser QueryUser {| circuitBreaker := cb1 |} t2 id2 w1
               = (inl (OpErr e2),
                  {| circuitBreaker := setState cb1 StateOpen t2 |},
                  snd (QueryUser id2 w1))).
  { unfold database.GetUser, viaBreaker. simpl.
    rewrite (Execute_closed_failure cb1 t2 _ w1 e2 Hst).
    - change (settings cb1) with (settings cb).
      change (counts cb1) with (onFailure noCounts). rewrite Hset.
      change (gobreaker.ReadyToTrip cbSettings (onFailure (onFailure noCounts)))
        with (ReadyToTrip (onFailure (onFailure noCounts))).
      rewrite R2. unfold rowOp.
      destruct (QueryUser id2 w1) as [[u|e] w2]; simpl in *; [discriminate |].
      inversion H2; subst. reflexivity.
    - simpl. rewrite Hset. exact Ht2.
    - unfold rowOp. destruct (QueryUser id2 w1) as [[u|e] w2]; simpl in *;
        [discriminate | inversion H2; reflexivity]. }
  rewrite E2.
  set (w2 := snd (QueryUser id2 w1)).
  set (db2 := {| circuitBreaker := setState cb1 StateOpen t2 |}).
  assert (E3 : database.GetUsers QueryUsers db2 t3 w2
               = (inl (GateErr ErrCircuitOpen), db2, w2)).
  { apply (methods_behind_open_breaker db2 t3 w2); [reflexivity |].
    simpl. rewrite Hset. simpl. lia. }
  rewrite E3. unfold GetState, db2, cb1. simpl.
  repeat split; try reflexivity. exact Hst.
Qed.

(** *** SimulateFailure *)

Lemma SimulateFailure_unfold (db : DB) (now : Z) (w : W) :
  SimulateFailure db now w = foldl (simulateStep now) (db, w) (seq 0 5).
Proof. reflexivity. Qed.

Lemma failures_counts (k : nat) :
  forall c, Requests (failures k c) = Requests c + Z.of_nat k
            /\ TotalFailures (failures k c) = TotalFailures c + Z.of_nat k.
Proof.
  induction k as [|k IH]; intros c; simpl failures.
  - simpl. lia.
  - destruct (IH (onFailure c)) as [-> ->]. simpl. lia.
Qed.

Lemma simulateStep_open (now : Z) (cb : CircuitBreaker) (w : W) (a : nat) :
  state cb = StateOpen -> openedAt cb = now -> 0 < Timeout (settings cb) ->
  simulateStep now ({| circuitBreaker := cb |}, w) a
  = ({| circuitBreaker := cb |}, w).
Proof.
  intros Hst Ho Ht. unfold simulateStep. simpl.
  rewrite (breaker_theory.Execute_open_early cb now simulated w Hst) by lia.
  reflexivity.
Qed.

Lemma simulateStep_closed (now : Z) (cb : CircuitBreaker) (w : W) (a : nat) :
  state cb = StateClosed ->
  now - countsSince cb < Interval (settings cb) ->
  simulateStep now ({| circuitBreaker := cb |}, w) a
  = ({| circuitBreaker :=
          if gobreaker.ReadyToTrip (settings cb) (onFailure (counts cb))
          then setState cb StateOpen now
          else withCounts cb (onFailure (counts cb)) |}, w).
Proof.
  intros Hst Hint. unfold simulateStep. simpl.
  rewrite (Execute_closed_failure cb now simulated w
             "simulated database failure" Hst Hint eq_refl).
  reflexivity.
Qed.

(** The simulated failure does not touch the world. *)
Lemma simulateStep_world (now : Z) (acc : DB * W) (a : nat) :
  snd (simulateStep now acc a) = snd acc.
Proof.
  destruct acc as [[cb] w]. unfold simulateStep. simpl.
  unfold Execute, executeClosed, executeHalfOpen, simulated. simpl.
  destruct (state cb); simpl;
    repeat (match goal with
            | |- context [if ?b then _ else _] => destruct b; simpl
            end); reflexivity.
Qed.

Lemma simulate_world (now : Z) (l : list nat) :
  forall acc : DB * W, snd (foldl (simulateStep now) acc l) = snd acc.
Proof.
  induction l as [|a l IH]; intros acc; simpl; [reflexivity |].
  rewrite IH. apply simulateStep_world.
Qed.

(** Once open at [now], the breaker rejects the remaining operations. *)
Lemma simulate_open_stays (now : Z) (n : nat) :
  forall (a : nat) (cb : CircuitBreaker) (w : W),
    state cb = StateOpen -> openedAt cb = now -> 0 < Timeout (settings cb) ->
    foldl (simulateStep now) ({| circuitBreaker := cb |}, w) (seq a n)
    = ({| circuitBreaker := cb |}, w).
Proof.
  induction n as [|n IH]; intros a cb w Hst Ho Ht; [reflexivity |].
  cbn [seq foldl]. rewrite simulateStep_open by assumption. by apply IH.
Qed.

(** The failing operations on a Closed breaker, all at [now] within the
    rolling interval: the breaker ends Open exactly when the counts trip the
    predicate after one of them. *)
Lemma simulate_closed (now : Z) (n : nat) :
  forall (a : nat) (cb : CircuitBreaker) (w : W),
    state cb = StateClosed ->
    now - countsSince cb < Interval (settings cb) ->
    0 < Timeout (settings cb) ->
    (state (circuitBreaker
              (fst (foldl (simulateStep now) ({| circuitBreaker := cb |}, w)
                          (seq a n)))) = StateOpen
     <-> exists k, (1 <= k <= n)%nat
                   /\ gobreaker.ReadyToTrip (settings cb)
                        (failures k (counts cb)) = true)
    /\ (state (circuitBreaker
                 (fst (foldl (simulateStep now) ({| circuitBreaker := cb |}, w)
                             (seq a n)))) = StateOpen
        \/ state (circuitBreaker
                    (fst (foldl (simulateStep now) ({| circuitBreaker := cb |}, w)
                                (seq a n)))) = StateClosed).
Proof.
  induction n as [|n IH]; intros a cb w Hst Hint Ht.
  - simpl. rewrite Hst. split; [| right; reflexivity].
    split; [discriminate | intros (k & Hk & _); lia].
  - cbn [seq foldl]. rewrite simulateStep_closed by assumption.
    destruct (gobreaker.ReadyToTrip (settings cb) (onFailure (counts cb))) eqn:R.
    + rewrite simulate_open_stays by (simpl; auto). simpl.
      split; [| left; reflexivity].
      split; [| reflexivity]. intros _. exists 1%nat. split; [lia | exact R].
    + destruct (IH (S a) (withCounts cb (onFailure (counts cb))) w Hst Hint Ht)
        as [[IH1 IH2] IH3].
      split; [| exact IH3]. split.
      * intros H. destruct (IH1 H) as (k & Hk & Hr).
        exists (S k). split; [lia | exact Hr].
      * intros (k & Hk & Hr). apply IH2.
        destruct k as [|k]; [lia |].
        destruct k as [|k].
        -- simpl in Hr. congruence.
        -- exists (S k). split; [lia | exact Hr].
Qed.

(** X7. SimulateFailure does not always trip the breaker. On a Closed
    breaker with the trip predicate of NewConnection, within the rolling
    interval, its five failing operations leave the breaker Open exactly
    when the requests counted so far are at most five more than twice the
    failures counted so far: after six successes and no failure, say, the
    breaker stays Closed. The world is not touched. *)
Theorem SimulateFailure_trips_iff (db : DB) (now : Z) (w : W) :
  gobreaker.ReadyToTrip (settings (circuitBreaker db)) = ReadyToTrip ->
  state (circuitBreaker db) = StateClosed ->
  now - countsSince (circuitBreaker db) < Interval (settings (circuitBreaker db)) ->
  0 < Timeout (settings (circuitBreaker db)) ->
  0 <= Requests (counts (circuitBreaker db)) ->
  (GetState (fst (SimulateFailure db now w)) = StateOpen
   <-> Requests (GetStats db) <= 2 * TotalFailures (GetStats db) + 5)
  /\ (GetState (fst (SimulateFailure db now w)) = StateOpen
      \/ GetState (fst (SimulateFailure db now w)) = StateClosed)
  /\ snd (SimulateFailure db now w) = w.
Proof.
  intros Htrip Hst Hint Ht Hreq. destruct db as [cb]. simpl in *.
  rewrite SimulateFailure_unfold.
  destruct (simulate_closed now 5 0 cb w Hst Hint Ht) as [Hiff Hor].
  unfold GetState, GetStats. cbn [circuitBreaker].
  split; [| split; [exact Hor | apply simulate_world]].
  rewrite Hiff. rewrite Htrip. split.
  - intros (k & Hk & Hr). apply ReadyToTrip_iff in Hr.
    destruct (failures_counts k (counts cb)) as [Hq Hf].
    rewrite Hq, Hf in Hr. lia.
  - intros H. exists 5%nat. split; [lia |].
    apply ReadyToTrip_iff.
    destruct (failures_counts 5 (counts cb)) as [Hq Hf].
    rewrite Hq, Hf. lia.
Qed.

End Breaker.

Lemma open_breaker_shields_every_method_witness :
  let db := {| circuitBreaker :=
                 setState (NewCircuitBreaker cbSettings 0) StateOpen second |} in
  let w := {| examples.simClock := 0; examples.simDown := false |} in
  let QueryUsers := fun w : examples.SimWorld =>
    (inl {| scans := []; rowsErr := None |} : Rows + string, w) in
  GetState db = StateOpen
  /\ Ping examples.simPing db (3 * second) w
     = (Some (GateErr ErrCircuitOpen), db, w)
  /\ GetUsers QueryUsers db (3 * second) w
     = (inl (GateErr ErrCircuitOpen), db, w).
Proof.
  intros db w QueryUsers.
  split; [reflexivity |].
  destruct (open_breaker_shields_every_method examples.simPing QueryUsers
              (fun _ w => (inr "sql: no rows in result set", w))
              (fun _ _ w => (inr "duplicate key", w))
              db (3 * second) w)
    as (Hp & Hu & _).
  - reflexivity.
  - vm_compute. reflexivity.
  - split; [exact Hp | exact Hu].
Defined.

Lemma failed_lookups_open_the_breaker_witness :
  let db := {| circuitBreaker := NewCircuitBreaker cbSettings 0 |} in
  let QueryUser := fun (_ : Z) (w : list Z) =>
    (inr "sql: no rows in result set" : User + string, w) in
  let QueryUsers := fun w : list Z =>
    (inl {| scans := []; rowsErr := None |} : Rows + string, w) in
  let '(r1, db1, w1) := GetUser QueryUser db second 7 [] in
  let '(r2, db2, w2) := GetUser QueryUser db1 (2 * second) 8 w1 in
  let '(r3, db3, w3) := GetUsers QueryUsers db2 (3 * second) w2 in
  r1 = inl (OpErr "sql: no rows in result set") /\ GetState db1 = StateClosed
  /\ r2 = inl (OpErr "sql: no rows in result set") /\ GetState db2 = StateOpen
  /\ r3 = inl (GateErr ErrCircuitOpen) /\ db3 = db2 /\ w3 = w2
  /\ w2 = [].
Proof.
  intros db QueryUser QueryUsers.
  exact (failed_lookups_open_the_breaker (fun w => (None, w)) QueryUsers QueryUser
           (fun _ _ w => (inr "duplicate key", w))
           db second (2 * second) (3 * second) 7 8 []
           "sql: no rows in result set" "sql: no rows in result set"
           eq_refl eq_refl eq_refl eq_refl eq_refl eq_refl eq_refl eq_refl).
Defined.

Lemma SimulateFailure_trips_iff_witness :
  let db := {| circuitBreaker :=
                 withCounts (NewCircuitBreaker cbSettings 0)
                   {| Requests := 6; TotalSuccesses := 6; TotalFailures := 0;
                      ConsecutiveFailures := 0 |} |} in
  (GetState (fst (SimulateFailure db second tt)) = StateOpen
   <-> Requests (GetStats db) <= 2 * TotalFailures (GetStats db) + 5)
  /\ (GetState (fst (SimulateFailure db second tt)) = StateOpen
      \/ GetState (fst (SimulateFailure db second tt)) = StateClosed)
  /\ snd (SimulateFailure db second tt) = tt.
Proof.
  intros db.
  apply (SimulateFailure_trips_iff db second tt).
  - reflexivity.
  - reflexivity.
  - vm_compute. reflexivity.
  - vm_compute. reflexivity.
  - vm_compute. discriminate.
Defined.

End database_theory.

(** ** package health: the checks and the checker over time *)

Module health_more.

Import health.
Local Open Scope string_scope.
Local Open Scope Z_scope.

Lemma Split_not_nil (s : string) (sep : ascii) : gostrings.Split s sep <> [].
Proof.
  destruct s as [|c s]; simpl; [discriminate |].
  destruct (Ascii.eqb c sep); [discriminate |].
  destruct (gostrings.Split s sep); discriminate.
Qed.

Lemma features_not_nil (env : Environ) : getEnabledFeatures env <> [].
Proof.
  unfold getEnabledFeatures.
  destruct (String.eqb (getEnvOrDefault env "FEATURE_FLAGS"
                          "graceful_degradation,circuit_breaker") "") eqn:E.
  - apply String.eqb_eq in E. exfalso. revert E.
    apply database_theory.getEnvOrDefault_nonempty. discriminate.
  - intros H. apply fmap_nil_inv in H. by apply Split_not_nil in H.
Qed.

Lemma checkFeatures_healthy (env : Environ) (now : Z) :
  CStatus (checkFeatures env now) = StatusHealthy.
Proof.
  unfold checkFeatures. pose proof (features_not_nil env).
  destruct (getEnabledFeatures env); [congruence | reflexivity].
Qed.

(** X8. The feature list of the checker is never empty, whatever the
    environment: an unset or empty FEATURE_FLAGS gives the default list (with
    graceful degradation enabled), and any other value splits into at least
    one entry. So checkFeatures always reports Healthy, and its branch for
    no features, the only check that could report Degraded, is never
    taken. *)
Theorem getEnabledFeatures_never_empty (env : Environ) (now : Z) :
  getEnabledFeatures env <> []
  /\ CStatus (checkFeatures env now) = StatusHealthy
  /\ (env !! "FEATURE_FLAGS" = None \/ env !! "FEATURE_FLAGS" = Some "" ->
      getEnabledFeatures env = ["graceful_degradation"; "circuit_breaker"]
      /\ isGracefulDegradationEnabled env = true).
Proof.
  split; [apply features_not_nil |]. split; [apply checkFeatures_healthy |].
  intros H. unfold isGracefulDegradationEnabled, getEnabledFeatures,
    getEnvOrDefault, Getenv.
  destruct H as [-> | ->]; split; reflexivity.
Qed.

(** The checks HealthCheck puts in its map. *)
Lemma someCheck_three (st : Status) (a b c : Check) :
  someCheck st (<["features" := c]> (<["memory" := b]> (<["database" := a]> ∅)))
  <-> CStatus a = st \/ CStatus b = st \/ CStatus c = st.
Proof.
  unfold someCheck. split.
  - intros (k & x & Hk & Hx).
    destruct (decide (k = "features")) as [-> | N1].
    { rewrite lookup_insert_eq in Hk. inversion Hk; subst. auto. }
    rewrite lookup_insert_ne in Hk by done.
    destruct (decide (k = "memory")) as [-> | N2].
    { rewrite lookup_insert_eq in Hk. inversion Hk; subst. auto. }
    rewrite lookup_insert_ne in Hk by done.
    destruct (decide (k = "database")) as [-> | N3].
    { rewrite lookup_insert_eq in Hk. inversion Hk; subst. auto. }
    rewrite lookup_insert_ne, lookup_empty in Hk by done. discriminate.
  - intros [H | [H | H]].
    + exists "database", a. split; [| exact H].
      rewrite !lookup_insert_ne by done. apply lookup_insert_eq.
    + exists "memory", b. split; [| exact H].
      rewrite lookup_insert_ne by done. apply lookup_insert_eq.
    + exists "features", c. split; [| exact H]. apply lookup_insert_eq.
Qed.

Lemma countFailedChecks_empty : countFailedChecks ∅ = 0.
Proof. unfold countFailedChecks. apply map_fold_empty. Qed.

Lemma countFailedChecks_insert (checks : gmap string Check) (name : string)
    (c : Check) :
  checks !! name = None ->
  countFailedChecks (<[name := c]> checks)
  = countFailedChecks checks + failedCheck c.
Proof.
  intros Hnone. unfold countFailedChecks.
  rewrite map_fold_insert_L; [| | exact Hnone].
  - unfold failedCheck. destruct (String.eqb (CStatus c) StatusHealthy); lia.
  - intros j1 j2 z1 z2 y _ _ _.
    destruct (String.eqb (CStatus z1) StatusHealthy),
             (String.eqb (CStatus z2) StatusHealthy); lia.
Qed.

(** The checks of a map whose status is not Healthy. *)
Local Abbreviation failedChecks :=
  (filter (fun kc : string * Check => CStatus kc.2 <> StatusHealthy)).

Lemma countFailedChecks_size (checks : gmap string Check) :
  countFailedChecks checks = Z.of_nat (size (failedChecks checks)).
Proof.
  induction checks as [|name c checks Hnone IH] using map_ind.
  - by rewrite countFailedChecks_empty, map_filter_empty, map_size_empty.
  - rewrite (countFailedChecks_insert _ _ _ Hnone), IH, map_filter_insert.
    unfold failedCheck. simpl.
    destruct (String.eqb (CStatus c) StatusHealthy) eqn:E.
    + apply String.eqb_eq in E. rewrite decide_False by (intros H; by apply H).
      rewrite delete_id by exact Hnone. lia.
    + apply String.eqb_neq in E. rewrite decide_True by exact E.
      rewrite map_size_insert_None; [lia |].
      apply map_lookup_filter_None. by left.
Qed.

(** X10. countFailedChecks counts the checks whose status is not Healthy:
    its result is the number of entries of the map with another status, and
    a check added under a new name adds one exactly when its status is not
    Healthy. So it lies between zero and the number of checks and is zero
    exactly when every check is Healthy; and a map with no failed check has
    the overall status Healthy, with or without graceful degradation. *)
Theorem countFailedChecks_counts (env : Environ) (checks : gmap string Check) :
  countFailedChecks checks
  = Z.of_nat (size (filter (fun kc : string * Check =>
                              CStatus kc.2 <> StatusHealthy) checks))
  /\ (forall name c,
        checks !! name = None ->
        countFailedChecks (<[name := c]> checks)
        = countFailedChecks checks
          + (if String.eqb (CStatus c) StatusHealthy then 0 else 1))
  /\ 0 <= countFailedChecks checks <= Z.of_nat (size checks)
  /\ (countFailedChecks checks = 0
      <-> forall name c, checks !! name = Some c -> CStatus c = StatusHealthy)
  /\ (countFailedChecks checks = 0 ->
      determineOverallStatus env checks = StatusHealthy).
Proof.
  split; [apply countFailedChecks_size |].
  split; [intros name c Hnone; apply (countFailedChecks_insert _ _ _ Hnone) |].
  assert (Hmain : 0 <= countFailedChecks checks <= Z.of_nat (size checks)
                  /\ (countFailedChecks checks = 0
                      <-> forall name c, checks !! name = Some c ->
                                         CStatus c = StatusHealthy)).
  { induction checks as [|name c checks Hnone IH] using map_ind.
    - rewrite countFailedChecks_empty, map_size_empty. split; [lia |].
      split; [| reflexivity]. intros _ name c H.
      rewrite lookup_empty in H. discriminate.
    - rewrite (countFailedChecks_insert _ _ _ Hnone),
        (map_size_insert_None _ _ _ Hnone).
      destruct IH as [IHb IHz].
      assert (Hf : (failedCheck c = 0 /\ CStatus c = StatusHealthy)
                   \/ (failedCheck c = 1 /\ CStatus c <> StatusHealthy)).
      { unfold failedCheck.
        destruct (String.eqb (CStatus c) StatusHealthy) eqn:E.
        - left. split; [reflexivity | by apply String.eqb_eq].
        - right. split; [reflexivity | by apply String.eqb_neq]. }
      split; [destruct Hf as [[-> _] | [-> _]]; lia |].
      split.
      + intros H0 k x Hk.
        destruct (decide (name = k)) as [<- | Hne].
        * rewrite lookup_insert_eq in Hk. inversion Hk; subst.
          destruct Hf as [[_ ?] | [Hf1 _]]; [assumption | lia].
        * rewrite lookup_insert_ne in Hk by done.
          apply IHz with k; [| exact Hk].
          destruct Hf as [[Hf0 _] | [Hf1 _]]; lia.
      + intros Hall.
        assert (Hc : CStatus c = StatusHealthy).
        { apply (Hall name). apply lookup_insert_eq. }
        assert (Hrest : countFailedChecks checks = 0).
        { apply IHz. intros k x Hk. apply (Hall k).
          rewrite lookup_insert_ne; [exact Hk |]. intros ->. congruence. }
        destruct Hf as [[-> _] | [_ Hbad]]; [lia | congruence]. }
  destruct Hmain as [Hb Hz]. split; [exact Hb |]. split; [exact Hz |].
  intros H0. pose proof (proj1 Hz H0) as Hall.
  destruct (health_verdicts.scan_flags checks) as [HU HD].
  unfold determineOverallStatus.
  destruct (map_fold scanCheck (false, false) checks) as [u d].
  simpl in HU, HD.
  assert (u = false).
  { destruct u; [| reflexivity]. destruct (proj1 HU eq_refl) as (k & x & Hk & Hx).
    rewrite (Hall _ _ Hk) in Hx. discriminate. }
  assert (d = false).
  { destruct d; [| reflexivity]. destruct (proj1 HD eq_refl) as (k & x & Hk & Hx).
    rewrite (Hall _ _ Hk) in Hx. discriminate. }
  subst. reflexivity.
Qed.

Section World.

Context {W : Type}.
Variable Now : W -> Z.
Variable Ping : W -> option string * W.

Local Abbreviation HealthCheck := (HealthCheck Now Ping).
Local Abbreviation checkDatabase := (checkDatabase Now Ping).

Lemma HealthCheck_checks (c : Checker) (env : Environ) (w : W) :
  Checks (fst (HealthCheck c env w))
  = <["features" := checkFeatures env (Now (snd (Ping w)))]>
      (<["memory" := checkMemory (Now (snd (Ping w)))]>
         (<["database" := fst (checkDatabase w)]> ∅))
  /\ RStatus (fst (HealthCheck c env w))
     = determineOverallStatus env (Checks (fst (HealthCheck c env w))).
Proof.
  unfold health.HealthCheck, health.checkDatabase.
  destruct (Ping w) as [[e|] w']; simpl; split; reflexivity.
Qed.

Lemma HealthCheck_follows_ping (c : Checker) (env : Environ) (w : W) :
  (fst (Ping w) = None -> RStatus (fst (HealthCheck c env w)) = StatusHealthy)
  /\ (fst (Ping w) <> None ->
      RStatus (fst (HealthCheck c env w))
      = if isGracefulDegradationEnabled env then StatusDegraded
        else StatusUnhealthy).
Proof.
  destruct (HealthCheck_checks c env w) as [Hc Hs].
  rewrite Hs, Hc. clear Hc Hs.
  pose proof (checkFeatures_healthy env (Now (snd (Ping w)))) as Hf.
  assert (Hflags := health_verdicts.scan_flags
                      (<["features" := checkFeatures env (Now (snd (Ping w)))]>
                         (<["memory" := checkMemory (Now (snd (Ping w)))]>
                            (<["database" := fst (checkDatabase w)]> ∅)))).
  rewrite !someCheck_three in Hflags.
  unfold determineOverallStatus.
  destruct (map_fold scanCheck (false, false) _) as [u d]. simpl in Hflags.
  destruct Hflags as [HU HD].
  destruct (health_verdicts.checkDatabase_status Now Ping w) as (_ & Hdb & Hok).
  rewrite Hf in HU, HD. simpl in HU, HD.
  split.
  - intros Hp. apply Hok in Hp.
    assert (u = false).
    { destruct u; [| reflexivity]. destruct HU as [HU _].
      destruct (HU eq_refl) as [Hx | [Hx | Hx]]; try discriminate.
      rewrite Hp in Hx. discriminate. }
    assert (d = false).
    { destruct d; [| reflexivity]. destruct HD as [HD _].
      destruct (HD eq_refl) as [Hx | [Hx | Hx]]; try discriminate.
      rewrite Hp in Hx. discriminate. }
    subst. reflexivity.
  - intros Hp. apply Hdb in Hp.
    assert (u = true) by (apply HU; auto). subst u.
    destruct (isGracefulDegradationEnabled env); reflexivity.
Qed.

(** X9. The overall status of HealthCheck follows the database ping alone:
    Healthy when the ping succeeds; when it fails, Degraded if graceful
    degradation is enabled and Unhealthy if it is not. The response always
    holds the three checks database, memory and features, the last two
    Healthy. *)
Theorem HealthCheck_follows_the_ping (c : Checker) (env : Environ) (w : W) :
  let response := fst (HealthCheck c env w) in
  dom (Checks response) = {["database"; "memory"; "features"]}
  /\ Checks response !! "database" = Some (fst (checkDatabase w))
  /\ (CStatus <$> Checks response !! "memory") = Some StatusHealthy
  /\ (CStatus <$> Checks response !! "features") = Some StatusHealthy
  /\ (fst (Ping w) = None -> RStatus response = StatusHealthy)
  /\ (fst (Ping w) <> None ->
      RStatus response
      = if isGracefulDegradationEnabled env then StatusDegraded
        else StatusUnhealthy).
Proof.
  intros response. subst response.
  destruct (HealthCheck_checks c env w) as [Hc Hs].
  rewrite Hs, Hc. clear Hc Hs.
  pose proof (checkFeatures_healthy env (Now (snd (Ping w)))) as Hf.
  split; [| split; [| split; [| split]]].
  - rewrite !dom_insert_L, dom_empty_L. set_solver.
  - rewrite !lookup_insert_ne by done. apply lookup_insert_eq.
  - rewrite lookup_insert_ne by done. rewrite lookup_insert_eq. reflexivity.
  - rewrite lookup_insert_eq. simpl. by rewrite Hf.
  - pose proof (HealthCheck_follows_ping c env w) as Hp.
    destruct (HealthCheck_checks c env w) as [Hc Hs]. rewrite Hs, Hc in Hp.
    exact Hp.
Qed.

(** X11. A round of backgroundHealthCheck logs its warning exactly when
    the database ping fails; the warning then counts one failed check and
    carries the status Degraded or Unhealthy according to the degradation
    flag. The round pings the database once and changes nothing in the
    checker. *)
Theorem backgroundHealthCheck_warns_on_ping_failure (c : Checker)
    (env : Environ) (w : W) :
  snd (health.backgroundHealthCheck Now Ping c env w) = snd (Ping w)
  /\ (fst (Ping w) = None ->
      fst (health.backgroundHealthCheck Now Ping c env w) = None)
  /\ (fst (Ping w) <> None ->
      fst (health.backgroundHealthCheck Now Ping c env w)
      = Some (if isGracefulDegradationEnabled env then StatusDegraded
              else StatusUnhealthy, 1)).
Proof.
  unfold health.backgroundHealthCheck.
  destruct (HealthCheck_checks c env w) as [Hc _].
  pose proof (HealthCheck_follows_ping c env w) as (Hok & Hbad).
  pose proof (health_flags.HealthCheck_world Now Ping c env w) as Hw.
  destruct (HealthCheck c env w) as [response w'] eqn:E. simpl in *.
  subst w'. split.
  - destruct (negb _); reflexivity.
  - split.
    + intros Hp. rewrite (Hok Hp). reflexivity.
    + intros Hp. rewrite (Hbad Hp).
      assert (Hcount : countFailedChecks (Checks response) = 1).
      { rewrite Hc.
        rewrite !countFailedChecks_insert, countFailedChecks_empty
          by (rewrite ?lookup_insert_ne by done; apply lookup_empty).
        unfold failedCheck. rewrite checkFeatures_healthy. simpl.
        destruct (health_verdicts.checkDatabase_status Now Ping w)
          as (_ & Hdb & _).
        apply Hdb in Hp. rewrite Hp. reflexivity. }
      rewrite Hcount.
      destruct (isGracefulDegradationEnabled env); reflexivity.
Qed.

Local Abbreviation exec := (exec Now Ping).
Local Abbreviation run := (run Now Ping).
Local Abbreviation ReadinessCheck := (ReadinessCheck Now Ping).

(** While the startup flag is down the goroutine that sets it is still to
    come; and the ready flag is up only with the startup flag. *)
Local Abbreviation timerOrStarted :=
  (fun s : @System W => startup (chk s) = false -> timerPending s = true).

Local Abbreviation readyAfterStartup :=
  (fun s : @System W => ready (chk s) = true -> startup (chk s) = true).

Ltac exec_cases H s e :=
  destruct e as [w' | | env | env | |]; simpl in H;
  [ destruct (Now (world s) <=? Now w') eqn:?; inversion H; subst; clear H
  | destruct (timerPending s) eqn:?; simpl in H; [| discriminate H];
    destruct (startTime (chk s) + startupDelay <=? Now (world s)) eqn:?;
    inversion H; subst; clear H
  | destruct (health.HealthCheck Now Ping (chk s) env (world s));
    inversion H; subst; clear H
  | destruct (health_flags.ReadinessCheck_cases Now Ping (chk s) env (world s))
      as [[? E] | [(? & ? & E) | (? & ? & E)]];
    rewrite E in H; inversion H; subst; clear H
  | inversion H; subst; clear H
  | inversion H; subst; clear H ].

Lemma exec_timerOrStarted s e o s' :
  exec s e = Some (o, s') -> timerOrStarted s -> timerOrStarted s'.
Proof.
  intros H I.
  exec_cases H s e; simpl in *; try assumption; try congruence.
Qed.

Lemma exec_readyAfterStartup s e o s' :
  exec s e = Some (o, s') -> readyAfterStartup s -> readyAfterStartup s'.
Proof.
  intros H I.
  exec_cases H s e; simpl in *; try assumption; try congruence; auto.
Qed.

Lemma run_startTime (w0 : W) (es : list Event) (os : list Output) (s : System) :
  run (newSystem Now w0) es = Some (os, s) -> startTime (chk s) = Now w0.
Proof.
  intros H.
  apply (health_flags.run_preserves Now Ping
           (fun s => startTime (chk s) = Now w0)) with (2 := H).
  - intros s1 e o s2 He Hs.
    rewrite (health_flags.exec_startTime Now Ping _ _ _ _ He). exact Hs.
  - reflexivity.
Qed.

(** X12. The startup flag does not wait for the database. In every state a
    run of events reaches from a new checker, once five seconds have passed
    since construction either StartupCheck already returns true, or the
    goroutine of NewChecker can wake, and when it does StartupCheck returns
    true and the world is as it was: no ping is made, whatever the state of
    the database. *)
Theorem startup_completes_without_database (w0 : W) (es : list Event)
    (os : list Output) (s : System) :
  run (newSystem Now w0) es = Some (os, s) ->
  Now w0 + startupDelay <= Now (world s) ->
  StartupCheck (chk s) = true
  \/ exists s', exec s EvStartupTimer = Some (OutNone, s')
                /\ StartupCheck (chk s') = true
                /\ world s' = world s
                /\ ready (chk s') = ready (chk s).
Proof.
  intros Hrun Hlate.
  pose proof (run_startTime _ _ _ _ Hrun) as Hst.
  assert (Hinv : timerOrStarted s).
  { apply (health_flags.run_preserves Now Ping timerOrStarted) with (2 := Hrun).
    - exact exec_timerOrStarted.
    - intros _. reflexivity. }
  unfold StartupCheck. destruct (startup (chk s)) eqn:E; [left; reflexivity |].
  right. simpl. rewrite (Hinv E), Hst. simpl.
  apply Z.leb_le in Hlate. rewrite Hlate.
  eexists. repeat split.
Qed.

(** X13. Readiness never comes before startup. In every state a run of
    events reaches from a new checker: IsReady is true only if StartupCheck
    is, and a ReadinessCheck that returns true finds StartupCheck true; while
    StartupCheck is false, ReadinessCheck returns false without pinging the
    database and IsReady is false. *)
Theorem ready_only_after_startup (w0 : W) (es : list Event)
    (os : list Output) (s : System) :
  run (newSystem Now w0) es = Some (os, s) ->
  (IsReady (chk s) = true -> StartupCheck (chk s) = true)
  /\ (forall env,
         fst (fst (ReadinessCheck (chk s) env (world s))) = true ->
         StartupCheck (chk s) = true)
  /\ (StartupCheck (chk s) = false ->
      IsReady (chk s) = false
      /\ forall env, ReadinessCheck (chk s) env (world s) = (false, chk s, world s)).
Proof.
  intros Hrun.
  assert (Hinv : readyAfterStartup s).
  { apply (health_flags.run_preserves Now Ping readyAfterStartup) with (2 := Hrun).
    - exact exec_readyAfterStartup.
    - intros H. discriminate H. }
  unfold IsReady, StartupCheck in *. simpl in Hinv.
  split; [exact Hinv |]. split.
  - intros env H.
    destruct (health_flags.ReadinessCheck_cases Now Ping (chk s) env (world s))
      as [[? E] | [(? & ? & E) | (? & ? & E)]]; rewrite E in H; simpl in H;
      [discriminate | assumption | assumption].
  - intros Hs. split.
    + destruct (ready (chk s)); [| reflexivity]. rewrite Hinv in Hs; [| reflexivity].
      discriminate.
    + intros env. unfold health.ReadinessCheck. rewrite Hs. reflexivity.
Qed.

(** The clock does not run backwards while a ping is under way. *)
Hypothesis Ping_clock : forall w, Now w <= Now (snd (Ping w)).

(** X14. Times in a health response are sound when the clock does not run
    backwards. In every state a run of events reaches from a new checker,
    HealthCheck reports an uptime that is not negative, and its database
    check is stamped no earlier than the response and has a duration that
    is not negative. *)
Theorem HealthCheck_times (w0 : W) (es : list Event) (os : list Output)
    (s : System) (env : Environ) :
  run (newSystem Now w0) es = Some (os, s) ->
  let response := fst (HealthCheck (chk s) env (world s)) in
  0 <= Uptime response
  /\ exists dbCheck,
      Checks response !! "database" = Some dbCheck
      /\ RTimestamp response <= Timestamp dbCheck
      /\ 0 <= Duration dbCheck.
Proof.
  intros Hrun response. subst response.
  pose proof (run_startTime _ _ _ _ Hrun) as Hst.
  assert (Hclock : Now w0 <= Now (world s)).
  { apply (health_flags.run_preserves Now Ping
             (fun s => Now w0 <= Now (world s))) with (2 := Hrun).
    - intros s1 e o s2 He Hs.
      pose proof (health_flags.exec_clock Now Ping Ping_clock _ _ _ _ He). lia.
    - simpl. lia. }
  destruct (HealthCheck_checks (chk s) env (world s)) as [Hc _].
  rewrite Hc. clear Hc.
  unfold health.HealthCheck, health.checkDatabase.
  pose proof (Ping_clock (world s)) as Hp.
  destruct (Ping (world s)) as [[e|] w'] eqn:E; simpl in *;
    (split; [lia |]);
    eexists; (split; [rewrite !lookup_insert_ne by done; apply lookup_insert_eq |]);
    simpl; split; lia.
Qed.

End World.

Lemma startup_completes_without_database_witness :
  let w0 := {| examples.simClock := 0; examples.simDown := true |} in
  let es := [EvReadinessCheck ∅;
             EvWorld {| examples.simClock := 6 * second; examples.simDown := true |};
             EvHealthCheck ∅] in
  exists os s,
    run examples.simNow examples.simPing (newSystem examples.simNow w0) es
    = Some (os, s)
    /\ (StartupCheck (chk s) = true
        \/ exists s', exec examples.simNow examples.simPing s EvStartupTimer
                      = Some (OutNone, s')
                      /\ StartupCheck (chk s') = true
                      /\ world s' = world s
                      /\ ready (chk s') = ready (chk s)).
Proof.
  intros w0 es. eexists _, _.
  split; [vm_compute; reflexivity |].
  eapply (startup_completes_without_database examples.simNow examples.simPing
            w0 es).
  - vm_compute. reflexivity.
  - vm_compute. discriminate.
Defined.

Lemma ready_only_after_startup_witness :
  let w0 := {| examples.simClock := 0; examples.simDown := false |} in
  let es := [EvReadinessCheck ∅; EvIsReady] in
  exists os s,
    run examples.simNow examples.simPing (newSystem examples.simNow w0) es
    = Some (os, s)
    /\ os = [OutBool false; OutBool false]
    /\ (IsReady (chk s) = true -> StartupCheck (chk s) = true)
    /\ (forall env,
           fst (fst (health.ReadinessCheck examples.simNow examples.simPing
                       (chk s) env (world s))) = true ->
           StartupCheck (chk s) = true)
    /\ (StartupCheck (chk s) = false ->
        IsReady (chk s) = false
        /\ forall env,
            health.ReadinessCheck examples.simNow examples.simPing
              (chk s) env (world s) = (false, chk s, world s)).
Proof.
  intros w0 es. eexists _, _.
  split; [vm_compute; reflexivity |].
  split; [reflexivity |].
  eapply (ready_only_after_startup examples.simNow examples.simPing w0 es).
  vm_compute. reflexivity.
Defined.

Lemma HealthCheck_times_witness :
  let w0 := {| examples.simClock := 3; examples.simDown := false |} in
  let es := [EvWorld {| examples.simClock := 10; examples.simDown := true |}] in
  exists os s,
    run examples.simNow examples.simPing (newSystem examples.simNow w0) es
    = Some (os, s)
    /\ let response :=
         fst (health.HealthCheck examples.simNow examples.simPing
                (chk s) ∅ (world s)) in
       0 <= Uptime response
       /\ exists dbCheck,
           Checks response !! "database" = Some dbCheck
           /\ RTimestamp response <= Timestamp dbCheck
           /\ 0 <= Duration dbCheck.
Proof.
  intros w0 es. eexists _, _.
  split; [vm_compute; reflexivity |].
  eapply (HealthCheck_times examples.simNow examples.simPing
            (fun w => ltac:(unfold examples.simNow, examples.simPing; simpl; lia))
            w0 es).
  vm_compute. reflexivity.
Defined.

End health_more.

(** ** The HTTP handlers and their middlewares *)

Module handlers_theory.

Import health http_handlers.
Local Open Scope string_scope.
Local Open Scope list_scope.
Local Open Scope Z_scope.

Lemma handler_flag_on (env : Environ) :
  handlers.isGracefulDegradationEnabled env = true.
Proof. reflexivity. Qed.

(** *** The writer and its wrapper *)

Lemma run_app {T : Type} `{Writer T} (ops1 ops2 : list WriterOp) (t : T) :
  run (ops1 ++ ops2) t
  = if snd (run ops1 t) then (fst (run ops1 t), true)
    else run ops2 (fst (run ops1 t)).
Proof.
  revert t. induction ops1 as [|op ops1 IH]; intros t; [reflexivity |].
  simpl. destruct (call op t) as [t' [|]]; [reflexivity | apply IH].
Qed.

Lemma run_cons (op : WriterOp) (ops : list WriterOp) (w : ResponseWriter) :
  run (op :: ops) w
  = if snd (rwApply op w) then (fst (rwApply op w), true)
    else run ops (fst (rwApply op w)).
Proof. simpl. unfold call, ResponseWriter_Writer. by destruct (rwApply op w). Qed.

Lemma run_cons_wrapper (op : WriterOp) (ops : list WriterOp)
    (rw : responseWriterWrapper) :
  run (op :: ops) rw
  = if snd (wrapperApply op rw) then (fst (wrapperApply op rw), true)
    else run ops (fst (wrapperApply op rw)).
Proof. simpl. unfold call, wrapper_Writer. by destruct (wrapperApply op rw). Qed.

(** The wrapper passes every call on. *)
Lemma wrapperApply_inner (op : WriterOp) (rw : responseWriterWrapper) :
  inner (fst (wrapperApply op rw)) = fst (rwApply op (inner rw))
  /\ snd (wrapperApply op rw) = snd (rwApply op (inner rw)).
Proof.
  destruct op; simpl; [done | | done].
  by destruct (rwWriteHeader code (inner rw)).
Qed.

Lemma run_wrapper (ops : list WriterOp) (rw : responseWriterWrapper) :
  inner (fst (run ops rw)) = fst (run ops (inner rw))
  /\ snd (run ops rw) = snd (run ops (inner rw)).
Proof.
  revert rw. induction ops as [|op ops IH]; intros rw; [done |].
  rewrite run_cons, run_cons_wrapper.
  destruct (wrapperApply_inner op rw) as [Hi Hp].
  destruct (wrapperApply op rw) as [rw' p], (rwApply op (inner rw)) as [w' p'].
  simpl in Hi, Hp. subst w' p'. destruct p; [done | apply IH].
Qed.

(** Once the final status is sent it stays, and no call panics. *)
Lemma rwApply_sent_stays (op : WriterOp) (w : ResponseWriter) p :
  sent w = Some p ->
  sent (fst (rwApply op w)) = Some p /\ snd (rwApply op w) = false.
Proof.
  intros H. destruct op; simpl.
  - done.
  - unfold rwWriteHeader. by rewrite H.
  - unfold rwWrite. rewrite H. by destruct (bodyAllowed _).
Qed.

Lemma run_sent_stays (ops : list WriterOp) (w : ResponseWriter) p :
  sent w = Some p ->
  sent (fst (run ops w)) = Some p /\ snd (run ops w) = false.
Proof.
  revert w. induction ops as [|op ops IH]; intros w H; [done |].
  rewrite run_cons.
  destruct (rwApply_sent_stays op w p H) as [Hs Hp].
  destruct (rwApply op w) as [w' q]. simpl in Hs, Hp. subst q. by apply IH.
Qed.

(** Calls other than WriteHeader do not panic, leave the note of the
    wrapper, and send 200 if they send a status. *)
Lemma run_no_WriteHeader (ops : list WriterOp) :
  (forall code, WriteHeader code ∉ ops) ->
  (forall rw : responseWriterWrapper,
      statusCode (fst (run ops rw)) = statusCode rw)
  /\ (forall w : ResponseWriter,
         snd (run ops w) = false
         /\ (sent w = None -> sentStatus (fst (run ops w)) = StatusOK)).
Proof.
  induction ops as [|op ops IH]; intros H.
  { split; [done |]. intros w. split; [done |].
    intros Hnone. simpl. unfold sentStatus. by rewrite Hnone. }
  assert (Hrest : forall code, WriteHeader code ∉ ops).
  { intros code Hin. apply (H code). by right. }
  destruct (IH Hrest) as [IHw IHr]. split.
  - intros rw. rewrite run_cons_wrapper.
    destruct op as [k v | code | b]; [| exfalso; apply (H code); left |]; simpl;
      rewrite IHw; reflexivity.
  - intros w. rewrite run_cons.
    destruct op as [k v | code | b]; [| exfalso; apply (H code); left |]; simpl.
    + exact (IHr {| header := <[k := v]> (header w); informed := informed w;
                    sent := sent w; body := body w |}).
    + split; [apply IHr |]. intros Hnone. unfold sentStatus.
      assert (Hs : sent (rwWrite b w) = Some (StatusOK, header w)).
      { unfold rwWrite. rewrite Hnone. reflexivity. }
      by rewrite (proj1 (run_sent_stays ops _ _ Hs)).
Qed.

(** X15. What the wrapper of the middlewares notes and what the client
    gets. The wrapper passes every call on, so the response, and whether a
    call panics, are as without it. It notes the code of the LAST WriteHeader
    the handler calls, before it passes the call on. net/http takes the code
    of the FIRST WriteHeader that is final: a WriteHeader or a Write after it
    changes nothing; a code that has not three digits makes the call panic,
    after the wrapper has noted it; an informational code is sent and leaves
    the status open, so that the status is 200 if no further WriteHeader
    follows. The note and the status agree when the handler calls WriteHeader
    once, before any Write, with a final code. *)
Theorem wrapper_notes_last_WriteHeader (pre post : list WriterOp) (code : Z)
    (w : ResponseWriter) :
  (forall c, WriteHeader c ∉ post) ->
  panics pre w = false ->
  let ops := pre ++ WriteHeader code :: post in
  inner (serveWrapped ops (newWrapper w)) = serve ops w
  /\ snd (run ops (newWrapper w)) = panics ops w
  /\ statusCode (serveWrapped ops (newWrapper w)) = code
  /\ (forall p, sent (serve pre w) = Some p ->
        sentStatus (serve ops w) = fst p /\ panics ops w = false)
  /\ (sent (serve pre w) = None ->
      (validCode code = false ->
       panics ops w = true /\ serve ops w = serve pre w)
      /\ (validCode code = true ->
          panics ops w = false
          /\ sentStatus (serve ops w)
             = if informational code then StatusOK else code)).
Proof.
  intros Hpost Hpre ops. subst ops.
  destruct (run_no_WriteHeader post Hpost) as [Hnote Hraw].
  destruct (run_wrapper (pre ++ WriteHeader code :: post) (newWrapper w))
    as [Hinner Hpan].
  split; [exact Hinner |]. split; [exact Hpan |].
  assert (Hrun : run (pre ++ WriteHeader code :: post) w
                 = let '(w1, p) := rwWriteHeader code (serve pre w) in
                   if p then (w1, true) else run post w1).
  { rewrite run_app. unfold panics in Hpre. rewrite Hpre. reflexivity. }
  split; [| split].
  - unfold serveWrapped. rewrite run_app.
    destruct (run_wrapper pre (newWrapper w)) as [_ Hp].
    rewrite Hp. simpl inner. unfold panics in Hpre. rewrite Hpre.
    simpl. unfold call at 1, wrapper_Writer. simpl.
    destruct (rwWriteHeader code (inner (run pre (newWrapper w)).1)) as [w1 [|]];
      [reflexivity |].
    by rewrite Hnote.
  - intros p Hp. unfold serve, panics. rewrite Hrun.
    unfold rwWriteHeader. rewrite Hp.
    destruct (run_sent_stays post (serve pre w) p Hp) as [Hs Hq].
    unfold sentStatus. rewrite Hs, Hq. by destruct p.
  - intros Hnone. split.
    + intros Hinv. unfold serve, panics. rewrite Hrun.
      unfold rwWriteHeader. rewrite Hnone, Hinv. done.
    + intros Hval. unfold serve, panics. rewrite Hrun.
      unfold rwWriteHeader. rewrite Hnone, Hval. simpl.
      destruct (informational code).
      * destruct (Hraw {| header := header (serve pre w);
                          informed := informed (serve pre w) ++ [code];
                          sent := None; body := body (serve pre w) |})
          as [Hq Hs].
        split; [exact Hq | by apply Hs].
      * set (w1 := {| header := header (serve pre w);
                      informed := informed (serve pre w);
                      sent := Some (code, header (serve pre w));
                      body := body (serve pre w) |}).
        destruct (run_sent_stays post w1 (code, header (serve pre w)) eq_refl)
          as [Hs Hq].
        split; [exact Hq |]. unfold sentStatus. by rewrite Hs.
Qed.

Lemma wrapper_notes_last_WriteHeader_witness :
  let pre := [Write (BodyBytes "partial")] in
  let ops := pre ++ WriteHeader 503 :: [Write (BodyBytes "Not Ready")] in
  (forall c, WriteHeader c ∉ [Write (BodyBytes "Not Ready")])
  /\ panics pre newResponseWriter = false
  /\ statusCode (serveWrapped ops (newWrapper newResponseWriter)) = 503
  /\ sentStatus (serve ops newResponseWriter) = 200.
Proof.
  intros pre ops.
  assert (Hpost : forall c, WriteHeader c ∉ [Write (BodyBytes "Not Ready")]).
  { intros c Hin. apply list_elem_of_singleton in Hin. discriminate Hin. }
  split; [exact Hpost |]. split; [reflexivity |].
  destruct (wrapper_notes_last_WriteHeader pre [Write (BodyBytes "Not Ready")]
              503 newResponseWriter Hpost eq_refl)
    as (_ & _ & Hnoted & Hsent & _).
  split; [exact Hnoted |].
  exact (proj1 (Hsent (200, ∅) eq_refl)).
Defined.

(** *** RecoveryMiddleware *)

Local Abbreviation errorResponse :=
  (writeErrorResponse StatusInternalServerError "internal_error"
     "Internal server error").

Local Abbreviation errorJSON :=
  (BodyJSON (JError {| Error := "Internal Server Error";
                       Code := "internal_error";
                       EMessage := "Internal server error" |})).




(** *** getEndpointLabel *)

Lemma prefix_append (p s : string) : String.prefix p (p ++ s)%string = true.
Proof.
  induction p as [|c p IH]; simpl.
  - by destruct s.
  - change (String c p ++ s)%string with (String c (p ++ s)%string).
    simpl. rewrite IH. by destruct (Ascii.ascii_dec c c).
Qed.

(** X17. getEndpointLabel folds every path under /api/users/ into one
    label and leaves the others alone; a label is its own label. So the
    metrics get one series for all user ids. *)
Theorem getEndpointLabel_normalises (path rest : string) :
  getEndpointLabel ("/api/users/" ++ rest)%string = "/api/users/{id}"
  /\ (String.prefix "/api/users/" path = false -> getEndpointLabel path = path)
  /\ getEndpointLabel (getEndpointLabel path) = getEndpointLabel path.
Proof.
  unfold getEndpointLabel. split; [| split].
  - by rewrite prefix_append.
  - intros H. by rewrite H.
  - destruct (String.prefix "/api/users/" path) eqn:E; [reflexivity |].
    by rewrite E.
Qed.

Section World.

Context {W E : Type}.
Variable Now : W -> Z.
Variable Ping : W -> option string * W.
Variable dbGetUsers : W -> (E + option (list database.User)) * W.
Variable dbGetUser : Z -> W -> (E + option database.User) * W.
Variable dbCreateUser : string -> string -> W -> (E + option database.User) * W.
Variable dbGetStats : W -> gobreaker.Counts.
Variable dbGetState : W -> gobreaker.State.

Local Abbreviation HealthCheck := (HealthCheck Now Ping).
Local Abbreviation ReadinessCheck := (ReadinessCheck Now Ping).
Local Abbreviation GetUsers := (GetUsers Now dbGetUsers).
Local Abbreviation GetUser := (GetUser Now dbGetUser).
Local Abbreviation CreateUser := (CreateUser dbCreateUser).
Local Abbreviation GetSystemStatus := (GetSystemStatus Now Ping dbGetStats dbGetState).

Local Abbreviation status := (fun ops => sentStatus (serve ops newResponseWriter)).

(** X18. The liveness endpoint. It answers 503 exactly when the ping of
    the database fails and FEATURE_FLAGS switches graceful degradation off;
    in every other case 200. It pings once, and the body is the response of
    the checker. *)
Theorem HealthCheck_handler_status (c : Checker) (env : Environ) (w : W) :
  let '(ops, w') := HealthCheck c env w in
  w' = snd (Ping w)
  /\ ops = writeJSONResponse (status ops)
             (JHealth (fst (health.HealthCheck Now Ping c env w)))
  /\ (status ops = StatusOK \/ status ops = StatusServiceUnavailable)
  /\ (status ops = StatusServiceUnavailable
      <-> fst (Ping w) <> None /\ isGracefulDegradationEnabled env = false).
Proof.
  unfold http_handlers.HealthCheck.
  pose proof (health_flags.HealthCheck_world Now Ping c env w) as Hw.
  destruct (health_more.HealthCheck_follows_ping Now Ping c env w) as [Hok Herr].
  destruct (health.HealthCheck Now Ping c env w) as [response w'].
  simpl in *. split; [exact Hw |].
  destruct (fst (Ping w)) as [e|].
  - rewrite Herr by discriminate.
    destruct (isGracefulDegradationEnabled env); simpl.
    + split; [reflexivity |]. split; [by left |].
      split; [discriminate | intros [_ H]; discriminate H].
    + split; [reflexivity |]. split; [by right |].
      split; [intros _; split; [discriminate | reflexivity] | reflexivity].
  - rewrite Hok by reflexivity. simpl.
    split; [reflexivity |]. split; [by left |].
    split; [discriminate | intros [H _]; by destruct H].
Qed.

(** X19. The readiness and startup endpoints. Before the startup flag is
    set both answer 503 and the database is not pinged. After it the startup
    endpoint answers 200, and the readiness endpoint answers 200 when the
    ping succeeds or graceful degradation is on, and 503 otherwise. *)
Theorem probe_handlers_status (c : Checker) (env : Environ) (w : W) :
  (health.StartupCheck c = false ->
   status (StartupCheck c) = StatusServiceUnavailable
   /\ ReadinessCheck c env w
      = ([WriteHeader StatusServiceUnavailable; Write (BodyBytes "Not Ready")],
         c, w))
  /\ (health.StartupCheck c = true ->
      status (StartupCheck c) = StatusOK
      /\ snd (ReadinessCheck c env w) = snd (Ping w)
      /\ status (fst (fst (ReadinessCheck c env w)))
         = if bool_decide (fst (Ping w) = None) || isGracefulDegradationEnabled env
           then StatusOK else StatusServiceUnavailable).
Proof.
  unfold http_handlers.StartupCheck, http_handlers.ReadinessCheck,
    health.StartupCheck.
  destruct (health_flags.ReadinessCheck_cases Now Ping c env w)
    as [[Hs HE] | [(Hs & Hp & HE) | (Hs & Hp & HE)]]; rewrite HE, Hs;
    (split; [intros H; try discriminate H | intros H; try discriminate H]).
  - split; reflexivity.
  - split; [reflexivity |]. split; [reflexivity |].
    rewrite bool_decide_eq_false_2 by exact Hp. simpl.
    by destruct (isGracefulDegradationEnabled env).
  - split; [reflexivity |]. split; [reflexivity |].
    rewrite bool_decide_eq_true_2 by exact Hp. reflexivity.
Qed.

(** X20. The user list never fails. Whatever the database answers,
    GetUsers replies 200 with the JSON of a slice of users: the slice the
    database returned, or, on any error, the one fallback user, dated a day
    before the reply. The body is an array except when the database returned
    the nil slice, as DB.GetUsers does when there are no rows: json.Encode
    then writes null. The branch that would answer 500 is never taken,
    because the handlers' degradation flag does not read the environment. *)
Theorem GetUsers_handler_always_OK (env : Environ) (w : W) :
  let '(ops, w') := GetUsers env w in
  w' = snd (dbGetUsers w)
  /\ status ops = StatusOK
  /\ exists users,
      ops = writeJSONResponse StatusOK (JUsers users)
      /\ match fst (dbGetUsers w) with
         | inr rows => users = rows
         | inl _ => users = Some (getFallbackUsers (Now w'))
                    /\ database.ID <$> getFallbackUsers (Now w') = [1]
         end
      /\ (jsonForm (JUsers users) = FormNull <-> fst (dbGetUsers w) = inr None)
      /\ (forall rows,
            fst (dbGetUsers w) = inr (sliceOf rows) ->
            jsonForm (JUsers users)
            = match rows with
              | [] => FormNull
              | _ => FormArray (length rows)
              end).
Proof.
  unfold http_handlers.GetUsers. rewrite handler_flag_on.
  destruct (dbGetUsers w) as [[e | rows] w']; simpl;
    (split; [reflexivity |]); (split; [reflexivity |]); eexists;
    (split; [reflexivity |]).
  - split; [split; reflexivity |]. split; [split; discriminate | discriminate].
  - split; [reflexivity |]. split.
    + destruct rows; simpl; split; congruence.
    + intros rs Hr. inversion Hr; subst rows. by destruct rs.
Qed.

(** X21. The status of GetUser. It is 400 exactly when the id of the
    route is no decimal int, and then the database is not asked. Otherwise
    it is 200 when the database finds the user, 200 with the fallback user
    when the database fails and the id is 1, and 404 for every other id the
    database fails on, whatever the failure was. *)
Theorem GetUser_handler_status (env : Environ) (idStr : string) (w : W) :
  match gostrconv.Atoi idStr with
  | None => GetUser env idStr w
            = (writeErrorResponse StatusBadRequest "invalid_id"
                 "User ID must be a valid number", w)
  | Some id =>
      let '(ops, w') := GetUser env idStr w in
      w' = snd (dbGetUser id w)
      /\ match fst (dbGetUser id w) with
         | inr user => ops = writeJSONResponse StatusOK (JUser user)
         | inl _ =>
             if id =? 1
             then ops = writeJSONResponse StatusOK
                          (JUser (getFallbackUser (Now w') 1))
             else ops = writeErrorResponse StatusNotFound "user_not_found"
                          "User not found"
         end
  end
  /\ (status (fst (GetUser env idStr w)) = StatusBadRequest
      <-> gostrconv.Atoi idStr = None)
  /\ status (fst (GetUser env idStr w)) <> StatusInternalServerError.
Proof.
  unfold http_handlers.GetUser. rewrite handler_flag_on.
  destruct (gostrconv.Atoi idStr) as [id|].
  - destruct (dbGetUser id w) as [[e | user] w']; simpl.
    + unfold getFallbackUser. destruct (id =? 1) eqn:Eid; simpl.
      * split; [split; reflexivity |]. split; [split; discriminate | discriminate].
      * split; [split; reflexivity |]. split; [split; discriminate | discriminate].
    + split; [split; reflexivity |]. split; [split; discriminate | discriminate].
  - simpl. split; [reflexivity |]. split; [split; reflexivity | discriminate].
Qed.

(** X22. The status of CreateUser. A body that does not decode, or an
    empty name or email, gives 400 and the database is not asked. Otherwise
    the database is asked once: 201 with the user on success, and 503 on any
    error; the branch that would answer 500 is never taken. *)
Theorem CreateUser_handler_status (env : Environ) (req : option CreateUserRequest)
    (w : W) :
  let '(ops, w') := CreateUser env req w in
  match req with
  | None => status ops = StatusBadRequest /\ w' = w
  | Some r =>
      if String.eqb (RName r) "" || String.eqb (REmail r) ""
      then status ops = StatusBadRequest /\ w' = w
      else w' = snd (dbCreateUser (RName r) (REmail r) w)
           /\ match fst (dbCreateUser (RName r) (REmail r) w) with
              | inr user => ops = writeJSONResponse StatusCreated (JUser user)
              | inl _ => status ops = StatusServiceUnavailable
              end
  end
  /\ status ops <> StatusInternalServerError.
Proof.
  unfold http_handlers.CreateUser. rewrite handler_flag_on.
  destruct req as [r|]; [| split; [split; reflexivity | discriminate]].
  destruct (String.eqb (RName r) "" || String.eqb (REmail r) "");
    [split; [split; reflexivity | discriminate] |].
  destruct (dbCreateUser (RName r) (REmail r) w) as [[e | user] w']; simpl;
    (split; [split; reflexivity | discriminate]).
Qed.

(** X23. The status endpoint answers 200 even when the health in its body
    is unhealthy. It runs the same health check as the liveness endpoint,
    with its one ping, and reads the counts and the state of the breaker
    after that ping. *)
Theorem GetSystemStatus_always_OK (c : Checker) (env : Environ) (w : W) :
  let '(ops, w') := GetSystemStatus c env w in
  w' = snd (Ping w)
  /\ status ops = StatusOK
  /\ exists st,
      ops = writeJSONResponse StatusOK (JStatus st)
      /\ sysHealth st = fst (health.HealthCheck Now Ping c env w)
      /\ sysState st = stateString (dbGetState (snd (Ping w)))
      /\ sysRequests st = gobreaker.Requests (dbGetStats (snd (Ping w)))
      /\ sysFeatures st = ["graceful_degradation"; "circuit_breaker"; "metrics"].
Proof.
  unfold http_handlers.GetSystemStatus.
  pose proof (health_flags.HealthCheck_world Now Ping c env w) as Hw.
  destruct (health.HealthCheck Now Ping c env w) as [response w'].
  simpl in *. subst w'. split; [reflexivity |]. split; [reflexivity |].
  eexists. split; [reflexivity |]. repeat split.
Qed.

(** The two shapes of the handlers' responses, with their codes. *)
Ltac json :=
  eexists; split; [left; eexists; reflexivity |];
  unfold StatusOK, StatusCreated, StatusBadRequest, StatusNotFound,
    StatusServiceUnavailable; lia.

Ltac text :=
  eexists; split; [right; eexists; reflexivity |];
  unfold StatusOK, StatusServiceUnavailable; lia.

(** X24. For every handler the status the middlewares log and count is
    the status the client gets: each handler calls WriteHeader once, before
    it writes, with a final code, so no call panics, the log line is written
    and the counter incremented, the code the wrapper notes is the code
    sent, and the status label of the request counter reads back as that
    code. *)
Theorem middlewares_report_sent_status (c : Checker) (env : Environ)
    (idStr : string) (req : option CreateUserRequest) (method path : string)
    (w : W) (ops : list WriterOp) :
  ops ∈ [fst (HealthCheck c env w);
         fst (fst (ReadinessCheck c env w));
         StartupCheck c;
         fst (GetUsers env w);
         fst (GetUser env idStr w);
         fst (CreateUser env req w);
         fst (GetSystemStatus c env w)] ->
  LoggingMiddleware ops newResponseWriter
  = (serve ops newResponseWriter, Some (status ops))
  /\ exists label,
      MetricsMiddleware method path ops newResponseWriter
      = (serve ops newResponseWriter,
         Some (method, getEndpointLabel path, label))
      /\ gostrconv.Atoi label = Some (status ops).
Proof.
  intros Hin.
  assert (Hshape : exists code,
             ((exists v, ops = writeJSONResponse code v)
              \/ (exists s, ops = [WriteHeader code; Write (BodyBytes s)]))
             /\ (code = 200 \/ code = 201 \/ code = 400 \/ code = 404
                 \/ code = 503)).
  { repeat (apply elem_of_cons in Hin; destruct Hin as [-> | Hin]).
    - unfold http_handlers.HealthCheck.
      destruct (health.HealthCheck Now Ping c env w) as [r w']. simpl.
      destruct (String.eqb _ _); [| destruct (String.eqb _ _)]; json.
    - unfold http_handlers.ReadinessCheck.
      destruct (health.ReadinessCheck Now Ping c env w) as [[[] c'] w']; simpl;
        text.
    - unfold http_handlers.StartupCheck.
      destruct (health.StartupCheck c); text.
    - unfold http_handlers.GetUsers. rewrite handler_flag_on.
      destruct (dbGetUsers w) as [[e | rows] w']; simpl; json.
    - unfold http_handlers.GetUser. rewrite handler_flag_on.
      destruct (gostrconv.Atoi idStr) as [id|]; simpl.
      + destruct (dbGetUser id w) as [[e | user] w']; simpl.
        * destruct (getFallbackUser (Now w') id); simpl; json.
        * json.
      + json.
    - unfold http_handlers.CreateUser. rewrite handler_flag_on.
      destruct req as [r|]; simpl.
      + destruct (String.eqb (RName r) "" || String.eqb (REmail r) ""); simpl.
        * json.
        * destruct (dbCreateUser (RName r) (REmail r) w) as [[e | user] w'];
            simpl; json.
      + json.
    - unfold http_handlers.GetSystemStatus.
      destruct (health.HealthCheck Now Ping c env w) as [r w']. simpl.
      json.
    - by apply elem_of_nil in Hin. }
  destruct Hshape as (code & [[v ->] | [s ->]] & Hc);
    destruct Hc as [-> | [-> | [-> | [-> | ->]]]];
    (split; [reflexivity |]); eexists; (split; [reflexivity |]);
    vm_compute; reflexivity.
Qed.

End World.

Lemma middlewares_report_sent_status_witness :
  let w := {| examples.simClock := 0; examples.simDown := true |} in
  let ops := StartupCheck (NewChecker examples.simNow w) in
  ops = [WriteHeader 503; Write (BodyBytes "Starting")]
  /\ LoggingMiddleware ops newResponseWriter
     = (serve ops newResponseWriter,
        Some (sentStatus (serve ops newResponseWriter)))
  /\ exists label,
      MetricsMiddleware "GET" "/startup" ops newResponseWriter
      = (serve ops newResponseWriter,
         Some ("GET", getEndpointLabel "/startup", label))
      /\ gostrconv.Atoi label = Some (sentStatus (serve ops newResponseWriter)).
Proof.
  intros w ops. split; [reflexivity |].
  apply (middlewares_report_sent_status examples.simNow examples.simPing
           (fun w => (inl "connection refused", w))
           (fun _ w => (inl "connection refused", w))
           (fun _ _ w => (inl "connection refused", w))
           (fun _ => gobreaker.noCounts) (fun _ => gobreaker.StateClosed)
           (NewChecker examples.simNow w) ∅ "1" None "GET" "/startup" w ops).
  apply elem_of_cons. right. apply elem_of_cons. right.
  apply elem_of_cons. left. reflexivity.
Defined.

End handlers_theory.

(** ** The rows of GetUsers *)

Module rows_theory.

Import gobreaker database.
Local Open Scope string_scope.
Local Open Scope list_scope.

Lemma scanRows_users (rs : list (User + string)) :
  forall (acc users : list User),
    scanRows rs acc = inl users <->
    exists scanned, rs = inl <$> scanned /\ users = acc ++ scanned.
Proof.
  induction rs as [|[user | err] rest IH]; intros acc users; simpl.
  - split.
    + intros H. inversion H; subst. exists []. by rewrite app_nil_r.
    + intros (scanned & Hs & ->). symmetry in Hs. apply fmap_nil_inv in Hs.
      subst. by rewrite app_nil_r.
  - rewrite IH. split.
    + intros (scanned & -> & ->). exists (user :: scanned).
      split; [reflexivity |]. by rewrite <- app_assoc.
    + intros (scanned & Hs & ->). destruct scanned as [|u scanned];
        [discriminate |]. inversion Hs; subst.
      exists scanned. split; [reflexivity |]. by rewrite <- app_assoc.
  - split; [discriminate |].
    intros (scanned & Hs & _). destruct scanned; discriminate.
Qed.

Lemma scanRows_first_error (pre : list User) (err : string)
    (post : list (User + string)) (acc : list User) :
  scanRows ((inl <$> pre) ++ inr err :: post) acc = inr err.
Proof.
  revert acc. induction pre as [|u pre IH]; intros acc; simpl; [reflexivity |].
  apply IH.
Qed.

Section Queries.

Context {W : Type}.
Variable QueryUsers : W -> (Rows + string) * W.

Local Abbreviation getUsersOp := (getUsersOp QueryUsers).

(** X25. The closure of GetUsers gives all rows or an error. It asks the
    database once. It returns without an error exactly when the query
    succeeds, every row scans and rows.Err is nil, and the users are then
    the rows in the order of the cursor. The first row that does not scan
    ends the loop: its error is returned with no user at all, and the rows
    after it are not looked at. *)
Theorem getUsersOp_all_rows_or_error (w : W) :
  let '((users, err), w') := getUsersOp w in
  w' = snd (QueryUsers w)
  /\ (err = None <->
      exists rows, fst (QueryUsers w) = inl rows
                   /\ scans rows = inl <$> users
                   /\ rowsErr rows = None)
  /\ (forall rows pre e post,
         fst (QueryUsers w) = inl rows ->
         scans rows = (inl <$> pre) ++ inr e :: post ->
         users = [] /\ err = Some e)
  /\ (forall e, fst (QueryUsers w) = inr e -> users = [] /\ err = Some e).
Proof.
  unfold database.getUsersOp.
  destruct (QueryUsers w) as [[rows | qerr] w']; simpl.
  - destruct (scanRows (scans rows) []) as [users | serr] eqn:Es.
    + apply scanRows_users in Es as (scanned & Hs & Hu). simpl in Hu. subst scanned.
      split; [reflexivity |]. split; [| split].
      * split.
        -- intros Hn. exists rows. done.
        -- intros (rows' & Hr & _ & Hn). by inversion Hr; subst.
      * intros rows' pre e post Hr Hsc. inversion Hr; subst rows'.
        assert (Hx : scanRows (scans rows) [] = inr e)
          by (rewrite Hsc; apply scanRows_first_error).
        assert (Hy : scanRows (scans rows) [] = inl users)
          by (apply scanRows_users; exists users; done).
        congruence.
      * discriminate.
    + split; [reflexivity |]. split; [| split].
      * split; [discriminate |].
        intros (rows' & Hr & Hsc & _). inversion Hr; subst rows'.
        assert (Hy : scanRows (scans rows) [] = inl [])
          by (apply scanRows_users; exists []; done).
        congruence.
      * intros rows' pre e post Hr Hsc. inversion Hr; subst rows'.
        rewrite Hsc, scanRows_first_error in Es. by inversion Es.
      * discriminate.
  - split; [reflexivity |]. split; [| split].
    + split; [discriminate |]. intros (rows & Hr & _). discriminate.
    + discriminate.
    + intros e He. by inversion He.
Qed.

End Queries.

End rows_theory.

(** ** Shutdown: what it returns, and that it does not run twice *)

Module shutdown_more.

Import shutdown.
Local Open Scope list_scope.

Lemma Cleanup_not_a_hook (ns : list nat) : StepCleanup ∉ map StepHook ns.
Proof.
  induction ns as [|n ns IH]; simpl; intros H.
  - by apply elem_of_nil in H.
  - apply elem_of_cons in H as [H | H]; [discriminate | by apply IH].
Qed.

Section World.

Context {W Ctx : Type}.
Variable serverShutdown : Ctx -> W -> option string * W.
Variable dbClose : W -> option string * W.

Local Abbreviation Shutdown := (Shutdown serverShutdown dbClose).
Local Abbreviation stepCaller := (stepCaller serverShutdown dbClose).
Local Abbreviation runSchedule := (runSchedule serverShutdown dbClose).

(** X26. When the first Shutdown returns nil. A call on a manager not
    yet shut down whose select takes the result of the goroutine returns nil
    exactly when the server stopped, every hook returned nil and the
    database closed, each without an error; and the final pause for cleanup
    is reached in exactly that case, after the server, every hook and the
    database. *)
Theorem Shutdown_nil_iff_all_succeed (m : Manager W Ctx) (ctx : Ctx) (w : W) :
  isShutdown m = false ->
  let '(err, m', steps, w') := Shutdown m ctx CaseDone w in
  (err = None <->
   exists w1 w2, serverShutdown ctx w = (None, w1)
                 /\ succeedAll ctx (shutdownFn m) w1 = Some w2
                 /\ dbClose w2 = (None, w'))
  /\ (StepCleanup ∈ steps <-> err = None)
  /\ (err = None ->
      steps = StepServer :: map StepHook (seq 1 (length (shutdownFn m)))
                ++ [StepDatabase; StepCleanup]).
Proof.
  intros Hf. unfold shutdown.Shutdown. rewrite Hf.
  unfold shutdown.teardown. cbn [shutdownFn].
  destruct (serverShutdown ctx w) as [[e|] w1] eqn:ES.
  { simpl. split; [| split].
    - split; [discriminate |]. intros (? & ? & Hx & _). discriminate Hx.
    - split; [| discriminate]. intros Hin.
      apply list_elem_of_singleton in Hin. discriminate Hin.
    - discriminate. }
  destruct (shutdown_theory.hooks_succeed_or_first_fails ctx (shutdownFn m) w1)
    as [[w2 Hs] | (pre & h & post & w2 & e & w3 & Hfns & Hs & Hh)].
  - rewrite (shutdown_theory.runHooks_all ctx _ 1 w1 w2 Hs).
    destruct (dbClose w2) as [[e|] w3] eqn:ED; simpl.
    + split; [| split].
      * split; [discriminate |].
        intros (w1' & w2' & H1 & H2 & H3). inversion H1; subst w1'.
        rewrite Hs in H2. inversion H2; subst w2'. rewrite ED in H3.
        discriminate H3.
      * split; [| discriminate]. intros Hin.
        apply elem_of_cons in Hin as [Hin | Hin]; [discriminate |].
        apply elem_of_app in Hin as [Hin | Hin].
        -- by apply Cleanup_not_a_hook in Hin.
        -- apply list_elem_of_singleton in Hin. discriminate Hin.
      * discriminate.
    + split; [| split].
      * split; [| reflexivity]. intros _. exists w1, w2. done.
      * split; [reflexivity |]. intros _.
        apply elem_of_cons. right. apply elem_of_app. right.
        apply elem_of_cons. right. apply list_elem_of_singleton. reflexivity.
      * reflexivity.
  - rewrite Hfns.
    rewrite (shutdown_theory.runHooks_abort ctx pre h post e 1 w1 w2 w3 Hs Hh).
    simpl. split; [| split].
    + split; [discriminate |].
      intros (w1' & w2' & H1 & H2 & _). inversion H1; subst w1'.
      rewrite (shutdown_theory.succeedAll_first_failure ctx pre h post e
                 w1 w2 w3 Hs Hh) in H2. discriminate H2.
    + split; [| discriminate]. intros Hin.
      apply elem_of_cons in Hin as [Hin | Hin]; [discriminate |].
      change (StepCleanup ∈ map StepHook (seq 1 (S (length pre)))) in Hin.
      by apply Cleanup_not_a_hook in Hin.
    + discriminate.
Qed.

(** X27. A Shutdown that failed is not tried again. Whatever the first
    call returns, an error of the server, of a hook or of the database
    included, it leaves the manager shut down with its hooks; every later
    call on that manager returns nil and makes no call at all, so what the
    first call left undone stays undone. *)
Theorem failed_Shutdown_is_not_retried (m : Manager W Ctx) (ctx : Ctx)
    (sel : SelectCase) (w : W) :
  let '(err, m', steps, w') := Shutdown m ctx sel w in
  IsShutdown m' = true
  /\ shutdownFn m' = shutdownFn m
  /\ (forall ctx2 sel2 w2, Shutdown m' ctx2 sel2 w2 = (None, m', [], w2))
  /\ (StepDatabase ∉ steps ->
      forall ctx2 sel2,
        StepDatabase ∉ snd (fst (Shutdown m' ctx2 sel2 w'))).
Proof.
  unfold shutdown.Shutdown, IsShutdown.
  destruct (isShutdown m) eqn:Hs.
  - rewrite Hs. repeat split; try assumption.
    intros _ ctx2 sel2. simpl. apply not_elem_of_nil.
  - destruct (shutdown.teardown serverShutdown dbClose _ ctx w)
      as [[res steps] w']. simpl.
    repeat split. intros _ ctx2 sel2. apply not_elem_of_nil.
Qed.

(** *** No deadlock among the callers *)

(** A caller fits its call, holds the lock only as its owner, and the owner
    of the lock is a caller between Lock and Unlock. *)
Local Abbreviation lockInv :=
  (fun c : Config W Ctx =>
     (forall t th, callers c !! t = Some th -> fitsCall (pc th) (call th) = true)
     /\ (forall t th, callers c !! t = Some th -> holdsLock (pc th) = true ->
                      mu c = Some t)
     /\ (forall t, mu c = Some t ->
                   exists th, callers c !! t = Some th /\ holdsLock (pc th) = true)).

Ltac moved H :=
  apply list_lookup_insert_Some in H as [(<- & <- & ?) | (? & H)]; simpl in *.

Lemma lockInv_start (m : Manager W Ctx) (w : W) (cs : list (Call W Ctx)) :
  lockInv (startCallers m w cs).
Proof.
  assert (Hpc : forall t th,
             callers (startCallers m w cs) !! t = Some th -> pc th = PcLock).
  { intros t th H. simpl in H. apply list_lookup_fmap_Some in H as (x & -> & _).
    reflexivity. }
  split; [| split].
  - intros t th H. by rewrite (Hpc _ _ H).
  - intros t th H Hh. rewrite (Hpc _ _ H) in Hh. discriminate.
  - simpl. discriminate.
Qed.

(** A step moves the caller named, forward, and no other. *)
Lemma stepCaller_moves (t : nat) (c c' : Config W Ctx) :
  stepCaller t c = Some c' ->
  exists th p,
    callers c !! t = Some th
    /\ callers c' = <[t := at_pc th p]> (callers c)
    /\ (remaining p < remaining (pc th))%nat.
Proof.
  intros H. unfold shutdown.stepCaller in H.
  destruct (callers c !! t) as [th|] eqn:Ht; [| discriminate].
  exists th.
  destruct (pc th) as [| | | | | | ran err | | |] eqn:Hpc;
    destruct (call th) as [ctx sel | fn] eqn:Hcall;
    simpl in H; try discriminate H;
    try (destruct (mu c); [discriminate H |]);
    try (destruct (shutdown.teardown serverShutdown dbClose (mgr c) ctx (wld c))
           as [[res steps] w']);
    inversion H; subst c'; clear H; simpl;
    eexists; (split; [reflexivity |]); (split; [reflexivity |]);
    try (destruct (isShutdown (mgr c))); simpl; lia.
Qed.

Lemma lockInv_step (t : nat) (c c' : Config W Ctx) :
  lockInv c -> stepCaller t c = Some c' -> lockInv c'.
Proof.
  intros (Ifits & Imutex & Iheld) H.
  unfold shutdown.stepCaller in H.
  destruct (callers c !! t) as [th|] eqn:Ht; [| discriminate].
  pose proof (lookup_lt_Some _ _ _ Ht) as Hlt.
  pose proof (Ifits _ _ Ht) as Hfit.
  assert (Hown : holdsLock (pc th) = true -> mu c = Some t)
    by (apply (Imutex _ _ Ht)).
  assert (Hfree : holdsLock (pc th) = false -> mu c <> Some t).
  { intros Hn Hmu. destruct (Iheld _ Hmu) as (th1 & H1 & Hh).
    rewrite Ht in H1. inversion H1; subst th1. congruence. }
  destruct (pc th) as [| | | | | | ran err | | |] eqn:Hpc;
    destruct (call th) as [ctx sel | fn] eqn:Hcall;
    simpl in Hfit; try discriminate Hfit; simpl in H; try discriminate H;
    try (destruct (mu c) eqn:Hmu; [discriminate H |]);
    try (destruct (shutdown.teardown serverShutdown dbClose (mgr c) ctx (wld c))
           as [[res steps] w']);
    inversion H; subst c'; clear H; simpl;
    (split; [| split]).
  all: lazymatch goal with
       | |- forall x y, _ -> fitsCall _ _ = true =>
           intros t1 th1 H1; moved H1;
           [rewrite ?Hcall; try reflexivity; by destruct (isShutdown (mgr c))
           | eauto]
       | |- forall x y, _ -> holdsLock _ = true -> _ =>
           intros t1 th1 H1 Hh; moved H1;
           [first [reflexivity | discriminate Hh | by apply Hown
                  | (destruct (isShutdown (mgr c)); by apply Hown)]
           | specialize (Imutex _ _ H1 Hh);
             first [congruence | assumption
                   | (exfalso; specialize (Hown eq_refl); congruence)]]
       | |- _ => idtac
       end.
  all: try discriminate.
  all: try (intros t1 Hmu1; inversion Hmu1; subst t1;
            eexists; split; [by apply list_lookup_insert_eq | reflexivity]).
  all: try (intros t1 Hmu1;
            assert (t1 = t) by (specialize (Hown eq_refl); congruence); subst t1;
            eexists; split; [by apply list_lookup_insert_eq |];
            simpl; try reflexivity; by destruct (isShutdown (mgr c))).
  all: try (intros t1 Hmu1; destruct (Iheld _ Hmu1) as (th1 & H1 & Hh);
            exists th1; split; [| assumption];
            rewrite list_lookup_insert_ne; [assumption |];
            intros ->; by apply (Hfree eq_refl)).
Qed.

Lemma lockInv_run (sched : list nat) :
  forall c : Config W Ctx, lockInv c -> lockInv (runSchedule c sched).
Proof.
  induction sched as [|t rest IH]; simpl; intros c I; [assumption |].
  apply IH. destruct (stepCaller t c) as [c'|] eqn:E; simpl; [| assumption].
  eapply lockInv_step; eauto.
Qed.

(** X28. Callers of Shutdown and AddShutdownHook never deadlock. With any
    number of callers on any manager, under every schedule: the lock is held
    only by a caller between its Lock and its Unlock, and never by the caller
    whose goroutine runs the hooks; as long as some caller has not returned,
    some caller can take a step; and a step moves one caller nearer to its
    return, which is at most five steps away. So every call returns under
    every schedule that keeps naming callers that can move. *)
Theorem callers_never_deadlock (m0 : Manager W Ctx) (w0 : W)
    (cs : list (Call W Ctx)) (sched : list nat) :
  let c := runSchedule (startCallers m0 w0 cs) sched in
  (forall t, mu c = Some t ->
             exists th, callers c !! t = Some th /\ holdsLock (pc th) = true)
  /\ (forall t th, callers c !! t = Some th -> pc th = PcTeardown ->
                   mu c <> Some t)
  /\ ((exists t th, callers c !! t = Some th /\ hasReturned (pc th) = false) ->
      exists t c', stepCaller t c = Some c')
  /\ (forall t c', stepCaller t c = Some c' ->
        exists th p,
          callers c !! t = Some th
          /\ callers c' = <[t := at_pc th p]> (callers c)
          /\ (remaining p < remaining (pc th) <= 5)%nat).
Proof.
  intros c.
  pose proof (lockInv_run sched _ (lockInv_start m0 w0 cs)) as I.
  fold c in I. destruct I as (Ifits & Imutex & Iheld).
  split; [exact Iheld |]. split; [| split].
  - intros t th Ht Hp Hmu. destruct (Iheld _ Hmu) as (th1 & H1 & Hh).
    rewrite Ht in H1. inversion H1; subst th1. rewrite Hp in Hh. discriminate.
  - intros (t & th & Ht & Hret).
    destruct (mu c) as [t1|] eqn:Hmu.
    + destruct (Iheld _ eq_refl) as (th1 & H1 & Hh).
      pose proof (Ifits _ _ H1) as Hfit.
      exists t1. unfold shutdown.stepCaller. rewrite H1.
      destruct (pc th1) as [| | | | | | ran err | | |] eqn:Hpc;
        destruct (call th1) as [ctx sel | fn] eqn:Hcall;
        simpl in Hh, Hfit; try discriminate Hh; try discriminate Hfit;
        simpl; eexists; reflexivity.
    + pose proof (Ifits _ _ Ht) as Hfit.
      assert (Hn : holdsLock (pc th) = false).
      { destruct (holdsLock (pc th)) eqn:Hh; [| reflexivity].
        specialize (Imutex _ _ Ht Hh). congruence. }
      exists t. unfold shutdown.stepCaller. rewrite Ht.
      destruct (pc th) as [| | | | | | ran err | | |] eqn:Hpc;
        destruct (call th) as [ctx sel | fn] eqn:Hcall;
        simpl in Hn, Hfit, Hret; try discriminate Hn; try discriminate Hfit;
        try discriminate Hret; simpl; rewrite ?Hmu;
        try (destruct (shutdown.teardown serverShutdown dbClose (mgr c) ctx (wld c))
               as [[res steps] w']);
        eexists; reflexivity.
  - intros t c' Hstep.
    destruct (stepCaller_moves t c c' Hstep) as (th & p & Ht & Hc & Hlt).
    exists th, p. split; [exact Ht |]. split; [exact Hc |].
    split; [exact Hlt |]. destruct (pc th) as [| | | | | | ? ? | | |]; simpl; lia.
Qed.

End World.

Lemma Shutdown_nil_iff_all_succeed_witness :
  let m := AddShutdownHook NewManager examples.flushHook in
  let '(err, m', steps, w') :=
    Shutdown examples.journalServer examples.journalClose m tt CaseDone [] in
  (err = None <->
   exists w1 w2, examples.journalServer tt [] = (None, w1)
                 /\ succeedAll tt (shutdownFn m) w1 = Some w2
                 /\ examples.journalClose w2 = (None, w'))
  /\ (StepCleanup ∈ steps <-> err = None)
  /\ (err = None ->
      steps = StepServer :: map StepHook (seq 1 (length (shutdownFn m)))
                ++ [StepDatabase; StepCleanup]).
Proof.
  intros m.
  exact (Shutdown_nil_iff_all_succeed examples.journalServer
           examples.journalClose m tt [] eq_refl).
Defined.

End shutdown_more.
